(** * mtd_debug: the MTD device-transfer engine, embedded in Rocq

    A shallow embedding of [project/make_meta/mtd_updateEngeen/mtd_debug.c]:
    geometry query ([getmeminfo], [getregions], [showinfo]), erase
    ([erase_flash]), the two bulk copies ([flash_to_file], [file_to_flash]),
    the size renderer ([printsize]) and the four commands
    ([mtd_debug_info], [mtd_debug_read], [mtd_debug_write], [mtd_debug_erase]).

    The program talks to the kernel and to libc at every step.  Those calls
    are modelled by an oracle [os] that answers a call given the history of
    the run, and every call and every line of output is recorded in a trace.
    Buffer contents are not tracked: a read or a write is its byte count. *)

From Stdlib Require Import ZArith List String Ascii Bool Lia.
From Equations Require Import Equations.
Import ListNotations.

Open Scope string_scope.
Open Scope list_scope.
Open Scope Z_scope.

(** ** Machine integers

    The board is an ILP32 target: [int] is 32 bits and two's complement,
    [size_t] and [u_int32_t] are 32 bits and unsigned. *)

Module C.

Definition to_size_t (z : Z) : Z := z mod 2 ^ 32.

Definition to_int (z : Z) : Z :=
  let u := z mod 2 ^ 32 in if u <? 2 ^ 31 then u else u - 2 ^ 32.

Definition INT_MAX : Z := 2 ^ 31 - 1.

End C.

(** ** Data model: the structures of the MTD user ABI *)

Record mtd_info_user := {
  mtd_type : Z;
  mtd_flags : Z;
  mtd_size : Z;
  mtd_erasesize : Z;
  mtd_writesize : Z;
  mtd_oobsize : Z
}.

Record region_info_user := {
  offset : Z;
  erasesize : Z;
  numblocks : Z;
  regionindex : Z
}.

(** The fields [start] and [length] of [struct erase_info_user]. *)
Record erase_info_user := {
  erase_start : Z;
  erase_length : Z
}.

Definition set_regionindex (i : Z) (r : region_info_user) : region_info_user :=
  {| offset := offset r; erasesize := erasesize r;
     numblocks := numblocks r; regionindex := i |}.

(** ** The environment: calls, replies and the trace *)

Inductive request := MEMGETINFO | MEMERASE | MEMGETREGIONCOUNT | MEMGETREGIONINFO.

(** What a pointer argument of [ioctl] points to before the call, and what
    the driver stored through it. *)
Inductive data :=
| DNone
| DInt (n : Z)
| DErase (e : erase_info_user)
| DRegion (r : region_info_user)
| DMtd (m : mtd_info_user).

Inductive syscall :=
| Ioctl (fd : Z) (req : request) (arg : data)
| Lseek (fd : Z) (off : Z)
| Creat (path : string) (mode : Z)
| Fopen (path : string) (mode : string)
| Malloc (size : Z)
| Free (p : Z)
| Read (fd : Z) (buf : Z) (count : Z)
| Write (fd : Z) (buf : Z) (count : Z)
| Fread (buf : Z) (size : Z) (nmemb : Z) (fp : Z)
| Ferror (fp : Z)
| Fclose (fp : Z)
| Close (fd : Z)
| Open (path : Z) (flags : Z)
| FindDevNode (name : string).

Record reply := { ret : Z; out : data }.

Inductive stream := Stdout | Stderr.

Inductive arg := AInt (z : Z) | AStr (s : string) | AChr (c : ascii).

Inductive event :=
| Sys (c : syscall) (r : reply)
| Print (s : stream) (fmt : string) (args : list arg)
| Perror (tag : string)
| Errmsg (fmt : string) (args : list arg).

(** The trace of a run, newest event first. *)
Definition trace := list event.

(** An operating system answers a call knowing all that happened before. *)
Definition OS := trace -> syscall -> reply.

(** ** The monad of the embedding: a trace threaded through, and faults *)

Inductive fault := Undefined | OutOfFuel.

Inductive res (A : Type) :=
| Ok (a : A) (t : trace)
| Fault (f : fault).
Arguments Ok {A} a t.
Arguments Fault {A} f.

Definition M (A : Type) := trace -> res A.

Definition mret {A} (a : A) : M A := fun t => Ok a t.

Definition mbind {A B} (m : M A) (k : A -> M B) : M B :=
  fun t => match m t with
           | Ok a t' => k a t'
           | Fault f => Fault f
           end.

Definition mfault {A} (f : fault) : M A := fun _ => Fault f.

Declare Scope mtd_scope.
Delimit Scope mtd_scope with mtd.
Notation "x <- c1 ;; c2" := (mbind c1 (fun x => c2))
  (at level 100, c1 at next level, right associativity) : mtd_scope.
Notation "c1 ;;; c2" := (mbind c1 (fun _ => c2))
  (at level 100, right associativity) : mtd_scope.
Open Scope mtd_scope.

Definition emit (e : event) : M unit := fun t => Ok tt (e :: t).

Definition printf (fmt : string) (args : list arg) : M unit :=
  emit (Print Stdout fmt args).

Definition fprintf (s : stream) (fmt : string) (args : list arg) : M unit :=
  emit (Print s fmt args).

Definition perror (tag : string) : M unit := emit (Perror tag).

(** Which stream an event writes to, if it writes at all.  [perror] writes to
    the diagnostic stream. *)
Definition stream_of (e : event) : option stream :=
  match e with
  | Sys _ _ => None
  | Print s _ _ => Some s
  | Perror _ => Some Stderr
  | Errmsg _ _ => Some Stderr
  end.

Definition writes_stdout (e : event) : bool :=
  match stream_of e with Some Stdout => true | _ => false end.

Definition writes_stderr (e : event) : bool :=
  match stream_of e with Some Stderr => true | _ => false end.

(** ** Constants of the headers

    The values that Linux gives them in [<fcntl.h>] and [<mtd/mtd-abi.h>],
    system headers that are not part of the repository. *)

Definition O_RDONLY : Z := 0.
Definition O_RDWR : Z := 2.
Definition O_SYNC : Z := 1052672.   (* 04010000 *)

Definition BUF_SIZE : Z := 64 * 1024 * 1.

Definition MTD_ABSENT : Z := 0.
Definition MTD_RAM : Z := 1.
Definition MTD_ROM : Z := 2.
Definition MTD_NORFLASH : Z := 3.
Definition MTD_NANDFLASH : Z := 4.
Definition MTD_DATAFLASH : Z := 6.
Definition MTD_UBIVOLUME : Z := 7.
Definition MTD_MLCNANDFLASH : Z := 8.

Definition MTD_WRITEABLE : Z := 1024.
Definition MTD_BIT_WRITEABLE : Z := 2048.
Definition MTD_NO_ERASE : Z := 4096.
Definition MTD_POWERUP_LOCK : Z := 8192.

Definition MTD_CAP_ROM : Z := 0.
Definition MTD_CAP_RAM : Z :=
  Z.lor (Z.lor MTD_WRITEABLE MTD_BIT_WRITEABLE) MTD_NO_ERASE.
Definition MTD_CAP_NORFLASH : Z := Z.lor MTD_WRITEABLE MTD_BIT_WRITEABLE.
Definition MTD_CAP_NANDFLASH : Z := MTD_WRITEABLE.

(** ** The program *)

Inductive status := Returned (err : Z) | Died.

(** [l[i] = x], for [i] within [l]. *)
Fixpoint list_set {A} (i : nat) (x : A) (l : list A) {struct l} : list A :=
  match l, i with
  | [], _ => []
  | _ :: l', O => x :: l'
  | a :: l', S i' => a :: list_set i' x l'
  end.

Section Program.

Variable os : OS.

(** A call into the kernel or libc: the oracle answers, the trace records.
    [ret] of the answer is the value as the C variable receives it. *)
Definition call (c : syscall) : M reply :=
  fun t => let r := os t c in Ok r (Sys c r :: t).

(** Modelled from the spec: [errmsg_die] is a macro of [common.h], which is
    not under src/.  It writes its message to the diagnostic stream and
    terminates the command: the failure is fatal. *)
Definition errmsg_die (fmt : string) (args : list arg) : M status :=
  emit (Errmsg fmt args);;; mret Died.

(** Modelled from the spec: [mtd_find_dev_node] is declared in
    [mtd_utils_all.h] and defined outside src/ (device-node resolution).  It
    is a call answered by the environment: the device path, or NULL (0). *)
Definition mtd_find_dev_node (mtd_dev : string) : M Z :=
  r <- call (FindDevNode mtd_dev);; mret (ret r).

(** *** MEMGETINFO *)
Definition getmeminfo (fd : Z) (mtd : mtd_info_user) : M (Z * mtd_info_user) :=
  r <- call (Ioctl fd MEMGETINFO (DMtd mtd));;
  mret (ret r, match out r with DMtd m => m | _ => mtd end).

(** *** MEMERASE *)
Definition memerase (fd : Z) (erase : erase_info_user) : M Z :=
  r <- call (Ioctl fd MEMERASE (DErase erase));; mret (ret r).

(** *** MEMGETREGIONCOUNT, MEMGETREGIONINFO

    The driver reads [regionindex] from the structure it is handed and stores
    the three other fields; [regionindex] stays as the caller set it. *)
Definition fill_region (r : region_info_user) (d : data) : region_info_user :=
  match d with
  | DRegion k => {| offset := offset k; erasesize := erasesize k;
                    numblocks := numblocks k; regionindex := regionindex r |}
  | _ => r
  end.

(** The [for] loop of [getregions]: [k] passes are left, [i] is the index.
    Storing past the end of [regions] has no defined behaviour. *)
Fixpoint getregions_loop (fd : Z) (k : nat) (i : Z)
    (regions : list region_info_user) : M (Z * list region_info_user) :=
  match k with
  | O => mret (0, regions)
  | S k' =>
    match nth_error regions (Z.to_nat i) with
    | None => mfault Undefined
    | Some ri =>
      let ri := set_regionindex i ri in
      r <- call (Ioctl fd MEMGETREGIONINFO (DRegion ri));;
      let regions := list_set (Z.to_nat i) (fill_region ri (out r)) regions in
      let err := ret r in
      if negb (err =? 0) then mret (err, regions)
      else getregions_loop fd k' (i + 1) regions
    end
  end.

Definition getregions (fd : Z) (regions : list region_info_user) (n : Z)
    : M (Z * list region_info_user * Z) :=
  r <- call (Ioctl fd MEMGETREGIONCOUNT (DInt n));;
  let n := match out r with DInt k => k | _ => n end in
  let err := ret r in
  if negb (err =? 0) then mret (err, regions, n)
  else
    p <- getregions_loop fd (Z.to_nat n) 0 regions;;
    mret (fst p, snd p, n).

Definition erase_flash (fd : Z) (offset bytes : Z) : M Z :=
  let erase := {| erase_start := offset; erase_length := bytes |} in
  err <- memerase fd erase;;
  if err <? 0 then
    perror "MEMERASE";;; mret 1
  else
    fprintf Stderr "Erased %d bytes from address 0x%.8x in flash\n"
            [AInt bytes; AInt offset];;;
    mret 0.

(** *** printsize *)
Definition flags : list ascii := list_ascii_of_string "KMGT".

(** The [for] loop of [printsize]: [rest] is what is left of [flags] from
    index [i] on, its end being the terminating NUL. *)
Fixpoint printsize_loop (rest : list ascii) (x i : Z) : Z * Z :=
  match rest with
  | [] => (x, i)
  | _ :: rest' =>
    if 1024 <=? x then printsize_loop rest' (x / 1024) (i + 1) else (x, i)
  end.

Definition printsize (x : Z) : M unit :=
  printf "%u " [AInt x];;;
  let (x, i) := printsize_loop flags x 0 in
  let i := i - 1 in
  if 0 <=? i then
    printf "(%u%c)" [AInt x; AChr (nth (Z.to_nat i) flags zero)]
  else mret tt.

(** *** flash_to_file *)

(** The [retry:] block: request [size] bytes; on failure fall back to
    [BUF_SIZE] unless that was the size just tried.  Returns the buffer
    (0 for NULL) and the size settled on. *)
Fixpoint flash_to_file_alloc (fuel : nat) (size : Z) : M (Z * Z) :=
  match fuel with
  | O => mfault OutOfFuel
  | S fuel' =>
    r <- call (Malloc (C.to_size_t size));;
    let buf := ret r in
    if buf =? 0 then
      fprintf Stderr "%s: malloc(%#x)\n" [AStr "flash_to_file"; AInt size];;;
      if negb (C.to_size_t size =? BUF_SIZE) then
        let size := BUF_SIZE in
        fprintf Stderr "%s: trying buffer size %#x\n"
                [AStr "flash_to_file"; AInt size];;;
        flash_to_file_alloc fuel' size
      else mret (buf, size)
    else mret (buf, size)
  end.

(** The [fail:] block. *)
Definition flash_to_file_fail (outfd buf : Z) : M Z :=
  call (Close outfd);;;
  call (Free buf);;;
  mret 1.

(** One pass through the body of the [do ... while] loop.  [Some (size, n)]
    when the pass reaches the loop test, [None] on [goto fail]. *)
Definition flash_to_file_body (fd outfd buf : Z) (filename : string)
    (size n : Z) : M (option (Z * Z)) :=
  let size := if n <=? size then n else size in
  r <- call (Read fd buf (C.to_size_t size));;
  let err := ret r in
  if err <? 0 then
    fprintf Stderr "%s: read, size %#x, n %#x\n"
            [AStr "flash_to_file"; AInt size; AInt n];;;
    perror "read()";;;
    mret None
  else
    (if err <? size then
       fprintf Stderr "%s: short read, requested %#x, read %#x\n"
               [AStr "flash_to_file"; AInt size; AInt err]
     else mret tt);;;
    w <- call (Write outfd buf (C.to_size_t err));;
    let err := ret w in
    if err <? 0 then
      fprintf Stderr "%s: write, size %#x, n %#x\n"
              [AStr "flash_to_file"; AInt size; AInt n];;;
      perror "write()";;;
      mret None
    else if negb (err =? size) then
      fprintf Stderr "Couldn't copy entire buffer to %s. (%d/%d bytes copied)\n"
              [AStr filename; AInt err; AInt size];;;
      mret None
    else
      (* in the range of int: 0, or positive and less than n *)
      mret (Some (size, n - size)).

(** The loop; [true] when it ran to its end, [false] on [goto fail]. *)
Fixpoint flash_to_file_loop (fuel : nat) (fd outfd buf : Z) (filename : string)
    (size n : Z) : M bool :=
  match fuel with
  | O => mfault OutOfFuel
  | S fuel' =>
    b <- flash_to_file_body fd outfd buf filename size n;;
    match b with
    | None => mret false
    | Some (size, n) =>
      if n >? 0 then flash_to_file_loop fuel' fd outfd buf filename size n
      else mret true
    end
  end.

Definition flash_to_file (fd offset len : Z) (filename : string) : M Z :=
  let size := C.to_int (len * 1) in
  let n := C.to_int len in
  r <- call (Lseek fd offset);;
  if negb (offset =? ret r) then
    perror "lseek()";;; mret 1
  else
    r <- call (Creat filename 438);;
    let outfd := ret r in
    if outfd <? 0 then
      perror "creat()";;; mret 1
    else
      a <- flash_to_file_alloc 2 size;;
      let (buf, size) := a in
      if buf =? 0 then
        perror "malloc()";;;
        flash_to_file_fail outfd buf
      else
        ok <- flash_to_file_loop (S (Z.to_nat n)) fd outfd buf filename size n;;
        if ok then
          (if negb (buf =? 0) then call (Free buf);;; mret tt else mret tt);;;
          call (Close outfd);;;
          printf "Copied %zu bytes from address 0x%.8llx in flash to %s\n"
                 [AInt len; AInt offset; AStr filename];;;
          mret 0
        else flash_to_file_fail outfd buf.

(** *** file_to_flash *)

Fixpoint file_to_flash_alloc (fuel : nat) (size : Z) : M (Z * Z) :=
  match fuel with
  | O => mfault OutOfFuel
  | S fuel' =>
    r <- call (Malloc (C.to_size_t size));;
    let buf := ret r in
    if buf =? 0 then
      fprintf Stderr "%s: malloc(%#x) failed\n"
              [AStr "file_to_flash"; AInt size];;;
      if negb (C.to_size_t size =? BUF_SIZE) then
        let size := BUF_SIZE in
        fprintf Stderr "%s: trying buffer size %#x\n"
                [AStr "file_to_flash"; AInt size];;;
        file_to_flash_alloc fuel' size
      else mret (buf, size)
    else mret (buf, size)
  end.

(** One pass through the body of the [do ... while] loop.  [Some (size, n)]
    when the pass reaches the loop test, [None] when it has released the
    buffer, closed the file and is about to return 1. *)
Definition file_to_flash_body (fd buf fp : Z) (size n : Z)
    : M (option (Z * Z)) :=
  let size := if n <=? size then n else size in
  r <- call (Fread buf (C.to_size_t size) 1 fp);;
  bad <- (if negb (ret r =? 1) then mret true
          else e <- call (Ferror fp);; mret (negb (ret e =? 0)));;
  if bad : bool then
    fprintf Stderr "%s: fread, size %#x, n %#x\n"
            [AStr "file_to_flash"; AInt size; AInt n];;;
    perror "fread()";;;
    call (Free buf);;;
    call (Fclose fp);;;
    mret None
  else
    w <- call (Write fd buf (C.to_size_t size));;
    let err := ret w in
    if err <? 0 then
      fprintf Stderr "%s: write, size %#x, n %#x\n"
              [AStr "file_to_flash"; AInt size; AInt n];;;
      perror "write()";;;
      call (Free buf);;;
      call (Fclose fp);;;
      mret None
    else
      mret (Some (size, n - size)).

Fixpoint file_to_flash_loop (fuel : nat) (fd buf fp : Z) (size n : Z)
    : M bool :=
  match fuel with
  | O => mfault OutOfFuel
  | S fuel' =>
    b <- file_to_flash_body fd buf fp size n;;
    match b with
    | None => mret false
    | Some (size, n) =>
      if n >? 0 then file_to_flash_loop fuel' fd buf fp size n
      else mret true
    end
  end.

Definition file_to_flash (fd offset len : Z) (filename : string) : M Z :=
  let size := C.to_int (len * 1) in
  let n := C.to_int len in
  r <- call (Lseek fd offset);;
  if negb (offset =? ret r) then
    perror "lseek()";;; mret 1
  else
    r <- call (Fopen filename "r");;
    let fp := ret r in
    if fp =? 0 then
      perror "fopen()";;; mret 1
    else
      a <- file_to_flash_alloc 2 size;;
      let (buf, size) := a in
      if buf =? 0 then
        perror "malloc()";;;
        call (Fclose fp);;;
        mret 1
      else
        ok <- file_to_flash_loop (S (Z.to_nat n)) fd buf fp size n;;
        if ok then
          (if negb (buf =? 0) then call (Free buf);;; mret tt else mret tt);;;
          call (Fclose fp);;;
          printf "Copied %d bytes from %s to address 0x%.8llx in flash\n"
                 [AInt len; AStr filename; AInt offset];;;
          mret 0
        else mret 1.

(** *** showinfo *)

Definition type_name (ty : Z) : string :=
  if ty =? MTD_ABSENT then "MTD_ABSENT"
  else if ty =? MTD_RAM then "MTD_RAM"
  else if ty =? MTD_ROM then "MTD_ROM"
  else if ty =? MTD_NORFLASH then "MTD_NORFLASH"
  else if ty =? MTD_NANDFLASH then "MTD_NANDFLASH"
  else if ty =? MTD_MLCNANDFLASH then "MTD_MLCNANDFLASH"
  else if ty =? MTD_DATAFLASH then "MTD_DATAFLASH"
  else if ty =? MTD_UBIVOLUME then "MTD_UBIVOLUME"
  else "(unknown type - new MTD API maybe?)".

(** The table [flags] local to [showinfo], up to its NULL entry. *)
Definition flag_table : list (string * Z) :=
  [ ("MTD_WRITEABLE", MTD_WRITEABLE);
    ("MTD_BIT_WRITEABLE", MTD_BIT_WRITEABLE);
    ("MTD_NO_ERASE", MTD_NO_ERASE);
    ("MTD_POWERUP_LOCK", MTD_POWERUP_LOCK) ].

Fixpoint showflags (tbl : list (string * Z)) (mtd_flags : Z) (first : bool)
    : M unit :=
  match tbl with
  | [] => mret tt
  | (name, value) :: tbl' =>
    if negb (Z.land mtd_flags value =? 0) then
      (if first then printf "%s" [AStr name]
       else printf " | %s" [AStr name]);;;
      showflags tbl' mtd_flags false
    else showflags tbl' mtd_flags first
  end.

(** The loop that prints the regions; reading past the end of [region] has
    no defined behaviour. *)
Fixpoint showregions (k : nat) (i : Z) (region : list region_info_user)
    : M unit :=
  match k with
  | O => mret tt
  | S k' =>
    match nth_error region (Z.to_nat i) with
    | None => mfault Undefined
    | Some ri =>
      printf "region[%d].offset = 0x%.8x\nregion[%d].erasesize = "
             [AInt i; AInt (offset ri); AInt i];;;
      printsize (erasesize ri);;;
      printf "\nregion[%d].numblocks = %d\nregion[%d].regionindex = %d\n"
             [AInt i; AInt (numblocks ri); AInt i; AInt (regionindex ri)];;;
      showregions k' (i + 1) region
    end
  end.

(** [mtd] and [n] are automatic variables that the source does not
    initialise, [region] is a static array of 1024 entries that keeps its
    contents between calls: their contents on entry are parameters. *)
Definition showinfo (fd : Z) (mtd : mtd_info_user)
    (region : list region_info_user) (n : Z) : M Z :=
  p <- getmeminfo fd mtd;;
  let (err, mtd) := p in
  if err <? 0 then
    perror "MEMGETINFO";;; mret 1
  else
    q <- getregions fd region n;;
    let '(err, region, n) := q in
    if err <? 0 then
      perror "MEMGETREGIONCOUNT";;; mret 1
    else
      printf "mtd.type = " [];;;
      printf (type_name (mtd_type mtd)) [];;;
      printf "\nmtd.flags = " [];;;
      (if mtd_flags mtd =? MTD_CAP_ROM then printf "MTD_CAP_ROM" []
       else if mtd_flags mtd =? MTD_CAP_RAM then printf "MTD_CAP_RAM" []
       else if mtd_flags mtd =? MTD_CAP_NORFLASH then
         printf "MTD_CAP_NORFLASH" []
       else if mtd_flags mtd =? MTD_CAP_NANDFLASH then
         printf "MTD_CAP_NANDFLASH" []
       else showflags flag_table (mtd_flags mtd) true);;;
      printf "\nmtd.size = " [];;;
      printsize (mtd_size mtd);;;
      printf "\nmtd.erasesize = " [];;;
      printsize (mtd_erasesize mtd);;;
      printf "\nmtd.writesize = " [];;;
      printsize (mtd_writesize mtd);;;
      printf "\nmtd.oobsize = " [];;;
      printsize (mtd_oobsize mtd);;;
      printf "\nregions = %d\n\n" [AInt n];;;
      showregions (Z.to_nat n) 0 region;;;
      mret 0.

(** *** The four commands *)

Definition mtd_debug_info (mtd_dev : string) (mtd : mtd_info_user)
    (region : list region_info_user) (n : Z) : M status :=
  let err := 0 in
  dev <- mtd_find_dev_node mtd_dev;;
  if dev =? 0 then
    errmsg_die "Failed to find MTD device %s" [AStr mtd_dev]
  else
    r <- call (Open dev (Z.lor O_SYNC O_RDONLY));;
    let fd := ret r in
    if fd <? 0 then errmsg_die "open()" []
    else
      showinfo fd mtd region n;;;
      c <- call (Close fd);;
      if ret c <? 0 then errmsg_die "close()" []
      else mret (Returned err).

Definition mtd_debug_read (mtd_dev : string) (offset length : Z)
    (file : string) : M status :=
  printf "%s %s %x %x\n"
         [AStr "mtd_debug_read"; AStr mtd_dev; AInt offset; AInt length];;;
  dev <- mtd_find_dev_node mtd_dev;;
  if dev =? 0 then
    errmsg_die "Failed to find MTD device %s" [AStr mtd_dev]
  else
    r <- call (Open dev (Z.lor O_SYNC O_RDONLY));;
    let fd := ret r in
    if fd <? 0 then errmsg_die "open()" []
    else
      err <- flash_to_file fd offset length file;;
      c <- call (Close fd);;
      if ret c <? 0 then errmsg_die "close()" []
      else mret (Returned err).

Definition mtd_debug_write (mtd_dev : string) (offset length : Z)
    (file : string) : M status :=
  printf "%s %s %x %x\n"
         [AStr "mtd_debug_write"; AStr mtd_dev; AInt offset; AInt length];;;
  dev <- mtd_find_dev_node mtd_dev;;
  if dev =? 0 then
    errmsg_die "Failed to find MTD device %s" [AStr mtd_dev]
  else
    r <- call (Open dev (Z.lor O_SYNC O_RDWR));;
    let fd := ret r in
    if fd <? 0 then errmsg_die "open()" []
    else
      err <- file_to_flash fd offset length file;;
      c <- call (Close fd);;
      if ret c <? 0 then errmsg_die "close()" []
      else mret (Returned err).

Definition mtd_debug_erase (mtd_dev : string) (offset length : Z)
    : M status :=
  printf "%s %s %x %x\n"
         [AStr "mtd_debug_erase"; AStr mtd_dev; AInt offset; AInt length];;;
  dev <- mtd_find_dev_node mtd_dev;;
  if dev =? 0 then
    errmsg_die "Failed to find MTD device %s" [AStr mtd_dev]
  else
    r <- call (Open dev (Z.lor O_SYNC O_RDWR));;
    let fd := ret r in
    if fd <? 0 then errmsg_die "open()" []
    else
      err <- erase_flash fd offset length;;
      c <- call (Close fd);;
      if ret c <? 0 then errmsg_die "close()" []
      else mret (Returned err).

End Program.

(** ** Reading a trace *)

(** The allocation requests of a trace, oldest first: size asked for and
    pointer returned. *)
Fixpoint mallocs (t : trace) : list (Z * Z) :=
  match t with
  | [] => []
  | Sys (Malloc size) r :: t' => mallocs t' ++ [(size, ret r)]
  | _ :: t' => mallocs t'
  end.

(** The per-region queries of a trace, oldest first: index asked for and
    value returned. *)
Fixpoint region_queries (t : trace) : list (Z * Z) :=
  match t with
  | [] => []
  | Sys (Ioctl _ MEMGETREGIONINFO (DRegion r)) rep :: t' =>
    region_queries t' ++ [(regionindex r, ret rep)]
  | _ :: t' => region_queries t'
  end.

Definition is_sys (e : event) : bool :=
  match e with Sys _ _ => true | _ => false end.

Definition is_read (e : event) : bool :=
  match e with Sys (Read _ _ _) _ => true | _ => false end.

Definition is_write (e : event) : bool :=
  match e with Sys (Write _ _ _) _ => true | _ => false end.

Definition is_region_query (e : event) : bool :=
  match e with Sys (Ioctl _ MEMGETREGIONINFO _) _ => true | _ => false end.

(** A read or a write that moved exactly the bytes it was asked to move. *)
Definition full_transfer (e : event) : bool :=
  match e with
  | Sys (Read _ _ count) r => ret r =? count
  | Sys (Write _ _ count) r => ret r =? count
  | _ => true
  end.


(** Consecutive integers [i, i+1, ..., i+k-1]. *)
Fixpoint Zseq (i : Z) (k : nat) : list Z :=
  match k with
  | O => []
  | S k' => i :: Zseq (i + 1) k'
  end.

(** ** The size scaling as the specification words it

    Divide by 1024 again and again while the value is at least 1024; [k]
    counts the divisions, so that the suffix is the [k]-th of K, M, G, T. *)
Equations? human_scale (x : Z) (k : nat) : Z * nat by wf (Z.to_nat x) lt :=
  human_scale x k with Z_le_dec 1024 x => {
    | left _ := human_scale (x / 1024) (S k);
    | right _ := (x, k) }.
Proof.
  assert (x / 1024 < x) by (apply Z.div_lt; lia).
  assert (0 <= x / 1024) by (apply Z.div_pos; lia).
  lia.
Qed.

(** What the renderer is specified to print for [x], newest event first. *)
Definition rendered_size (x : Z) : trace :=
  match human_scale x 0 with
  | (_, O) => [Print Stdout "%u " [AInt x]]
  | (y, S k) =>
    [Print Stdout "(%u%c)" [AInt y; AChr (nth k flags zero)];
     Print Stdout "%u " [AInt x]]
  end.

(** ** Concrete environments, to run the program on *)

Definition answer (z : Z) : reply := {| ret := z; out := DNone |}.

Definition sample_mtd : mtd_info_user :=
  {| mtd_type := MTD_NORFLASH; mtd_flags := MTD_CAP_NORFLASH;
     mtd_size := 16777216; mtd_erasesize := 65536;
     mtd_writesize := 1; mtd_oobsize := 0 |}.

Definition zero_mtd : mtd_info_user :=
  {| mtd_type := 0; mtd_flags := 0; mtd_size := 0; mtd_erasesize := 0;
     mtd_writesize := 0; mtd_oobsize := 0 |}.

Definition zero_region : region_info_user :=
  {| offset := 0; erasesize := 0; numblocks := 0; regionindex := 0 |}.

(** A healthy system: a NOR flash of 16 MiB with two erase regions, every
    call succeeds, reads and writes move all the bytes asked for. *)
Definition os_ok : OS := fun _ c =>
  match c with
  | Ioctl _ MEMGETINFO _ => {| ret := 0; out := DMtd sample_mtd |}
  | Ioctl _ MEMERASE _ => answer 0
  | Ioctl _ MEMGETREGIONCOUNT _ => {| ret := 0; out := DInt 2 |}
  | Ioctl _ MEMGETREGIONINFO (DRegion r) =>
    {| ret := 0;
       out := DRegion {| offset := 8388608 * regionindex r;
                         erasesize := 65536; numblocks := 128;
                         regionindex := regionindex r |} |}
  | Ioctl _ MEMGETREGIONINFO _ => answer (-1)
  | Lseek _ off => answer off
  | Creat _ _ => answer 4
  | Fopen _ _ => answer 4096
  | Malloc _ => answer 8192
  | Free _ => answer 0
  | Read _ _ count => answer count
  | Write _ _ count => answer count
  | Fread _ _ nmemb _ => answer nmemb
  | Ferror _ => answer 0
  | Fclose _ => answer 0
  | Close _ => answer 0
  | Open _ _ => answer 3
  | FindDevNode _ => answer 12288
  end.

(** [os_ok] with some calls answered otherwise. *)
Definition override (f : syscall -> option reply) (base : OS) : OS :=
  fun t c => match f c with Some r => r | None => base t c end.

(** The device accepts only half of the bytes of each write. *)
Definition os_short_device_write : OS :=
  override (fun c => match c with
                     | Write 3 _ count => Some (answer (count / 2))
                     | _ => None
                     end) os_ok.

(** The device hands out only half of the bytes of each read. *)
Definition os_short_device_read : OS :=
  override (fun c => match c with
                     | Read _ _ count => Some (answer (count / 2))
                     | _ => None
                     end) os_ok.

(** No memory at all. *)
Definition os_no_memory : OS :=
  override (fun c => match c with
                     | Malloc _ => Some (answer 0)
                     | _ => None
                     end) os_ok.

(** Only requests of at most 64 KiB are granted. *)
Definition os_low_memory : OS :=
  override (fun c => match c with
                     | Malloc size =>
                       if size <=? 65536 then None else Some (answer 0)
                     | _ => None
                     end) os_ok.

(** The device-info query fails. *)
Definition os_no_info : OS :=
  override (fun c => match c with
                     | Ioctl _ MEMGETINFO _ => Some (answer (-1))
                     | _ => None
                     end) os_ok.

(** The query for region 0 fails. *)
Definition os_bad_region : OS :=
  override (fun c => match c with
                     | Ioctl _ MEMGETREGIONINFO _ => Some (answer (-1))
                     | _ => None
                     end) os_ok.

(** The source file has no more data. *)
Definition os_short_file : OS :=
  override (fun c => match c with
                     | Fread _ _ _ _ => Some (answer 0)
                     | _ => None
                     end) os_ok.

(** The erase command is refused. *)
Definition os_no_erase : OS :=
  override (fun c => match c with
                     | Ioctl _ MEMERASE _ => Some (answer (-1))
                     | _ => None
                     end) os_ok.

(** Closing a handle fails. *)
Definition os_bad_close : OS :=
  override (fun c => match c with
                     | Close _ => Some (answer (-1))
                     | _ => None
                     end) os_ok.

(** ** Classes of events and environments *)

(** What the copy loops may leave in the trace: transfers, releases and
    lines on the diagnostic stream. *)
Definition loop_event (e : event) : bool :=
  match e with
  | Sys (Read _ _ _) _ | Sys (Write _ _ _) _ => true
  | Sys (Fread _ _ _ _) _ | Sys (Ferror _) _ => true
  | Sys (Free _) _ | Sys (Fclose _) _ => true
  | Print Stderr _ _ | Perror _ => true
  | _ => false
  end.

(** A read from the file that delivered the whole item asked for. *)
Definition fread_ok (e : event) : bool :=
  match e with
  | Sys (Fread _ _ _ _) r => ret r =? 1
  | _ => true
  end.

(** The contract of [read] and [write]: never more bytes than asked for. *)
Definition read_bounded (os : OS) : Prop :=
  forall t fd buf count, ret (os t (Read fd buf count)) <= count.

Definition write_bounded (os : OS) : Prop :=
  forall t fd buf count, ret (os t (Write fd buf count)) <= count.

Definition posix_io (os : OS) : Prop := read_bounded os /\ write_bounded os.

(** The allocation requests a transfer of [L] bytes may leave behind, with
    the value [r] the transfer returns and its trace [new]: none when the
    transfer failed before allocating; [L] alone, granted; [L] alone,
    refused, when [L] is [BUF_SIZE]; [L] refused and then [BUF_SIZE]. *)
Definition alloc_trail (L r : Z) (new : trace) : Prop :=
  (mallocs new = [] /\ r = 1) \/
  (exists p, p <> 0 /\ mallocs new = [(L, p)]) \/
  (L = BUF_SIZE /\ mallocs new = [(L, 0)] /\
   r = 1 /\ In (Perror "malloc()") new) \/
  (L <> BUF_SIZE /\ exists p, mallocs new = [(L, 0); (BUF_SIZE, p)] /\
   (p = 0 -> r = 1 /\ In (Perror "malloc()") new)).

(** The allocation requests of a transfer of [L] bytes that has got as far
    as allocating, that is, whose [lseek] and whose [creat] or [fopen]
    succeeded: [L] alone, granted; [L] alone, refused, when [L] is
    [BUF_SIZE]; [L] refused and then [BUF_SIZE]. *)
Definition alloc_requests (L r : Z) (new : trace) : Prop :=
  (exists p, p <> 0 /\ mallocs new = [(L, p)]) \/
  (L = BUF_SIZE /\ mallocs new = [(L, 0)] /\
   r = 1 /\ In (Perror "malloc()") new) \/
  (L <> BUF_SIZE /\ exists p, mallocs new = [(L, 0); (BUF_SIZE, p)] /\
   (p = 0 -> r = 1 /\ In (Perror "malloc()") new)).

(** What the [retry:] blocks may leave in the trace. *)
Definition alloc_event (e : event) : bool :=
  match e with
  | Sys (Malloc _) _ => true
  | Print Stderr _ _ => true
  | _ => false
  end.

(** Neither a line on standard output nor a short transfer nor a short
    item read from the file. *)
Definition silent (e : event) : bool :=
  negb (writes_stdout e) && full_transfer e && fread_ok e.

(** What the [retry:] block of a transfer does, whatever its messages. *)
Definition alloc_run (alloc : nat -> Z -> M (Z * Z)) : Prop :=
  forall size t,
  exists buf size' new,
    alloc 2%nat size t = Ok (buf, size') (new ++ t) /\
    forallb alloc_event new = true /\
    (size' = size \/ size' = BUF_SIZE) /\
    (buf = 0 -> existsb writes_stderr new = true) /\
    ((buf <> 0 /\ mallocs new = [(C.to_size_t size, buf)]) \/
     (buf = 0 /\ C.to_size_t size = BUF_SIZE /\
      mallocs new = [(C.to_size_t size, 0)]) \/
     (C.to_size_t size <> BUF_SIZE /\
      mallocs new = [(C.to_size_t size, 0); (BUF_SIZE, buf)])).

Definition not_write (e : event) : bool := negb (is_write e).

(** A trace that stops at an item the file could not deliver: [ef] is the
    only read from the file that came back short; the error is reported and
    no write follows it. *)
Definition stopped_at_fread (new : trace) : Prop :=
  exists post ef prev,
    new = post ++ ef :: prev /\
    fread_ok ef = false /\
    forallb fread_ok post = true /\
    forallb not_write post = true /\
    In (Perror "fread()") post /\
    forallb fread_ok prev = true.



(** The region count the driver reports never exceeds [cap], the capacity
    of the region array ([n] is what the count variable held before). *)
Definition region_count_bounded (os : OS) (cap n : Z) : Prop :=
  forall t fd,
    match out (os t (Ioctl fd MEMGETREGIONCOUNT (DInt n))) with
    | DInt k => k
    | _ => n
    end <= cap.



(** ** More ways to read a trace *)

(** The calls of a trace that [f] selects, oldest first. *)
Definition pick {A} (f : syscall -> reply -> option A) (t : trace) : list A :=
  rev (flat_map (fun e => match e with
                          | Sys c r => match f c r with
                                       | Some a => [a]
                                       | None => []
                                       end
                          | _ => []
                          end) t).

(** Reads and writes: count asked for and count returned. *)
Definition reads : trace -> list (Z * Z) :=
  pick (fun c r => match c with Read _ _ n => Some (n, ret r) | _ => None end).

Definition writes : trace -> list (Z * Z) :=
  pick (fun c r => match c with Write _ _ n => Some (n, ret r) | _ => None end).

(** Items asked of the source file: their size. *)
Definition freads : trace -> list Z :=
  pick (fun c _ => match c with Fread _ n _ _ => Some n | _ => None end).

Definition frees : trace -> list Z :=
  pick (fun c _ => match c with Free p => Some p | _ => None end).

Definition closes : trace -> list Z :=
  pick (fun c _ => match c with Close fd => Some fd | _ => None end).

Definition fcloses : trace -> list Z :=
  pick (fun c _ => match c with Fclose fp => Some fp | _ => None end).

(** What [creat] and [fopen] returned. *)
Definition creats : trace -> list Z :=
  pick (fun c r => match c with Creat _ _ => Some (ret r) | _ => None end).

Definition fopens : trace -> list Z :=
  pick (fun c r => match c with Fopen _ _ => Some (ret r) | _ => None end).

(** Reads ([true]) and writes ([false]) in the order they were made: count
    asked for and count returned. *)
Definition transfers : trace -> list (bool * Z * Z) :=
  pick (fun c r => match c with
                   | Read _ _ n => Some (true, n, ret r)
                   | Write _ _ n => Some (false, n, ret r)
                   | _ => None
                   end).

(** What the driver stored in answer to the per-region queries. *)
Definition region_replies : trace -> list data :=
  pick (fun c r => match c with
                   | Ioctl _ MEMGETREGIONINFO _ => Some (out r)
                   | _ => None
                   end).

(** The names of the entries of a flag table whose bit is set in [f]. *)
Definition set_names (tbl : list (string * Z)) (f : Z) : list string :=
  map fst (filter (fun nv => negb (Z.land f (snd nv) =? 0)) tbl).

(** Names joined by [" | "], each its own [printf]; [first] tells whether
    the line is still empty. *)
Definition flag_lines (first : bool) (names : list string) : list event :=
  match names with
  | [] => []
  | n :: ns =>
    Print Stdout (if first then "%s" else " | %s") [AStr n]
    :: map (fun m => Print Stdout " | %s" [AStr m]) ns
  end.

(** The lines written to standard output, oldest first. *)
Definition stdout_lines (t : trace) : list event := rev (filter writes_stdout t).

Definition sum (l : list Z) : Z := fold_right Z.add 0 l.

(** What a pass of the read-out loop may leave in the trace. *)
Definition io_event (e : event) : bool :=
  match e with
  | Sys (Read _ _ _) _ | Sys (Write _ _ _) _ => true
  | Print Stderr _ _ | Perror _ => true
  | _ => false
  end.

(** ** The copy loops as relations

    [flash_to_file_passes t size n ok new]: from the trace [t], with buffer
    size [size] and [n] bytes left, the read-out loop makes its passes,
    leaves the events [new] and ends at the loop test ([ok = true]) or in
    [goto fail]. *)
Section Passes.

Variable os : OS.

Inductive flash_to_file_passes (fd outfd buf : Z) (filename : string)
  : trace -> Z -> Z -> bool -> list event -> Prop :=
| ftf_fail t size n nb :
    flash_to_file_body os fd outfd buf filename size n t = Ok None (nb ++ t) ->
    flash_to_file_passes fd outfd buf filename t size n false nb
| ftf_last t size n sz n' nb :
    flash_to_file_body os fd outfd buf filename size n t
      = Ok (Some (sz, n')) (nb ++ t) ->
    n' <= 0 ->
    flash_to_file_passes fd outfd buf filename t size n true nb
| ftf_next t size n sz n' nb ok new :
    flash_to_file_body os fd outfd buf filename size n t
      = Ok (Some (sz, n')) (nb ++ t) ->
    0 < n' ->
    flash_to_file_passes fd outfd buf filename (nb ++ t) sz n' ok new ->
    flash_to_file_passes fd outfd buf filename t size n ok (new ++ nb).

Inductive file_to_flash_passes (fd buf fp : Z)
  : trace -> Z -> Z -> bool -> list event -> Prop :=
| ftd_fail t size n nb :
    file_to_flash_body os fd buf fp size n t = Ok None (nb ++ t) ->
    file_to_flash_passes fd buf fp t size n false nb
| ftd_last t size n sz n' nb :
    file_to_flash_body os fd buf fp size n t = Ok (Some (sz, n')) (nb ++ t) ->
    n' <= 0 ->
    file_to_flash_passes fd buf fp t size n true nb
| ftd_next t size n sz n' nb ok new :
    file_to_flash_body os fd buf fp size n t = Ok (Some (sz, n')) (nb ++ t) ->
    0 < n' ->
    file_to_flash_passes fd buf fp (nb ++ t) sz n' ok new ->
    file_to_flash_passes fd buf fp t size n ok (new ++ nb).

(** A whole read-out, path by path: [lseek] refused; [creat] refused; no
    memory; copied; aborted in the loop. *)
Inductive flash_to_file_outcome (fd offset len : Z) (filename : string)
    (t : trace) : Z -> list event -> Prop :=
| ftf_no_seek l :
    l = os t (Lseek fd offset) -> ret l <> offset ->
    flash_to_file_outcome fd offset len filename t 1
      [Perror "lseek()"; Sys (Lseek fd offset) l]
| ftf_no_file l c :
    ret l = offset -> ret c < 0 ->
    flash_to_file_outcome fd offset len filename t 1
      [Perror "creat()"; Sys (Creat filename 438) c; Sys (Lseek fd offset) l]
| ftf_no_memory l c size anew fr cl :
    ret l = offset -> 0 <= ret c ->
    flash_to_file_alloc os 2 (C.to_int len)
      ([Sys (Creat filename 438) c; Sys (Lseek fd offset) l] ++ t)
      = Ok (0, size)
           (anew ++ [Sys (Creat filename 438) c; Sys (Lseek fd offset) l] ++ t) ->
    flash_to_file_outcome fd offset len filename t 1
      ([Sys (Free 0) fr; Sys (Close (ret c)) cl; Perror "malloc()"] ++ anew ++
       [Sys (Creat filename 438) c; Sys (Lseek fd offset) l])
| ftf_copied l c buf size anew lnew fr cl :
    ret l = offset -> 0 <= ret c -> buf <> 0 ->
    flash_to_file_alloc os 2 (C.to_int len)
      ([Sys (Creat filename 438) c; Sys (Lseek fd offset) l] ++ t)
      = Ok (buf, size)
           (anew ++ [Sys (Creat filename 438) c; Sys (Lseek fd offset) l] ++ t) ->
    flash_to_file_passes fd (ret c) buf filename
      (anew ++ [Sys (Creat filename 438) c; Sys (Lseek fd offset) l] ++ t)
      size (C.to_int len) true lnew ->
    flash_to_file_outcome fd offset len filename t 0
      ([Print Stdout "Copied %zu bytes from address 0x%.8llx in flash to %s\n"
              [AInt len; AInt offset; AStr filename];
        Sys (Close (ret c)) cl; Sys (Free buf) fr] ++ lnew ++ anew ++
       [Sys (Creat filename 438) c; Sys (Lseek fd offset) l])
| ftf_aborted l c buf size anew lnew fr cl :
    ret l = offset -> 0 <= ret c -> buf <> 0 ->
    flash_to_file_alloc os 2 (C.to_int len)
      ([Sys (Creat filename 438) c; Sys (Lseek fd offset) l] ++ t)
      = Ok (buf, size)
           (anew ++ [Sys (Creat filename 438) c; Sys (Lseek fd offset) l] ++ t) ->
    flash_to_file_passes fd (ret c) buf filename
      (anew ++ [Sys (Creat filename 438) c; Sys (Lseek fd offset) l] ++ t)
      size (C.to_int len) false lnew ->
    flash_to_file_outcome fd offset len filename t 1
      ([Sys (Free buf) fr; Sys (Close (ret c)) cl] ++ lnew ++ anew ++
       [Sys (Creat filename 438) c; Sys (Lseek fd offset) l]).

(** A whole write-in, path by path. *)
Inductive file_to_flash_outcome (fd offset len : Z) (filename : string)
    (t : trace) : Z -> list event -> Prop :=
| ftd_no_seek l :
    l = os t (Lseek fd offset) -> ret l <> offset ->
    file_to_flash_outcome fd offset len filename t 1
      [Perror "lseek()"; Sys (Lseek fd offset) l]
| ftd_no_file l c :
    ret l = offset -> ret c = 0 ->
    file_to_flash_outcome fd offset len filename t 1
      [Perror "fopen()"; Sys (Fopen filename "r") c; Sys (Lseek fd offset) l]
| ftd_no_memory l c size anew cl :
    ret l = offset -> ret c <> 0 ->
    file_to_flash_alloc os 2 (C.to_int len)
      ([Sys (Fopen filename "r") c; Sys (Lseek fd offset) l] ++ t)
      = Ok (0, size)
           (anew ++ [Sys (Fopen filename "r") c; Sys (Lseek fd offset) l] ++ t) ->
    file_to_flash_outcome fd offset len filename t 1
      ([Sys (Fclose (ret c)) cl; Perror "malloc()"] ++ anew ++
       [Sys (Fopen filename "r") c; Sys (Lseek fd offset) l])
| ftd_copied l c buf size anew lnew fr cl :
    ret l = offset -> ret c <> 0 -> buf <> 0 ->
    file_to_flash_alloc os 2 (C.to_int len)
      ([Sys (Fopen filename "r") c; Sys (Lseek fd offset) l] ++ t)
      = Ok (buf, size)
           (anew ++ [Sys (Fopen filename "r") c; Sys (Lseek fd offset) l] ++ t) ->
    file_to_flash_passes fd buf (ret c)
      (anew ++ [Sys (Fopen filename "r") c; Sys (Lseek fd offset) l] ++ t)
      size (C.to_int len) true lnew ->
    file_to_flash_outcome fd offset len filename t 0
      ([Print Stdout "Copied %d bytes from %s to address 0x%.8llx in flash\n"
              [AInt len; AStr filename; AInt offset];
        Sys (Fclose (ret c)) cl; Sys (Free buf) fr] ++ lnew ++ anew ++
       [Sys (Fopen filename "r") c; Sys (Lseek fd offset) l])
| ftd_aborted l c buf size anew lnew :
    ret l = offset -> ret c <> 0 -> buf <> 0 ->
    file_to_flash_alloc os 2 (C.to_int len)
      ([Sys (Fopen filename "r") c; Sys (Lseek fd offset) l] ++ t)
      = Ok (buf, size)
           (anew ++ [Sys (Fopen filename "r") c; Sys (Lseek fd offset) l] ++ t) ->
    file_to_flash_passes fd buf (ret c)
      (anew ++ [Sys (Fopen filename "r") c; Sys (Lseek fd offset) l] ++ t)
      size (C.to_int len) false lnew ->
    file_to_flash_outcome fd offset len filename t 1
      (lnew ++ anew ++
       [Sys (Fopen filename "r") c; Sys (Lseek fd offset) l]).

End Passes.

(** What a [retry:] block hands over: the last request is the one for the
    size settled on; a request before it was refused, and there is at most
    one such, made when the size first asked for is not [BUF_SIZE]. *)
Definition alloc_hands_over (alloc : nat -> Z -> M (Z * Z)) : Prop :=
  forall size t buf size' anew,
    alloc 2%nat size t = Ok (buf, size') (anew ++ t) ->
    forallb alloc_event anew = true /\
    exists refused,
      mallocs anew = refused ++ [(C.to_size_t size', buf)] /\
      ((refused = [] /\ size' = size) \/
       (refused = [(C.to_size_t size, 0)] /\ size' = BUF_SIZE /\
        C.to_size_t size <> BUF_SIZE)).

(** The trace a run ends with (empty for a fault). *)
Definition trace_of {A} (r : res A) : trace :=
  match r with
  | Ok _ t => t
  | Fault _ => []
  end.

(** A computation that comes to an end from every trace, adding to it only
    events in [P], with a result in [Q]. *)
Definition emits {A} (P : event -> bool) (Q : A -> Prop) (m : M A) : Prop :=
  forall t, exists a new,
    m t = Ok a (new ++ t) /\ forallb P new = true /\ Q a.

(** ** The report of [showinfo], line by line *)

(** What [printsize] writes for [x]: the value, and the scaled value with
    its suffix when there is one. *)
Definition size_lines (x : Z) : list event :=
  let (y, i) := printsize_loop flags x 0 in
  Print Stdout "%u " [AInt x]
  :: (if 0 <=? i - 1
      then [Print Stdout "(%u%c)"
                  [AInt y; AChr (nth (Z.to_nat (i - 1)) flags zero)]]
      else []).

(** The capabilities: one of the four names of a whole set, or else the
    names of the bits that are set. *)
Definition capability_lines (f : Z) : list event :=
  if f =? MTD_CAP_ROM then [Print Stdout "MTD_CAP_ROM" []]
  else if f =? MTD_CAP_RAM then [Print Stdout "MTD_CAP_RAM" []]
  else if f =? MTD_CAP_NORFLASH then [Print Stdout "MTD_CAP_NORFLASH" []]
  else if f =? MTD_CAP_NANDFLASH then [Print Stdout "MTD_CAP_NANDFLASH" []]
  else flag_lines true (set_names flag_table f).

(** Entry [i] of the region table. *)
Definition region_lines (region : list region_info_user) (i : Z)
    : list event :=
  let ri := nth (Z.to_nat i) region zero_region in
  [Print Stdout "region[%d].offset = 0x%.8x\nregion[%d].erasesize = "
         [AInt i; AInt (offset ri); AInt i]]
  ++ size_lines (erasesize ri)
  ++ [Print Stdout
            "\nregion[%d].numblocks = %d\nregion[%d].regionindex = %d\n"
            [AInt i; AInt (numblocks ri); AInt i; AInt (regionindex ri)]].

(** The whole report, oldest line first: type, capabilities, the four
    sizes, the number of regions and the first [n] entries of the table. *)
Definition report (mtd : mtd_info_user) (region : list region_info_user)
    (n : Z) : list event :=
  [Print Stdout "mtd.type = " []] ++
  [Print Stdout (type_name (mtd_type mtd)) []] ++
  [Print Stdout "\nmtd.flags = " []] ++
  capability_lines (mtd_flags mtd) ++
  [Print Stdout "\nmtd.size = " []] ++
  size_lines (mtd_size mtd) ++
  [Print Stdout "\nmtd.erasesize = " []] ++
  size_lines (mtd_erasesize mtd) ++
  [Print Stdout "\nmtd.writesize = " []] ++
  size_lines (mtd_writesize mtd) ++
  [Print Stdout "\nmtd.oobsize = " []] ++
  size_lines (mtd_oobsize mtd) ++
  [Print Stdout "\nregions = %d\n\n" [AInt n]] ++
  flat_map (region_lines region) (Zseq 0 (Z.to_nat n)).

(** A computation that, from every trace, adds exactly [lines], oldest
    first, and returns [a]. *)
Definition prints {A} (lines : list event) (a : A) (m : M A) : Prop :=
  forall t, m t = Ok a (rev lines ++ t).

(** * Properties *)

(** ** Machine integers *)

Lemma to_size_t_to_int z : C.to_size_t (C.to_int z) = C.to_size_t z.
Proof.
  unfold C.to_size_t, C.to_int.
  destruct (z mod 2 ^ 32 <? 2 ^ 31).
  - apply Z.mod_mod. lia.
  - rewrite <- (Z.mod_mod z (2 ^ 32)) at 2 by lia.
    replace (z mod 2 ^ 32 - 2 ^ 32) with (z mod 2 ^ 32 + (-1) * 2 ^ 32) by lia.
    apply Z.mod_add. lia.
Qed.

Lemma to_size_t_small z : 0 <= z < 2 ^ 32 -> C.to_size_t z = z.
Proof. intros H. unfold C.to_size_t. apply Z.mod_small. exact H. Qed.

(** ** The size renderer *)

Lemma human_scale_step x k :
  1024 <= x -> human_scale x k = human_scale (x / 1024) (S k).
Proof.
  intros H. rewrite human_scale_equation_1.
  destruct (Z_le_dec 1024 x); [reflexivity | lia].
Qed.

Lemma human_scale_stop x k : x < 1024 -> human_scale x k = (x, k).
Proof.
  intros H. rewrite human_scale_equation_1.
  destruct (Z_le_dec 1024 x); [lia | reflexivity].
Qed.

(** The loop of the source and the scaling of the specification walk
    together, as long as the value runs out before the suffixes do. *)
Lemma printsize_loop_human_scale rest :
  forall x i k,
    0 <= x < 1024 ^ (Z.of_nat (List.length rest) + 1) ->
    exists y j,
      (j <= List.length rest)%nat /\
      human_scale x k = (y, (k + j)%nat) /\
      printsize_loop rest x i = (y, i + Z.of_nat j) /\
      (j = O <-> x < 1024).
Proof.
  induction rest as [| c rest IH]; intros x i k Hx.
  - simpl in Hx. exists x, O. rewrite human_scale_stop by lia.
    simpl. rewrite Nat.add_0_r, Z.add_0_r. repeat split; auto; lia.
  - cbn [printsize_loop]. destruct (1024 <=? x) eqn:E.
    + apply Z.leb_le in E.
      assert (Hd : 0 <= x / 1024 < 1024 ^ (Z.of_nat (List.length rest) + 1)).
      { split; [apply Z.div_pos; lia |].
        apply Z.div_lt_upper_bound; [lia |].
        cbn [List.length] in Hx.
        replace (Z.of_nat (S (List.length rest)) + 1)
          with (Z.succ (Z.of_nat (List.length rest) + 1)) in Hx by lia.
        rewrite Z.pow_succ_r in Hx by lia. lia. }
      destruct (IH (x / 1024) (i + 1) (S k) Hd) as (y & j & Hj & Hh & Hl & _).
      exists y, (S j). rewrite human_scale_step by lia.
      rewrite Hh, Hl. cbn [List.length].
      split; [lia |]. split; [f_equal; lia |]. split; [f_equal; lia |].
      split; [discriminate | lia].
    + apply Z.leb_gt in E. exists x, O.
      rewrite human_scale_stop by lia.
      rewrite Nat.add_0_r, Z.add_0_r. repeat split; auto; lia.
Qed.

Lemma printsize_spec x t :
  0 <= x < 2 ^ 32 ->
  printsize x t = Ok tt (rendered_size x ++ t) /\
  (x < 1024 <-> snd (human_scale x 0) = O) /\
  (snd (human_scale x 0) <= 3)%nat.
Proof.
  intros Hx.
  assert (Hb : 0 <= x < 1024 ^ (Z.of_nat (List.length flags) + 1))
    by (change (1024 ^ (Z.of_nat (List.length flags) + 1)) with (2 ^ 50); lia).
  destruct (printsize_loop_human_scale flags x 0 O Hb)
    as (y & j & Hj & Hh & Hl & Hz).
  assert (Hj3 : (j <= 3)%nat).
  { destruct (Nat.le_gt_cases j 3) as [H | H]; [exact H | exfalso].
    assert (j = 4%nat) by (change (List.length flags) with 4%nat in Hj; lia).
    subst j.
    assert (Hb' : 0 <= x < 1024 ^ (Z.of_nat (List.length (tl flags)) + 1))
      by (change (1024 ^ (Z.of_nat (List.length (tl flags)) + 1))
            with (2 ^ 40); lia).
    destruct (printsize_loop_human_scale (tl flags) x 0 O Hb')
      as (y' & j' & Hj' & Hh' & _).
    rewrite Hh in Hh'. change (List.length (tl flags)) with 3%nat in Hj'.
    inversion Hh'. lia. }
  unfold printsize, rendered_size, mbind, printf, emit, mret.
  rewrite Hl, Hh. cbn [fst snd Nat.add].
  split; [| split].
  - destruct j as [| j].
    + reflexivity.
    + replace (0 + Z.of_nat (S j) - 1) with (Z.of_nat j) by lia.
      destruct (0 <=? Z.of_nat j) eqn:E; [| apply Z.leb_gt in E; lia].
      rewrite Nat2Z.id. reflexivity.
  - split; intros H; apply Hz; exact H.
  - exact Hj3.
Qed.

(** C8.  For every 32-bit value [x], [printsize] prints the raw count and
    then, only when [x >= 1024], the value divided by 1024 as long as it is
    at least 1024, in parentheses, with the suffix of K, M, G, T that the
    number of divisions selects (at most three divisions, so the suffix
    exists).  512 and 0 print no suffix, 2048 prints 2 with K, 1048576
    prints 1 with M. *)
Theorem printsize_human_scaled :
  (forall x t, 0 <= x < 2 ^ 32 ->
     printsize x t = Ok tt (rendered_size x ++ t) /\
     (x < 1024 <-> snd (human_scale x 0) = O) /\
     (snd (human_scale x 0) <= 3)%nat) /\
  printsize 512 [] = Ok tt [Print Stdout "%u " [AInt 512]] /\
  printsize 2048 [] =
    Ok tt [Print Stdout "(%u%c)" [AInt 2; AChr "K"];
           Print Stdout "%u " [AInt 2048]] /\
  printsize 1048576 [] =
    Ok tt [Print Stdout "(%u%c)" [AInt 1; AChr "M"];
           Print Stdout "%u " [AInt 1048576]] /\
  printsize 0 [] = Ok tt [Print Stdout "%u " [AInt 0]].
Proof.
  split; [exact printsize_spec |].
  repeat split; reflexivity.
Qed.

Lemma printsize_human_scaled_witness :
  0 <= 3221225472 < 2 ^ 32 /\
  printsize 3221225472 [] =
    Ok tt [Print Stdout "(%u%c)" [AInt 3; AChr "G"];
           Print Stdout "%u " [AInt 3221225472]].
Proof.
  split; [lia |].
  apply (proj1 (proj1 printsize_human_scaled 3221225472 [] ltac:(lia))).
Defined.

(** ** Traces *)

Ltac run :=
  cbv [mbind mret call emit printf fprintf perror mfault errmsg_die
       mtd_find_dev_node getmeminfo memerase];
  cbn beta iota.

(** Two spellings of one trace. *)
Ltac trace_eq :=
  repeat match goal with x := _ : list event |- _ => subst x end;
  repeat match goal with x := _ : trace |- _ => subst x end;
  cbn [app]; repeat (rewrite <- app_assoc; cbn [app]); reflexivity.

Lemma mallocs_app a b : mallocs (a ++ b) = mallocs b ++ mallocs a.
Proof.
  induction a as [| e a IH]; cbn [app mallocs].
  - rewrite app_nil_r. reflexivity.
  - destruct e as [c r | | |]; try exact IH.
    destruct c; try exact IH.
    rewrite IH, app_assoc. reflexivity.
Qed.

Lemma loop_event_mallocs l : forallb loop_event l = true -> mallocs l = [].
Proof.
  induction l as [| e l IH]; [reflexivity |].
  cbn [forallb]. intros H. apply andb_prop in H. destruct H as [He Hl].
  destruct e as [c r | s f a | |]; cbn [mallocs]; try (apply IH; exact Hl).
  destruct c; try (apply IH; exact Hl). discriminate He.
Qed.

Lemma loop_event_stdout l :
  forallb loop_event l = true -> filter writes_stdout l = [].
Proof.
  induction l as [| e l IH]; [reflexivity |].
  cbn [forallb filter]. intros H. apply andb_prop in H. destruct H as [He Hl].
  destruct e as [c r | s f a | |]; cbn; try (apply IH; exact Hl).
  destruct s; [discriminate He | apply IH; exact Hl].
Qed.

Lemma existsb_app_l {A} (f : A -> bool) a b :
  existsb f a = true -> existsb f (a ++ b) = true.
Proof. intros H. rewrite existsb_app, H. reflexivity. Qed.

Lemma forallb_weaken {A} (f g : A -> bool) l :
  (forall x, f x = true -> g x = true) ->
  forallb f l = true -> forallb g l = true.
Proof.
  intros Hfg H. rewrite forallb_forall in *. intros x Hx. auto.
Qed.

Lemma filter_nothing {A} (f : A -> bool) l :
  forallb (fun x => negb (f x)) l = true -> filter f l = [].
Proof.
  induction l as [| x l IH]; [reflexivity |].
  cbn [forallb filter]. intros H. apply andb_prop in H. destruct H as [Hx Hl].
  destruct (f x); [discriminate Hx | auto].
Qed.

Lemma alloc_event_silent e : alloc_event e = true -> silent e = true.
Proof.
  destruct e as [c r | s f a | |]; try discriminate.
  - destruct c; try discriminate. reflexivity.
  - destruct s; [discriminate | reflexivity].
Qed.

Lemma silent_stdout l : forallb silent l = true -> filter writes_stdout l = [].
Proof.
  intros H. apply filter_nothing. revert H. apply forallb_weaken.
  intros x Hx. unfold silent in Hx.
  apply andb_prop in Hx. destruct Hx as [Hx _].
  apply andb_prop in Hx. destruct Hx as [Hx _]. exact Hx.
Qed.

Lemma silent_full_transfer l :
  forallb silent l = true -> forallb full_transfer l = true.
Proof.
  apply forallb_weaken. intros x Hx. unfold silent in Hx.
  apply andb_prop in Hx. destruct Hx as [Hx _].
  apply andb_prop in Hx. destruct Hx as [_ Hx]. exact Hx.
Qed.

Lemma silent_fread_ok l : forallb silent l = true -> forallb fread_ok l = true.
Proof.
  apply forallb_weaken. intros x Hx. unfold silent in Hx.
  apply andb_prop in Hx. destruct Hx as [_ Hx]. exact Hx.
Qed.

Lemma alloc_events_silent l :
  forallb alloc_event l = true -> forallb silent l = true.
Proof. apply forallb_weaken. exact alloc_event_silent. Qed.

Lemma to_int_max z : C.to_int z <= C.INT_MAX.
Proof.
  unfold C.to_int, C.INT_MAX.
  pose proof (Z.mod_pos_bound z (2 ^ 32) ltac:(lia)) as H.
  destruct (z mod 2 ^ 32 <? 2 ^ 31) eqn:E;
    [apply Z.ltb_lt in E | apply Z.ltb_ge in E]; lia.
Qed.

(** The count left stays in the range of [int]: at the loop test it is 0,
    or positive and smaller than before. *)
Lemma remaining_in_range size n :
  n <= size \/ 0 < size ->
  let sz := if n <=? size then n else size in
  n - sz = 0 \/ 0 < n - sz < n.
Proof.
  intros H sz. subst sz.
  destruct (n <=? size) eqn:E; [left; lia |].
  apply Z.leb_gt in E. right. lia.
Qed.

(** ** flash_to_file *)

Section Transfers.

Variable os : OS.

(** The body of the read-out loop, step by step. *)
Lemma flash_to_file_body_eq fd outfd buf filename size n t :
  flash_to_file_body os fd outfd buf filename size n t =
  let sz := if n <=? size then n else size in
  let r := os t (Read fd buf (C.to_size_t sz)) in
  let t1 := Sys (Read fd buf (C.to_size_t sz)) r :: t in
  if ret r <? 0 then
    Ok None (Perror "read()"
             :: Print Stderr "%s: read, size %#x, n %#x\n"
                      [AStr "flash_to_file"; AInt sz; AInt n] :: t1)
  else
    let t2 := if ret r <? sz
              then Print Stderr "%s: short read, requested %#x, read %#x\n"
                         [AStr "flash_to_file"; AInt sz; AInt (ret r)] :: t1
              else t1 in
    let w := os t2 (Write outfd buf (C.to_size_t (ret r))) in
    let t3 := Sys (Write outfd buf (C.to_size_t (ret r))) w :: t2 in
    if ret w <? 0 then
      Ok None (Perror "write()"
               :: Print Stderr "%s: write, size %#x, n %#x\n"
                        [AStr "flash_to_file"; AInt sz; AInt n] :: t3)
    else if negb (ret w =? sz) then
      Ok None (Print Stderr
                 "Couldn't copy entire buffer to %s. (%d/%d bytes copied)\n"
                 [AStr filename; AInt (ret w); AInt sz] :: t3)
    else Ok (Some (sz, n - sz)) t3.
Proof.
  unfold flash_to_file_body. run. cbv zeta.
  destruct (ret (os t (Read fd buf _)) <? 0); [reflexivity |].
  destruct (ret (os t (Read fd buf _)) <? _); cbn beta iota;
    repeat match goal with
           | |- context [if ?b then _ else _] => destruct b; cbn beta iota
           end; reflexivity.
Qed.

Lemma full_pass zr zw sz :
  0 <= zr -> 0 <= zw -> zw = sz -> sz <= C.INT_MAX ->
  zr <= C.to_size_t sz -> zw <= C.to_size_t zr ->
  zr = sz /\ C.to_size_t sz = sz /\ C.to_size_t zr = zr.
Proof.
  unfold C.INT_MAX. intros Hr Hw He Hs H1 H2.
  rewrite (to_size_t_small sz) in * by lia.
  rewrite (to_size_t_small zr) in * by lia.
  lia.
Qed.

(** The read-out loop runs to an end within its fuel; it leaves only loop
    events, a diagnostic whenever it fails, and, when reads and writes keep
    their contract, only full transfers whenever it succeeds. *)
Lemma flash_to_file_loop_run fd outfd buf filename fuel :
  forall size n t,
    (n <= size \/ 0 < size) -> (Z.to_nat n < fuel)%nat ->
    exists ok new,
      flash_to_file_loop os fuel fd outfd buf filename size n t
        = Ok ok (new ++ t) /\
      forallb loop_event new = true /\
      (ok = false -> existsb writes_stderr new = true) /\
      (posix_io os -> size <= C.INT_MAX -> n <= C.INT_MAX -> ok = true ->
       forallb full_transfer new = true).
Proof.
  induction fuel as [| fuel IH]; intros size n t Hr Hf; [lia |].
  cbn [flash_to_file_loop]. unfold mbind at 1.
  rewrite flash_to_file_body_eq. cbv zeta.
  set (sz := if n <=? size then n else size).
  set (r := os t (Read fd buf (C.to_size_t sz))).
  set (t1 := Sys (Read fd buf (C.to_size_t sz)) r :: t).
  destruct (ret r <? 0) eqn:E1.
  { exists false, [Perror "read()";
                   Print Stderr "%s: read, size %#x, n %#x\n"
                         [AStr "flash_to_file"; AInt sz; AInt n];
                   Sys (Read fd buf (C.to_size_t sz)) r].
    repeat split; try reflexivity. intros; discriminate. }
  set (diag := Print Stderr "%s: short read, requested %#x, read %#x\n"
                     [AStr "flash_to_file"; AInt sz; AInt (ret r)]).
  set (t2 := if ret r <? sz then diag :: t1 else t1).
  assert (Ht2 : exists d, t2 = d ++ t1 /\ forallb loop_event d = true /\
                          ((ret r <? sz) = false -> d = [])).
  { subst t2. destruct (ret r <? sz).
    - exists [diag]. repeat split; try reflexivity. discriminate.
    - exists []. repeat split; reflexivity. }
  destruct Ht2 as (d & Hd & Hdl & Hdn). rewrite Hd. clear Hd t2.
  set (t2 := d ++ t1).
  set (w := os t2 (Write outfd buf (C.to_size_t (ret r)))).
  set (ew := Sys (Write outfd buf (C.to_size_t (ret r))) w).
  destruct (ret w <? 0) eqn:E3.
  { exists false, ([Perror "write()";
                    Print Stderr "%s: write, size %#x, n %#x\n"
                          [AStr "flash_to_file"; AInt sz; AInt n]; ew]
                   ++ d ++ [Sys (Read fd buf (C.to_size_t sz)) r]).
    split; [trace_eq |].
    split; [| split; [reflexivity | intros; discriminate]].
    cbn [app forallb loop_event ew andb].
    rewrite forallb_app, Hdl. reflexivity. }
  destruct (ret w =? sz) eqn:E4; cbn [negb].
  2:{ exists false, ([Print Stderr
                       "Couldn't copy entire buffer to %s. (%d/%d bytes copied)\n"
                       [AStr filename; AInt (ret w); AInt sz]; ew]
                     ++ d ++ [Sys (Read fd buf (C.to_size_t sz)) r]).
      split; [trace_eq |].
      split; [| split; [reflexivity | intros; discriminate]].
      cbn [app forallb loop_event ew andb].
      rewrite forallb_app, Hdl. reflexivity. }
  apply Z.ltb_ge in E1, E3. apply Z.eqb_eq in E4.
  assert (Hfull : posix_io os -> sz <= C.INT_MAX ->
                  forallb full_transfer
                    (ew :: d ++ [Sys (Read fd buf (C.to_size_t sz)) r]) = true).
  { intros Hp Hs.
    pose proof (proj1 Hp t fd buf (C.to_size_t sz)) as Hpr. fold r in Hpr.
    pose proof (proj2 Hp t2 outfd buf (C.to_size_t (ret r))) as Hpw.
    fold w in Hpw.
    destruct (full_pass (ret r) (ret w) sz E1 E3 E4 Hs Hpr Hpw)
      as (Hrs & Hss & Hrr).
    rewrite Hdn by (apply Z.ltb_ge; lia).
    cbn [app forallb full_transfer ew]. rewrite Hrr, Hss, Hrs.
    fold w. rewrite E4, !Z.eqb_refl. reflexivity. }
  assert (Hsz : sz <= C.INT_MAX \/ ~ (size <= C.INT_MAX /\ n <= C.INT_MAX))
    by (subst sz; destruct (n <=? size); lia).
  destruct (n - sz >? 0) eqn:E5.
  - assert (Hn : 0 < n - sz) by (apply Z.gtb_lt in E5; lia).
    assert (Hsz' : sz = size /\ 0 < size).
    { subst sz. destruct (n <=? size) eqn:E6; [lia |].
      apply Z.leb_gt in E6. lia. }
    destruct Hsz' as [Hsz1 Hsz2].
    destruct (IH sz (n - sz) (ew :: t2)) as (ok & new & Hrun & Hev & Herr & Hft);
      [lia | lia |].
    exists ok, (new ++ ew :: d ++ [Sys (Read fd buf (C.to_size_t sz)) r]).
    split; [etransitivity; [exact Hrun | trace_eq] |].
    split; [| split].
    + rewrite forallb_app, Hev. cbn [forallb loop_event ew andb].
      rewrite forallb_app, Hdl. reflexivity.
    + intros H. apply existsb_app_l. apply Herr. exact H.
    + intros Hp H1 H2 H3. rewrite forallb_app.
      rewrite Hft by (auto; lia). apply Hfull; [exact Hp | lia].
  - exists true, (ew :: d ++ [Sys (Read fd buf (C.to_size_t sz)) r]).
    unfold mret.
    split; [trace_eq |].
    split; [| split; [discriminate |]].
    + cbn [forallb loop_event ew andb]. rewrite forallb_app, Hdl. reflexivity.
    + intros Hp H1 H2 _. apply Hfull; [exact Hp | lia].
Qed.

Ltac alloc_cases size t r1 r2 E1 E2 E3 :=
  intros size t; cbn [flash_to_file_alloc file_to_flash_alloc]; run;
  set (r1 := os t (Malloc (C.to_size_t size)));
  destruct (ret r1 =? 0) eqn:E1;
  [ apply Z.eqb_eq in E1;
    destruct (C.to_size_t size =? BUF_SIZE) eqn:E2; cbn [negb];
    [ apply Z.eqb_eq in E2;
      exists (ret r1), size; eexists [_; _]; cbn [app];
      split; [reflexivity |]; split; [reflexivity |];
      split; [left; reflexivity |]; split; [reflexivity |];
      right; left; cbn [mallocs app]; rewrite E1; auto
    | apply Z.eqb_neq in E2;
      change (C.to_size_t BUF_SIZE =? BUF_SIZE) with true; cbn [negb];
      match goal with
      | |- context [os ?t2 (Malloc (C.to_size_t BUF_SIZE))] =>
        set (r2 := os t2 (Malloc (C.to_size_t BUF_SIZE)))
      end;
      destruct (ret r2 =? 0) eqn:E3;
      [ exists (ret r2), BUF_SIZE; eexists [_; _; _; _; _]
      | exists (ret r2), BUF_SIZE; eexists [_; _; _; _] ];
      cbn [app];
      (split; [reflexivity |]; split; [reflexivity |];
       split; [right; reflexivity |]; split; [reflexivity |];
       right; right; cbn [mallocs app]; rewrite E1;
       change (C.to_size_t BUF_SIZE) with BUF_SIZE; auto) ]
  | apply Z.eqb_neq in E1;
    exists (ret r1), size; eexists [_]; cbn [app];
    split; [reflexivity |]; split; [reflexivity |];
    split; [left; reflexivity |]; split; [intros H; contradiction |];
    left; cbn [mallocs app]; auto ].

Lemma flash_to_file_alloc_run : alloc_run (flash_to_file_alloc os).
Proof. alloc_cases size t r1 r2 E1 E2 E3. Qed.

Lemma file_to_flash_alloc_run : alloc_run (file_to_flash_alloc os).
Proof. alloc_cases size t r1 r2 E1 E2 E3. Qed.

(** A whole read-out, from [lseek] to the summary or the [fail:] block. *)
Lemma flash_to_file_run fd offset len filename t :
  exists r new,
    flash_to_file os fd offset len filename t = Ok r (new ++ t) /\
    (r = 0 \/ r = 1) /\
    alloc_trail (C.to_size_t len) r new /\
    (r = 0 ->
     filter writes_stdout new =
       [Print Stdout "Copied %zu bytes from address 0x%.8llx in flash to %s\n"
              [AInt len; AInt offset; AStr filename]]) /\
    (r = 1 -> filter writes_stdout new = [] /\
              existsb writes_stderr new = true) /\
    (posix_io os -> r = 0 -> forallb full_transfer new = true).
Proof.
  unfold flash_to_file. run. cbv zeta. rewrite Z.mul_1_r.
  set (l := os t (Lseek fd offset)).
  destruct (offset =? ret l); cbn [negb].
  2:{ exists 1; eexists [_; _]; cbn [app].
      split; [reflexivity |]. split; [right; reflexivity |].
      split; [left; split; reflexivity |].
      split; [discriminate |]. split; [| discriminate].
      intros _. split; reflexivity. }
  set (c := os _ (Creat filename 438)).
  destruct (ret c <? 0).
  { exists 1; eexists [_; _; _]; cbn [app].
    split; [reflexivity |]. split; [right; reflexivity |].
    split; [left; split; reflexivity |].
    split; [discriminate |]. split; [| discriminate].
    intros _. split; reflexivity. }
  set (t2 := Sys (Creat filename 438) c :: Sys (Lseek fd offset) l :: t).
  destruct (flash_to_file_alloc_run (C.to_int len) t2)
    as (buf & size & anew & Ha & Hae & Hsize & Hastderr & Hamall).
  rewrite Ha. rewrite to_size_t_to_int in Hamall.
  pose proof (alloc_events_silent _ Hae) as Has.
  pose proof (loop_event_mallocs) as Hlm.
  destruct (buf =? 0) eqn:Eb.
  { apply Z.eqb_eq in Eb.
    exists 1.
    eexists ([_; _; _] ++ anew ++ [Sys (Creat filename 438) c;
                                   Sys (Lseek fd offset) l]).
    split; [trace_eq |]. split; [right; reflexivity |].
    split; [| split; [discriminate | split; [| discriminate]]].
    - unfold alloc_trail. rewrite !mallocs_app. cbn [mallocs app].
      rewrite app_nil_r.
      destruct Hamall as [[H _] | [(_ & H1 & H2) | (H1 & H2)]];
        [contradiction | |].
      + right; right; left. rewrite H2, H1.
        repeat split; try reflexivity. cbn [app]. right; right; left.
        reflexivity.
      + right; right; right. split; [exact H1 |]. exists buf.
        rewrite H2. split; [reflexivity |]. intros _.
        split; [reflexivity |]. cbn [app]. right; right; left. reflexivity.
    - intros _. split.
      + cbn [app filter writes_stdout stream_of]. rewrite filter_app.
        rewrite (silent_stdout _ Has). reflexivity.
      + reflexivity. }
  apply Z.eqb_neq in Eb.
  destruct (flash_to_file_loop_run fd (ret c) buf filename
              (S (Z.to_nat (C.to_int len))) size (C.to_int len) (anew ++ t2))
    as (ok & lnew & Hl & Hle & Hlerr & Hlfull);
    [destruct Hsize as [-> | ->]; [left; lia | right; reflexivity] | lia |].
  rewrite Hl.
  assert (Hmall : forall tail,
             mallocs tail = [] ->
             alloc_trail (C.to_size_t len) (if ok then 0 else 1)
               (tail ++ lnew ++ anew ++ [Sys (Creat filename 438) c;
                                        Sys (Lseek fd offset) l])).
  { intros tail Htail. unfold alloc_trail. rewrite !mallocs_app.
    cbn [mallocs app]. rewrite Htail, (Hlm _ Hle), !app_nil_r.
    destruct Hamall as [[_ H] | [(H & _) | (H1 & H2)]];
      [| contradiction |].
    - right; left. exists buf. auto.
    - right; right; right. split; [exact H1 |]. exists buf.
      split; [exact H2 | intros; contradiction]. }
  assert (Hsize' : size <= C.INT_MAX)
    by (destruct Hsize as [-> | ->]; [apply to_int_max | unfold C.INT_MAX, BUF_SIZE; lia]).
  destruct ok.
  - cbn [negb]. exists 0.
    eexists ([_; _; _] ++ lnew ++ anew ++ [Sys (Creat filename 438) c;
                                           Sys (Lseek fd offset) l]).
    split; [trace_eq |]. split; [left; reflexivity |].
    split; [apply (Hmall [_; _; _]); reflexivity |].
    split; [| split; [discriminate |]].
    + intros _. cbn [app filter writes_stdout stream_of].
      rewrite !filter_app, (loop_event_stdout _ Hle), (silent_stdout _ Has).
      reflexivity.
    + intros Hp _. cbn [app forallb full_transfer andb].
      rewrite !forallb_app, (silent_full_transfer _ Has).
      rewrite Hlfull by (auto using to_int_max). reflexivity.
  - exists 1.
    eexists ([_; _] ++ lnew ++ anew ++ [Sys (Creat filename 438) c;
                                        Sys (Lseek fd offset) l]).
    split; [trace_eq |]. split; [right; reflexivity |].
    split; [apply (Hmall [_; _]); reflexivity |].
    split; [discriminate | split; [| discriminate]].
    intros _. split.
    + cbn [app filter writes_stdout stream_of].
      rewrite !filter_app, (loop_event_stdout _ Hle), (silent_stdout _ Has).
      reflexivity.
    + cbn [app existsb writes_stderr stream_of orb].
      apply existsb_app_l. apply Hlerr. reflexivity.
Qed.

(** The allocation requests of a read-out: none when [lseek] or [creat]
    fails, and otherwise those of the [retry:] block, the loop and the
    releases adding none. *)
Lemma flash_to_file_requests fd offset len filename t :
  exists r new,
    flash_to_file os fd offset len filename t = Ok r (new ++ t) /\
    (ret (os t (Lseek fd offset)) <> offset \/
     ret (os (Sys (Lseek fd offset) (os t (Lseek fd offset)) :: t)
             (Creat filename 438)) < 0 ->
     mallocs new = [] /\ r = 1) /\
    (ret (os t (Lseek fd offset)) = offset ->
     0 <= ret (os (Sys (Lseek fd offset) (os t (Lseek fd offset)) :: t)
                  (Creat filename 438)) ->
     alloc_requests (C.to_size_t len) r new).
Proof.
  unfold flash_to_file. run. cbv zeta. rewrite Z.mul_1_r.
  set (l := os t (Lseek fd offset)).
  destruct (offset =? ret l) eqn:El; cbn [negb].
  2:{ apply Z.eqb_neq in El. exists 1; eexists [_; _]; cbn [app].
      split; [reflexivity |].
      split; [intros _; split; reflexivity | intros H; lia]. }
  apply Z.eqb_eq in El.
  set (c := os _ (Creat filename 438)).
  destruct (ret c <? 0) eqn:Ec.
  { apply Z.ltb_lt in Ec. exists 1; eexists [_; _; _]; cbn [app].
    split; [reflexivity |].
    split; [intros _; split; reflexivity | intros _ H; lia]. }
  apply Z.ltb_ge in Ec.
  set (t2 := Sys (Creat filename 438) c :: Sys (Lseek fd offset) l :: t).
  set (base := [Sys (Creat filename 438) c; Sys (Lseek fd offset) l]).
  destruct (flash_to_file_alloc_run (C.to_int len) t2)
    as (buf & size & anew & Ha & Hae & Hsize & Hastderr & Hamall).
  rewrite Ha. rewrite to_size_t_to_int in Hamall.
  destruct (buf =? 0) eqn:Eb.
  { apply Z.eqb_eq in Eb.
    exists 1. eexists ([_; _; _] ++ anew ++ base).
    split; [trace_eq |]. split; [intros [H | H]; lia |]. intros _ _.
    unfold alloc_requests. rewrite !mallocs_app. cbn [mallocs app base].
    rewrite app_nil_r.
    destruct Hamall as [[H _] | [(_ & H1 & H2) | (H1 & H2)]];
      [contradiction | |].
    - right; left. rewrite H2, H1.
      repeat split; try reflexivity. cbn [app]. right; right; left.
      reflexivity.
    - right; right. split; [exact H1 |]. exists buf.
      rewrite H2. split; [reflexivity |]. intros _.
      split; [reflexivity |]. cbn [app]. right; right; left. reflexivity. }
  apply Z.eqb_neq in Eb.
  destruct (flash_to_file_loop_run fd (ret c) buf filename
              (S (Z.to_nat (C.to_int len))) size (C.to_int len) (anew ++ t2))
    as (ok & lnew & Hl & Hle & _);
    [destruct Hsize as [-> | ->]; [left; lia | right; reflexivity] | lia |].
  rewrite Hl.
  assert (Hmall : forall r tail,
             mallocs tail = [] ->
             alloc_requests (C.to_size_t len) r (tail ++ lnew ++ anew ++ base)).
  { intros r tail Htail. unfold alloc_requests. rewrite !mallocs_app.
    cbn [mallocs app base]. rewrite Htail, (loop_event_mallocs _ Hle), !app_nil_r.
    destruct Hamall as [[_ H] | [(H & _) | (H1 & H2)]];
      [| contradiction |].
    - left. exists buf. auto.
    - right; right. split; [exact H1 |]. exists buf.
      split; [exact H2 | intros; contradiction]. }
  destruct ok.
  - cbn [negb]. exists 0. eexists ([_; _; _] ++ lnew ++ anew ++ base).
    split; [trace_eq |]. split; [intros [H | H]; lia |]. intros _ _.
    apply (Hmall 0 [_; _; _]). reflexivity.
  - exists 1. eexists ([_; _] ++ lnew ++ anew ++ base).
    split; [trace_eq |]. split; [intros [H | H]; lia |]. intros _ _.
    apply (Hmall 1 [_; _]). reflexivity.
Qed.

(** ** file_to_flash *)

Lemma stopped_at_fread_app new more :
  stopped_at_fread new -> forallb fread_ok more = true ->
  stopped_at_fread (new ++ more).
Proof.
  intros (post & ef & prev & -> & Hef & Hpost & Hnw & Hin & Hprev) Hmore.
  exists post, ef, (prev ++ more).
  split; [rewrite <- app_assoc; reflexivity |].
  repeat split; auto. rewrite forallb_app, Hprev, Hmore. reflexivity.
Qed.

(** The body of the write-in loop, step by step. *)
Lemma file_to_flash_body_eq fd buf fp size n t :
  file_to_flash_body os fd buf fp size n t =
  let sz := if n <=? size then n else size in
  let r := os t (Fread buf (C.to_size_t sz) 1 fp) in
  let t1 := Sys (Fread buf (C.to_size_t sz) 1 fp) r :: t in
  let bail (tag : string) (fmt : string) (t : trace) :=
    let t := Perror tag
             :: Print Stderr fmt [AStr "file_to_flash"; AInt sz; AInt n]
             :: t in
    let t := Sys (Free buf) (os t (Free buf)) :: t in
    Ok None (Sys (Fclose fp) (os t (Fclose fp)) :: t) in
  if negb (ret r =? 1) then
    bail "fread()" "%s: fread, size %#x, n %#x\n" t1
  else
    let e := os t1 (Ferror fp) in
    let t2 := Sys (Ferror fp) e :: t1 in
    if negb (ret e =? 0) then
      bail "fread()" "%s: fread, size %#x, n %#x\n" t2
    else
      let w := os t2 (Write fd buf (C.to_size_t sz)) in
      let t3 := Sys (Write fd buf (C.to_size_t sz)) w :: t2 in
      if ret w <? 0 then
        bail "write()" "%s: write, size %#x, n %#x\n" t3
      else Ok (Some (sz, n - sz)) t3.
Proof.
  unfold file_to_flash_body. run. cbv zeta.
  destruct (ret (os t (Fread buf _ 1 fp)) =? 1); cbn [negb];
    [| reflexivity].
  match goal with
  | |- context [negb (ret ?e =? 0)] => destruct (ret e =? 0)
  end; cbn [negb]; [| reflexivity].
  match goal with
  | |- context [ret ?w <? 0] => destruct (ret w <? 0)
  end; reflexivity.
Qed.

Lemma file_to_flash_loop_run fd buf fp fuel :
  forall size n t,
    (n <= size \/ 0 < size) -> (Z.to_nat n < fuel)%nat ->
    exists ok new,
      file_to_flash_loop os fuel fd buf fp size n t = Ok ok (new ++ t) /\
      forallb loop_event new = true /\
      (ok = false -> existsb writes_stderr new = true) /\
      (forallb fread_ok new = true \/
       (ok = false /\ stopped_at_fread new)).
Proof.
  induction fuel as [| fuel IH]; intros size n t Hr Hf; [lia |].
  cbn [file_to_flash_loop]. unfold mbind at 1.
  rewrite file_to_flash_body_eq. cbv zeta.
  set (sz := if n <=? size then n else size).
  set (r := os t (Fread buf (C.to_size_t sz) 1 fp)).
  set (ef := Sys (Fread buf (C.to_size_t sz) 1 fp) r).
  destruct (ret r =? 1) eqn:E1; cbn [negb].
  2:{ exists false. eexists [_; _; _; _; ef]. cbn [app].
      split; [reflexivity |]. split; [reflexivity |].
      split; [reflexivity |]. right. split; [reflexivity |].
      eexists [_; _; _; _], ef, []. cbn [app].
      split; [reflexivity |]. cbn [fread_ok ef]. rewrite E1.
      repeat split; try reflexivity. right; right; left. reflexivity. }
  set (e := os (ef :: t) (Ferror fp)).
  destruct (ret e =? 0) eqn:E2; cbn [negb].
  2:{ exists false. eexists [_; _; _; _; _; ef]. cbn [app].
      split; [reflexivity |]. split; [reflexivity |].
      split; [reflexivity |]. left.
      cbn [forallb fread_ok ef andb]. rewrite E1. reflexivity. }
  set (w := os (Sys (Ferror fp) e :: ef :: t) (Write fd buf (C.to_size_t sz))).
  set (ew := Sys (Write fd buf (C.to_size_t sz)) w).
  destruct (ret w <? 0) eqn:E3.
  { exists false. eexists [_; _; _; _; ew; _; ef]. cbn [app].
    split; [reflexivity |]. split; [reflexivity |].
    split; [reflexivity |]. left.
    cbn [forallb fread_ok ef ew andb]. rewrite E1. reflexivity. }
  apply Z.ltb_ge in E3.
  destruct (n - sz >? 0) eqn:E5.
  - assert (Hn : 0 < n - sz) by (apply Z.gtb_lt in E5; lia).
    assert (Hsz' : sz = size /\ 0 < size).
    { subst sz. destruct (n <=? size) eqn:E6; [lia |].
      apply Z.leb_gt in E6. lia. }
    destruct Hsz' as [Hsz1 Hsz2].
    destruct (IH sz (n - sz) (ew :: Sys (Ferror fp) e :: ef :: t))
      as (ok & new & Hrun & Hev & Herr & Hshape); [lia | lia |].
    exists ok, (new ++ [ew; Sys (Ferror fp) e; ef]).
    split; [etransitivity; [exact Hrun | trace_eq] |].
    split; [| split].
    + rewrite forallb_app, Hev. reflexivity.
    + intros H. apply existsb_app_l. apply Herr. exact H.
    + assert (Hb : forallb fread_ok [ew; Sys (Ferror fp) e; ef] = true)
        by (cbn [forallb fread_ok ef ew andb]; rewrite E1; reflexivity).
      destruct Hshape as [H | [H1 H2]].
      * left. rewrite forallb_app, H, Hb. reflexivity.
      * right. split; [exact H1 |].
        apply stopped_at_fread_app; assumption.
  - exists true, [ew; Sys (Ferror fp) e; ef]. unfold mret. cbn [app].
    split; [reflexivity |]. split; [reflexivity |].
    split; [discriminate |]. left.
    cbn [forallb fread_ok ef ew andb]. rewrite E1. reflexivity.
Qed.

(** A whole write-in, from [lseek] to the summary or to [return 1]. *)
Lemma file_to_flash_run fd offset len filename t :
  exists r new,
    file_to_flash os fd offset len filename t = Ok r (new ++ t) /\
    (r = 0 \/ r = 1) /\
    alloc_trail (C.to_size_t len) r new /\
    (r = 0 ->
     filter writes_stdout new =
       [Print Stdout "Copied %d bytes from %s to address 0x%.8llx in flash\n"
              [AInt len; AStr filename; AInt offset]]) /\
    (r = 1 -> filter writes_stdout new = [] /\
              existsb writes_stderr new = true) /\
    (forallb fread_ok new = true \/ (r = 1 /\ stopped_at_fread new)).
Proof.
  unfold file_to_flash. run. cbv zeta. rewrite Z.mul_1_r.
  set (l := os t (Lseek fd offset)).
  destruct (offset =? ret l); cbn [negb].
  2:{ exists 1; eexists [_; _]; cbn [app].
      split; [reflexivity |]. split; [right; reflexivity |].
      split; [left; split; reflexivity |].
      split; [discriminate |]. split; [| left; reflexivity].
      intros _. split; reflexivity. }
  set (c := os _ (Fopen filename "r")).
  destruct (ret c =? 0).
  { exists 1; eexists [_; _; _]; cbn [app].
    split; [reflexivity |]. split; [right; reflexivity |].
    split; [left; split; reflexivity |].
    split; [discriminate |]. split; [| left; reflexivity].
    intros _. split; reflexivity. }
  set (t2 := Sys (Fopen filename "r") c :: Sys (Lseek fd offset) l :: t).
  set (base := [Sys (Fopen filename "r") c; Sys (Lseek fd offset) l]).
  destruct (file_to_flash_alloc_run (C.to_int len) t2)
    as (buf & size & anew & Ha & Hae & Hsize & Hastderr & Hamall).
  rewrite Ha. rewrite to_size_t_to_int in Hamall.
  pose proof (alloc_events_silent _ Hae) as Has.
  pose proof (loop_event_mallocs) as Hlm.
  destruct (buf =? 0) eqn:Eb.
  { apply Z.eqb_eq in Eb.
    exists 1. eexists ([_; _] ++ anew ++ base).
    split; [trace_eq |]. split; [right; reflexivity |].
    split; [| split; [discriminate | split]].
    - unfold alloc_trail. rewrite !mallocs_app. cbn [mallocs app base].
      rewrite app_nil_r.
      destruct Hamall as [[H _] | [(_ & H1 & H2) | (H1 & H2)]];
        [contradiction | |].
      + right; right; left. rewrite H2, H1.
        repeat split; try reflexivity. cbn [app]. right; left. reflexivity.
      + right; right; right. split; [exact H1 |]. exists buf.
        rewrite H2. split; [reflexivity |]. intros _.
        split; [reflexivity |]. cbn [app]. right; left. reflexivity.
    - intros _. split.
      + cbn [app filter writes_stdout stream_of]. rewrite filter_app.
        rewrite (silent_stdout _ Has). reflexivity.
      + reflexivity.
    - left. cbn [app forallb fread_ok andb].
      rewrite forallb_app, (silent_fread_ok _ Has). reflexivity. }
  apply Z.eqb_neq in Eb.
  destruct (file_to_flash_loop_run fd buf (ret c)
              (S (Z.to_nat (C.to_int len))) size (C.to_int len) (anew ++ t2))
    as (ok & lnew & Hl & Hle & Hlerr & Hshape);
    [destruct Hsize as [-> | ->]; [left; lia | right; reflexivity] | lia |].
  rewrite Hl.
  assert (Hmall : forall tail,
             mallocs tail = [] ->
             alloc_trail (C.to_size_t len) (if ok then 0 else 1)
               (tail ++ lnew ++ anew ++ base)).
  { intros tail Htail. unfold alloc_trail. rewrite !mallocs_app.
    cbn [mallocs app base]. rewrite Htail, (Hlm _ Hle), !app_nil_r.
    destruct Hamall as [[_ H] | [(H & _) | (H1 & H2)]];
      [| contradiction |].
    - right; left. exists buf. auto.
    - right; right; right. split; [exact H1 |]. exists buf.
      split; [exact H2 | intros; contradiction]. }
  assert (Hrest : forallb fread_ok (anew ++ base) = true)
    by (rewrite forallb_app, (silent_fread_ok _ Has); reflexivity).
  destruct ok.
  - cbn [negb]. exists 0. eexists ([_; _; _] ++ lnew ++ anew ++ base).
    split; [trace_eq |]. split; [left; reflexivity |].
    split; [apply (Hmall [_; _; _]); reflexivity |].
    split; [| split; [discriminate |]].
    + intros _. cbn [app filter writes_stdout stream_of].
      rewrite !filter_app, (loop_event_stdout _ Hle), (silent_stdout _ Has).
      reflexivity.
    + left. destruct Hshape as [H | [H _]]; [| discriminate H].
      cbn [app forallb fread_ok andb]. rewrite forallb_app, H. exact Hrest.
  - exists 1. exists (lnew ++ anew ++ base).
    split; [trace_eq |]. split; [right; reflexivity |].
    split; [apply (Hmall []); reflexivity |].
    split; [discriminate | split].
    + intros _. split.
      * rewrite !filter_app, (loop_event_stdout _ Hle), (silent_stdout _ Has).
        reflexivity.
      * apply existsb_app_l. apply Hlerr. reflexivity.
    + destruct Hshape as [H | [_ H]].
      * left. rewrite forallb_app, H. exact Hrest.
      * right. split; [reflexivity |].
        apply stopped_at_fread_app; assumption.
Qed.

(** The allocation requests of a write-in: none when [lseek] or [fopen]
    fails, and otherwise those of the [retry:] block. *)
Lemma file_to_flash_requests fd offset len filename t :
  exists r new,
    file_to_flash os fd offset len filename t = Ok r (new ++ t) /\
    (ret (os t (Lseek fd offset)) <> offset \/
     ret (os (Sys (Lseek fd offset) (os t (Lseek fd offset)) :: t)
             (Fopen filename "r")) = 0 ->
     mallocs new = [] /\ r = 1) /\
    (ret (os t (Lseek fd offset)) = offset ->
     ret (os (Sys (Lseek fd offset) (os t (Lseek fd offset)) :: t)
             (Fopen filename "r")) <> 0 ->
     alloc_requests (C.to_size_t len) r new).
Proof.
  unfold file_to_flash. run. cbv zeta. rewrite Z.mul_1_r.
  set (l := os t (Lseek fd offset)).
  destruct (offset =? ret l) eqn:El; cbn [negb].
  2:{ apply Z.eqb_neq in El. exists 1; eexists [_; _]; cbn [app].
      split; [reflexivity |].
      split; [intros _; split; reflexivity | intros H; lia]. }
  apply Z.eqb_eq in El.
  set (c := os _ (Fopen filename "r")).
  destruct (ret c =? 0) eqn:Ec.
  { apply Z.eqb_eq in Ec. exists 1; eexists [_; _; _]; cbn [app].
    split; [reflexivity |].
    split; [intros _; split; reflexivity | intros _ H; contradiction]. }
  apply Z.eqb_neq in Ec.
  set (t2 := Sys (Fopen filename "r") c :: Sys (Lseek fd offset) l :: t).
  set (base := [Sys (Fopen filename "r") c; Sys (Lseek fd offset) l]).
  destruct (file_to_flash_alloc_run (C.to_int len) t2)
    as (buf & size & anew & Ha & Hae & Hsize & Hastderr & Hamall).
  rewrite Ha. rewrite to_size_t_to_int in Hamall.
  destruct (buf =? 0) eqn:Eb.
  { apply Z.eqb_eq in Eb.
    exists 1. eexists ([_; _] ++ anew ++ base).
    split; [trace_eq |].
    split; [intros [H | H]; [lia | contradiction] |]. intros _ _.
    unfold alloc_requests. rewrite !mallocs_app. cbn [mallocs app base].
    rewrite app_nil_r.
    destruct Hamall as [[H _] | [(_ & H1 & H2) | (H1 & H2)]];
      [contradiction | |].
    - right; left. rewrite H2, H1.
      repeat split; try reflexivity. cbn [app]. right; left. reflexivity.
    - right; right. split; [exact H1 |]. exists buf.
      rewrite H2. split; [reflexivity |]. intros _.
      split; [reflexivity |]. cbn [app]. right; left. reflexivity. }
  apply Z.eqb_neq in Eb.
  destruct (file_to_flash_loop_run fd buf (ret c)
              (S (Z.to_nat (C.to_int len))) size (C.to_int len) (anew ++ t2))
    as (ok & lnew & Hl & Hle & _);
    [destruct Hsize as [-> | ->]; [left; lia | right; reflexivity] | lia |].
  rewrite Hl.
  assert (Hmall : forall r tail,
             mallocs tail = [] ->
             alloc_requests (C.to_size_t len) r (tail ++ lnew ++ anew ++ base)).
  { intros r tail Htail. unfold alloc_requests. rewrite !mallocs_app.
    cbn [mallocs app base]. rewrite Htail, (loop_event_mallocs _ Hle), !app_nil_r.
    destruct Hamall as [[_ H] | [(H & _) | (H1 & H2)]];
      [| contradiction |].
    - left. exists buf. auto.
    - right; right. split; [exact H1 |]. exists buf.
      split; [exact H2 | intros; contradiction]. }
  destruct ok.
  - cbn [negb]. exists 0. eexists ([_; _; _] ++ lnew ++ anew ++ base).
    split; [trace_eq |].
    split; [intros [H | H]; [lia | contradiction] |]. intros _ _.
    apply (Hmall 0 [_; _; _]). reflexivity.
  - exists 1. exists (lnew ++ anew ++ base).
    split; [trace_eq |].
    split; [intros [H | H]; [lia | contradiction] |]. intros _ _.
    apply (Hmall 1 []). reflexivity.
Qed.

End Transfers.

(** ** The claims about the bulk transfers *)

(** The pass of the write-in loop goes on to the loop test whatever count
    a successful [write] reports: the count is compared with nothing. *)
Lemma file_to_flash_body_accepts_any_count os fd buf fp size n t :
  let sz := if n <=? size then n else size in
  let ef := Sys (Fread buf (C.to_size_t sz) 1 fp)
                (os t (Fread buf (C.to_size_t sz) 1 fp)) in
  let ee := Sys (Ferror fp) (os (ef :: t) (Ferror fp)) in
  let w := os (ee :: ef :: t) (Write fd buf (C.to_size_t sz)) in
  ret (os t (Fread buf (C.to_size_t sz) 1 fp)) = 1 ->
  ret (os (ef :: t) (Ferror fp)) = 0 ->
  0 <= ret w ->
  file_to_flash_body os fd buf fp size n t =
  Ok (Some (sz, n - sz))
     (Sys (Write fd buf (C.to_size_t sz)) w :: ee :: ef :: t).
Proof.
  intros sz ef ee w Hr He Hw. rewrite file_to_flash_body_eq. cbv zeta.
  fold sz. rewrite Hr. cbn [Z.eqb negb Pos.eqb]. fold ef. rewrite He.
  cbn [Z.eqb negb]. fold ee. fold w.
  rewrite (proj2 (Z.ltb_ge _ _) Hw). reflexivity.
Qed.

(** C1, at the failing input.  Write-in of 4 bytes to a device that accepts
    2 bytes of the 4 it is handed: [file_to_flash] tests the result of
    [write] for a negative value only, so the short write goes unnoticed and
    the transfer reports success.  The read-out direction does compare
    ([flash_to_file_body]: [err != size]). *)
Theorem file_to_flash_short_write_unnoticed :
  file_to_flash os_short_device_write 3 0 4 "img" [] =
  Ok 0
     [Print Stdout "Copied %d bytes from %s to address 0x%.8llx in flash\n"
            [AInt 4; AStr "img"; AInt 0];
      Sys (Fclose 4096) (answer 0);
      Sys (Free 8192) (answer 0);
      Sys (Write 3 8192 4) (answer 2);
      Sys (Ferror 4096) (answer 0);
      Sys (Fread 8192 4 1 4096) (answer 1);
      Sys (Malloc 4) (answer 8192);
      Sys (Fopen "img" "r") (answer 4096);
      Sys (Lseek 3 0) (answer 0)].
Proof. vm_compute. reflexivity. Qed.

(** The read-out direction on the same fault: a file that takes 2 bytes of
    4 stops the transfer with an error and no further write. *)
Lemma flash_to_file_short_write_detected :
  flash_to_file
    (override (fun c => match c with
                        | Write 4 _ count => Some (answer (count / 2))
                        | _ => None
                        end) os_ok) 3 0 4 "img" [] =
  Ok 1
     [Sys (Free 8192) (answer 0);
      Sys (Close 4) (answer 0);
      Print Stderr "Couldn't copy entire buffer to %s. (%d/%d bytes copied)\n"
            [AStr "img"; AInt 2; AInt 4];
      Sys (Write 4 8192 4) (answer 2);
      Sys (Read 3 8192 4) (answer 4);
      Sys (Malloc 4) (answer 8192);
      Sys (Creat "img" 438) (answer 4);
      Sys (Lseek 3 0) (answer 0)].
Proof. vm_compute. reflexivity. Qed.

(** C2 as stated fails: the device hands out 2 of the 4 bytes asked for, 2
    bytes are written, and the pass ends in [goto fail]; the loop does not go
    on with the remaining count decremented by 4. *)
Lemma short_read_does_not_continue :
  flash_to_file_body os_short_device_read 3 4 8192 "img" 4 4 [] =
    Ok None
       [Print Stderr
              "Couldn't copy entire buffer to %s. (%d/%d bytes copied)\n"
              [AStr "img"; AInt 2; AInt 4];
        Sys (Write 4 8192 2) (answer 2);
        Print Stderr "%s: short read, requested %#x, read %#x\n"
              [AStr "flash_to_file"; AInt 4; AInt 2];
        Sys (Read 3 8192 4) (answer 2)] /\
  (forall t, flash_to_file_body os_short_device_read 3 4 8192 "img" 4 4 []
             <> Ok (Some (4, 4 - 4)) t) /\
  (exists t, flash_to_file os_short_device_read 3 0 4 "img" [] = Ok 1 t /\
             List.length (filter is_read t) = 1%nat).
Proof.
  split; [vm_compute; reflexivity |].
  split; [intros t H; vm_compute in H; discriminate H |].
  eexists. split; vm_compute; reflexivity.
Qed.

(** C2, amended.  When the device read returns fewer bytes than the chunk
    asked for, the loop logs the short read, does not read again, writes the
    bytes it got, and, [write] reporting no more bytes than it was handed,
    leaves by [goto fail] after one more diagnostic: the remaining count is
    not decremented and no further pass is made. *)
Theorem short_read_aborts_transfer os fd outfd buf filename size n t fuel :
  write_bounded os ->
  let sz := if n <=? size then n else size in
  let r := os t (Read fd buf (C.to_size_t sz)) in
  0 <= ret r < sz ->
  exists w msgs,
    flash_to_file_loop os (S fuel) fd outfd buf filename size n t =
    Ok false
       (msgs ++
        [Sys (Write outfd buf (C.to_size_t (ret r))) w;
         Print Stderr "%s: short read, requested %#x, read %#x\n"
               [AStr "flash_to_file"; AInt sz; AInt (ret r)];
         Sys (Read fd buf (C.to_size_t sz)) r] ++ t) /\
    msgs <> [] /\
    existsb is_sys msgs = false.
Proof.
  intros Hw sz r Hr.
  cbn [flash_to_file_loop]. unfold mbind at 1.
  rewrite flash_to_file_body_eq. cbv zeta. fold sz. fold r.
  destruct (ret r <? 0) eqn:E1; [apply Z.ltb_lt in E1; lia |].
  destruct (ret r <? sz) eqn:E2; [| apply Z.ltb_ge in E2; lia].
  match goal with
  | |- context [os ?t2 (Write outfd buf (C.to_size_t (ret r)))] =>
    set (w := os t2 (Write outfd buf (C.to_size_t (ret r))))
  end.
  assert (Hlt : ret w < sz).
  { pose proof (Hw (Print Stderr "%s: short read, requested %#x, read %#x\n"
                          [AStr "flash_to_file"; AInt sz; AInt (ret r)]
                    :: Sys (Read fd buf (C.to_size_t sz)) r :: t)
                   outfd buf (C.to_size_t (ret r))) as H.
    fold w in H. unfold C.to_size_t in H.
    pose proof (Z.mod_le (ret r) (2 ^ 32) ltac:(lia) ltac:(lia)). lia. }
  exists w.
  destruct (ret w <? 0).
  - eexists [_; _]. cbn [app]. split; [reflexivity |].
    split; [discriminate | reflexivity].
  - destruct (ret w =? sz) eqn:E4; [apply Z.eqb_eq in E4; lia |].
    cbn [negb]. eexists [_]. cbn [app]. split; [reflexivity |].
    split; [discriminate | reflexivity].
Qed.

Lemma os_short_device_read_write_bounded : write_bounded os_short_device_read.
Proof. intros t fd buf count. cbn. lia. Qed.

Lemma short_read_aborts_transfer_witness :
  exists w msgs,
    flash_to_file_loop os_short_device_read 5 3 4 8192 "img" 4 4 [] =
    Ok false
       (msgs ++
        [Sys (Write 4 8192 2) w;
         Print Stderr "%s: short read, requested %#x, read %#x\n"
               [AStr "flash_to_file"; AInt 4; AInt 2];
         Sys (Read 3 8192 4) (answer 2)] ++ []) /\
    msgs <> [] /\
    existsb is_sys msgs = false.
Proof.
  apply (short_read_aborts_transfer os_short_device_read 3 4 8192 "img" 4 4 []
           4%nat os_short_device_read_write_bounded).
  vm_compute. split; [intros H; discriminate H | reflexivity].
Defined.

(** C3 as stated fails at a length of exactly 64 KiB: the first request is
    refused and no fallback request follows. *)
Lemma no_fallback_at_64KiB :
  exists new,
    flash_to_file os_no_memory 3 0 65536 "img" [] = Ok 1 new /\
    mallocs new = [(65536, 0)] /\
    ~ (exists p, mallocs new = [(65536, 0); (BUF_SIZE, p)]).
Proof.
  eexists. split; [vm_compute; reflexivity |].
  split; [reflexivity |]. intros [p H]. discriminate H.
Qed.

(** C3, amended.  In either direction a transfer of [len] bytes that gets
    as far as allocating ([lseek] and then [creat], or [fopen], have
    succeeded) first asks for [len] bytes.  If that is refused and [len] is
    not 64 KiB, exactly one more request follows, of exactly 64 KiB, and if
    it is refused too the transfer fails after [perror("malloc()")].  If
    [len] is 64 KiB itself, the first refusal is final.  No other size is
    ever asked for; and a transfer that does not get as far as allocating
    asks for nothing and fails. *)
Theorem buffer_fallback_once os fd offset len filename t :
  0 <= len < 2 ^ 32 ->
  let l := os t (Lseek fd offset) in
  let t1 := Sys (Lseek fd offset) l :: t in
  let c := os t1 (Creat filename 438) in
  let f := os t1 (Fopen filename "r") in
  (exists r new,
     flash_to_file os fd offset len filename t = Ok r (new ++ t) /\
     (ret l <> offset \/ ret c < 0 -> mallocs new = [] /\ r = 1) /\
     (ret l = offset -> 0 <= ret c -> alloc_requests len r new)) /\
  (exists r new,
     file_to_flash os fd offset len filename t = Ok r (new ++ t) /\
     (ret l <> offset \/ ret f = 0 -> mallocs new = [] /\ r = 1) /\
     (ret l = offset -> ret f <> 0 -> alloc_requests len r new)).
Proof.
  intros Hlen l t1 c f. split.
  - destruct (flash_to_file_requests os fd offset len filename t)
      as (r & new & Hrun & Hnone & Hsome).
    rewrite to_size_t_small in Hsome by exact Hlen.
    exists r, new. auto.
  - destruct (file_to_flash_requests os fd offset len filename t)
      as (r & new & Hrun & Hnone & Hsome).
    rewrite to_size_t_small in Hsome by exact Hlen.
    exists r, new. auto.
Qed.

Lemma buffer_fallback_once_witness :
  0 <= 200000 < 2 ^ 32 /\
  (exists r new,
     flash_to_file os_low_memory 3 0 200000 "img" [] = Ok r (new ++ []) /\
     alloc_requests 200000 r new) /\
  (exists r new,
     file_to_flash os_low_memory 3 0 200000 "img" [] = Ok r (new ++ []) /\
     alloc_requests 200000 r new).
Proof.
  split; [lia |].
  destruct (buffer_fallback_once os_low_memory 3 0 200000 "img" [])
    as [(r & new & Hrun & _ & Hsome) (r' & new' & Hrun' & _ & Hsome')];
    [lia |].
  split.
  - exists r, new. split; [exact Hrun |].
    apply Hsome; [reflexivity | cbn; lia].
  - exists r', new'. split; [exact Hrun' |].
    apply Hsome'; [reflexivity | cbn; lia].
Defined.

(** *** erase_flash *)

Lemma erase_flash_run os fd offset bytes t :
  let e := Ioctl fd MEMERASE
                 (DErase {| erase_start := offset; erase_length := bytes |}) in
  erase_flash os fd offset bytes t =
  if ret (os t e) <? 0
  then Ok 1 ([Perror "MEMERASE"; Sys e (os t e)] ++ t)
  else Ok 0 ([Print Stderr "Erased %d bytes from address 0x%.8x in flash\n"
                    [AInt bytes; AInt offset]; Sys e (os t e)] ++ t).
Proof.
  unfold erase_flash. run. cbv zeta.
  destruct (ret (os t _) <? 0); reflexivity.
Qed.







(** ** Geometry: getregions and showinfo *)

Lemma region_queries_app a b :
  region_queries (a ++ b) = region_queries b ++ region_queries a.
Proof.
  induction a as [| e a IH]; cbn [app region_queries].
  - rewrite app_nil_r. reflexivity.
  - destruct e as [c r | | |]; try exact IH.
    destruct c as [fd req d | | | | | | | | | | | | |]; try exact IH.
    destruct req; try exact IH. destruct d; try exact IH.
    rewrite IH, app_assoc. reflexivity.
Qed.

Lemma list_set_length {A} (l : list A) :
  forall i x, List.length (list_set i x l) = List.length l.
Proof.
  induction l as [| a l IH]; intros i x; [reflexivity |].
  destruct i as [| i]; cbn [list_set List.length]; [reflexivity |].
  rewrite IH. reflexivity.
Qed.

Lemma list_set_nth_same {A} (l : list A) :
  forall i x d, (i < List.length l)%nat -> nth i (list_set i x l) d = x.
Proof.
  induction l as [| a l IH]; intros i x d Hi; cbn [List.length] in *; [lia |].
  destruct i as [| i]; [reflexivity |].
  cbn [list_set nth]. apply IH. lia.
Qed.

Lemma list_set_nth_other {A} (l : list A) :
  forall i j x d, i <> j -> nth j (list_set i x l) d = nth j l d.
Proof.
  induction l as [| a l IH]; intros i j x d Hij; [reflexivity |].
  destruct i as [| i], j as [| j]; try reflexivity; try lia.
  cbn [list_set nth]. apply IH. lia.
Qed.

Lemma regionindex_fill r d : regionindex (fill_region r d) = regionindex r.
Proof. destruct d; reflexivity. Qed.

(** The loop over the regions: queries in ascending index from [i] on, each
    stored entry carrying its own index, up to the first query that fails. *)
Lemma getregions_loop_run os fd k :
  forall i regions t,
    0 <= i -> i + Z.of_nat k <= Z.of_nat (List.length regions) ->
    exists err regions' new,
      getregions_loop os fd k i regions t = Ok (err, regions') (new ++ t) /\
      List.length regions' = List.length regions /\
      List.length (region_queries new) = List.length new /\
      map fst (region_queries new) = Zseq i (List.length new) /\
      (forall j, i <= j < i + Z.of_nat (List.length new) ->
                 regionindex (nth (Z.to_nat j) regions' zero_region) = j) /\
      (forall j, 0 <= j < i ->
                 nth (Z.to_nat j) regions' zero_region =
                 nth (Z.to_nat j) regions zero_region) /\
      ((err = 0 /\ List.length new = k /\
        map snd (region_queries new) = repeat 0 k) \/
       (err <> 0 /\ (List.length new <= k)%nat /\
        exists q, map snd (region_queries new) = repeat 0 q ++ [err])).
Proof.
  induction k as [| k IH]; intros i regions t Hi Hk.
  - exists 0, regions, []. cbn. repeat split; auto; try lia.
  - cbn [getregions_loop].
    destruct (nth_error regions (Z.to_nat i)) as [ri |] eqn:En.
    2:{ apply nth_error_None in En. lia. }
    assert (Hlt : (Z.to_nat i < List.length regions)%nat)
      by (apply nth_error_Some; rewrite En; discriminate).
    run. cbv zeta.
    set (q := Ioctl fd MEMGETREGIONINFO (DRegion (set_regionindex i ri))).
    set (r := os t q).
    set (regions1 := list_set (Z.to_nat i)
                       (fill_region (set_regionindex i ri) (out r)) regions).
    assert (Hl1 : List.length regions1 = List.length regions)
      by (apply list_set_length).
    assert (Hi1 : regionindex (nth (Z.to_nat i) regions1 zero_region) = i).
    { subst regions1. rewrite list_set_nth_same by exact Hlt.
      rewrite regionindex_fill. reflexivity. }
    assert (Hf1 : forall j, 0 <= j < i ->
                   nth (Z.to_nat j) regions1 zero_region =
                   nth (Z.to_nat j) regions zero_region).
    { intros j Hj. subst regions1. apply list_set_nth_other. lia. }
    destruct (ret r =? 0) eqn:E; cbn [negb].
    + apply Z.eqb_eq in E.
      destruct (IH (i + 1) regions1 (Sys q r :: t))
        as (err & regions' & new & Hrun & Hlen & Hq & Hidx & Hri & Hfr & Hres);
        [lia | lia |].
      exists err, regions', (new ++ [Sys q r]).
      split; [etransitivity; [exact Hrun | trace_eq] |].
      split; [lia |].
      rewrite region_queries_app, !length_app.
      cbn [region_queries app List.length map fst snd regionindex
           set_regionindex q].
      rewrite !Nat.add_1_r. cbn [Zseq].
      split; [rewrite Hq; reflexivity |].
      split; [rewrite Hidx; reflexivity |].
      split; [| split].
      * intros j Hj. destruct (Z.eq_dec j i) as [-> | Hne].
        -- rewrite Hfr by lia. exact Hi1.
        -- apply Hri. lia.
      * intros j Hj. rewrite Hfr by lia. apply Hf1. exact Hj.
      * rewrite E.
        destruct Hres as [(He & Hn & Hs) | (He & Hn & qn & Hs)].
        -- left. rewrite Hs, Hn. repeat split; auto.
        -- right. split; [exact He |]. split; [lia |].
           exists (S qn). rewrite Hs. reflexivity.
    + apply Z.eqb_neq in E.
      exists (ret r), regions1, [Sys q r]. unfold mret.
      split; [reflexivity |]. split; [exact Hl1 |].
      cbn [region_queries app List.length map fst snd regionindex
           set_regionindex q Zseq].
      repeat split; auto.
      * intros j Hj. replace j with i by lia. exact Hi1.
      * right. split; [exact E |]. split; [lia |]. exists O. reflexivity.
Qed.

(** C6 as stated fails when a per-region query fails: the driver reports 2
    regions, the query for region 0 is refused, and no query for region 1
    is issued. *)
Lemma region_query_failure_stops_enumeration :
  exists regions' new,
    getregions os_bad_region 3 (repeat zero_region 4) 0 [] =
      Ok (-1, regions', 2) new /\
    region_queries new = [(0, -1)] /\
    List.length (region_queries new) <> 2%nat.
Proof.
  eexists _, _. split; [vm_compute; reflexivity |].
  split; [reflexivity | discriminate].
Qed.

(** C6, amended.  Region enumeration first issues the region-count query.
    If that query fails, no per-region query is issued.  A reported count of
    0 (or less) leaves the region table as it was, with no per-region query.
    A reported count [N > 0] that the table can hold makes the per-region
    queries in ascending index from 0, each stored entry carrying as
    [regionindex] its position in the table: all [N] of them when every
    query succeeds, and up to the first one that fails otherwise, whose
    error is returned. *)
Theorem region_enumeration os fd regions n t :
  let count := Ioctl fd MEMGETREGIONCOUNT (DInt n) in
  let c := os t count in
  let N := match out c with DInt k => k | _ => n end in
  let t1 := Sys count c :: t in
  (ret c <> 0 ->
   getregions os fd regions n t = Ok (ret c, regions, N) t1) /\
  (ret c = 0 -> N <= 0 ->
   getregions os fd regions n t = Ok (0, regions, N) t1) /\
  (ret c = 0 -> 0 < N <= Z.of_nat (List.length regions) ->
   exists err regions' new,
     getregions os fd regions n t = Ok (err, regions', N) (new ++ t1) /\
     List.length regions' = List.length regions /\
     List.length (region_queries new) = List.length new /\
     map fst (region_queries new) = Zseq 0 (List.length new) /\
     (forall j, 0 <= j < Z.of_nat (List.length new) ->
                regionindex (nth (Z.to_nat j) regions' zero_region) = j) /\
     ((err = 0 /\ Z.of_nat (List.length new) = N /\
       map snd (region_queries new) = repeat 0 (List.length new)) \/
      (err <> 0 /\ Z.of_nat (List.length new) <= N /\
       exists q, map snd (region_queries new) = repeat 0 q ++ [err]))).
Proof.
  intros count c N t1. unfold getregions. run. cbv zeta.
  fold count. fold c. fold N. fold t1.
  split; [| split].
  - intros Hc. rewrite (proj2 (Z.eqb_neq _ _) Hc). reflexivity.
  - intros Hc HN. rewrite Hc. cbn [Z.eqb negb].
    replace (Z.to_nat N) with O by lia. reflexivity.
  - intros Hc HN. rewrite Hc. cbn [Z.eqb negb].
    destruct (getregions_loop_run os fd (Z.to_nat N) 0 regions t1)
      as (err & regions' & new & Hrun & Hlen & Hq & Hidx & Hri & _ & Hres);
      [lia | lia |].
    rewrite Hrun. cbn [fst snd].
    exists err, regions', new. repeat split; auto.
    destruct Hres as [(He & Hn & Hs) | (He & Hn & Hs)].
    + left. rewrite Hn. repeat split; auto. lia.
    + right. repeat split; auto. lia.
Qed.

Lemma region_enumeration_witness :
  exists err regions' new,
    getregions os_ok 3 (repeat zero_region 4) 7 [] =
      Ok (err, regions', 2)
         (new ++ [Sys (Ioctl 3 MEMGETREGIONCOUNT (DInt 7))
                      {| ret := 0; out := DInt 2 |}]) /\
    List.length regions' = 4%nat /\
    List.length (region_queries new) = List.length new /\
    map fst (region_queries new) = Zseq 0 (List.length new) /\
    (forall j, 0 <= j < Z.of_nat (List.length new) ->
               regionindex (nth (Z.to_nat j) regions' zero_region) = j) /\
    ((err = 0 /\ Z.of_nat (List.length new) = 2 /\
      map snd (region_queries new) = repeat 0 (List.length new)) \/
     (err <> 0 /\ Z.of_nat (List.length new) <= 2 /\
      exists q, map snd (region_queries new) = repeat 0 q ++ [err])).
Proof.
  apply (proj2 (proj2 (region_enumeration os_ok 3 (repeat zero_region 4) 7 []))).
  - reflexivity.
  - cbn. lia.
Defined.

(** *** Coming to an end *)













(** ** The four commands *)









Lemma os_ok_region_count_bounded cap n :
  2 <= cap -> region_count_bounded os_ok cap n.
Proof. intros H t fd. cbn. exact H. Qed.


(** *** What the operations write, and where *)

(** The two fatal ends of a command before its helper runs: the device node
    is not found; [open] fails. *)
Ltac before_helper :=
  run; cbv zeta;
  match goal with
  | |- context [ret ?d =? 0] => destruct (ret d =? 0)
  end;
  [ exists Died; eexists [_; _; _]; cbn [app];
    split; [reflexivity |]; left;
    split; [discriminate | split; reflexivity]
  | match goal with
    | |- context [ret ?o <? 0] => destruct (ret o <? 0)
    end;
    [ exists Died; eexists [_; _; _; _]; cbn [app];
      split; [reflexivity |]; left;
      split; [discriminate | split; reflexivity]
    | ] ].

(** After the helper: [close], fatal or not.  [Hout] tells what the helper
    left on standard output, [Herr] what on the diagnostic stream. *)
Ltac after_helper st inner :=
  match goal with
  | |- context [ret ?c <? 0] => destruct (ret c <? 0)
  end;
  [ exists Died; eexists ([_; _] ++ inner ++ [_; _; _])
  | exists st; eexists ([_] ++ inner ++ [_; _; _]) ];
  (split; [trace_eq |]).

Lemma mtd_debug_read_streams os mtd_dev offset len file t :
  let banner :=
    Print Stdout "%s %s %x %x\n"
          [AStr "mtd_debug_read"; AStr mtd_dev; AInt offset; AInt len] in
  let copied :=
    Print Stdout "Copied %zu bytes from address 0x%.8llx in flash to %s\n"
          [AInt len; AInt offset; AStr file] in
  exists st new,
    mtd_debug_read os mtd_dev offset len file t = Ok st (new ++ t) /\
    ((st <> Returned 0 /\ stdout_lines new = [banner] /\
      existsb writes_stderr new = true) \/
     (stdout_lines new = [banner; copied] /\
      (st = Returned 0 \/ st = Died /\ existsb writes_stderr new = true))).
Proof.
  intros banner copied. unfold mtd_debug_read. before_helper.
  match goal with
  | |- context [flash_to_file os ?fd offset len file ?t2] =>
    destruct (flash_to_file_run os fd offset len file t2)
      as (r & inner & Hrun & [-> | ->] & _ & H0 & H1 & _)
  end; rewrite Hrun.
  - specialize (H0 eq_refl).
    after_helper (Returned 0) inner; right;
      unfold stdout_lines; rewrite !filter_app, H0;
      (split; [reflexivity |]); [right; split; reflexivity | left; reflexivity].
  - destruct (H1 eq_refl) as [Hout Herr].
    after_helper (Returned 1) inner; left; (split; [discriminate |]);
      unfold stdout_lines; rewrite !filter_app, Hout;
      (split; [reflexivity |]); [reflexivity |].
    cbn [app existsb writes_stderr stream_of orb].
    apply existsb_app_l. exact Herr.
Qed.

Lemma mtd_debug_write_streams os mtd_dev offset len file t :
  let banner :=
    Print Stdout "%s %s %x %x\n"
          [AStr "mtd_debug_write"; AStr mtd_dev; AInt offset; AInt len] in
  let copied :=
    Print Stdout "Copied %d bytes from %s to address 0x%.8llx in flash\n"
          [AInt len; AStr file; AInt offset] in
  exists st new,
    mtd_debug_write os mtd_dev offset len file t = Ok st (new ++ t) /\
    ((st <> Returned 0 /\ stdout_lines new = [banner] /\
      existsb writes_stderr new = true) \/
     (stdout_lines new = [banner; copied] /\
      (st = Returned 0 \/ st = Died /\ existsb writes_stderr new = true))).
Proof.
  intros banner copied. unfold mtd_debug_write. before_helper.
  match goal with
  | |- context [file_to_flash os ?fd offset len file ?t2] =>
    destruct (file_to_flash_run os fd offset len file t2)
      as (r & inner & Hrun & [-> | ->] & _ & H0 & H1 & _)
  end; rewrite Hrun.
  - specialize (H0 eq_refl).
    after_helper (Returned 0) inner; right;
      unfold stdout_lines; rewrite !filter_app, H0;
      (split; [reflexivity |]); [right; split; reflexivity | left; reflexivity].
  - destruct (H1 eq_refl) as [Hout Herr].
    after_helper (Returned 1) inner; left; (split; [discriminate |]);
      unfold stdout_lines; rewrite !filter_app, Hout;
      (split; [reflexivity |]); [reflexivity |].
    cbn [app existsb writes_stderr stream_of orb].
    apply existsb_app_l. exact Herr.
Qed.

Lemma mtd_debug_erase_streams os mtd_dev offset len t :
  let banner :=
    Print Stdout "%s %s %x %x\n"
          [AStr "mtd_debug_erase"; AStr mtd_dev; AInt offset; AInt len] in
  let erased :=
    Print Stderr "Erased %d bytes from address 0x%.8x in flash\n"
          [AInt len; AInt offset] in
  exists st new,
    mtd_debug_erase os mtd_dev offset len t = Ok st (new ++ t) /\
    stdout_lines new = [banner] /\
    ((st <> Returned 0 /\ existsb writes_stderr new = true) \/
     (st = Returned 0 /\ filter writes_stderr new = [erased])).
Proof.
  intros banner erased. unfold mtd_debug_erase.
  run; cbv zeta.
  match goal with
  | |- context [ret ?d =? 0] => destruct (ret d =? 0)
  end.
  { exists Died; eexists [_; _; _]; cbn [app].
    split; [reflexivity |]. split; [reflexivity |]. left.
    split; [discriminate | reflexivity]. }
  match goal with
  | |- context [ret ?o <? 0] => destruct (ret o <? 0)
  end.
  { exists Died; eexists [_; _; _; _]; cbn [app].
    split; [reflexivity |]. split; [reflexivity |]. left.
    split; [discriminate | reflexivity]. }
  rewrite erase_flash_run. cbv zeta.
  match goal with
  | |- context [ret ?e <? 0] => destruct (ret e <? 0)
  end; cbn [app];
    match goal with
    | |- context [ret ?c <? 0] => destruct (ret c <? 0)
    end;
    [ exists Died; eexists [_; _; _; _; _; _; _]
    | exists (Returned 1); eexists [_; _; _; _; _; _]
    | exists Died; eexists [_; _; _; _; _; _; _]
    | exists (Returned 0); eexists [_; _; _; _; _; _] ];
    cbn [app]; (split; [reflexivity |]); (split; [reflexivity |]);
    first [ right; split; reflexivity
          | left; split; [discriminate | reflexivity] ].
Qed.

(** C5 as stated fails for erase: after a successful erase, standard output
    holds the banner of the operation and no summary; the summary of bytes
    erased and start address is on the diagnostic stream, where the helper
    [erase_flash] has written it. *)
Lemma erase_summary_not_on_stdout :
  (exists new,
     mtd_debug_erase os_ok "mtd0" 65536 65536 [] = Ok (Returned 0) new /\
     stdout_lines new =
       [Print Stdout "%s %s %x %x\n"
              [AStr "mtd_debug_erase"; AStr "mtd0"; AInt 65536; AInt 65536]] /\
     filter writes_stderr new =
       [Print Stderr "Erased %d bytes from address 0x%.8x in flash\n"
              [AInt 65536; AInt 65536]]) /\
  (exists new,
     erase_flash os_ok 3 65536 65536 [] = Ok 0 new /\
     filter writes_stdout new = [] /\
     filter writes_stderr new =
       [Print Stderr "Erased %d bytes from address 0x%.8x in flash\n"
              [AInt 65536; AInt 65536]] /\
     ~ (exists fmt args, In (Print Stdout fmt args) new)).
Proof.
  split.
  - eexists. split; [vm_compute; reflexivity |]. split; reflexivity.
  - eexists. split; [vm_compute; reflexivity |].
    split; [reflexivity |]. split; [reflexivity |].
    intros (fmt & args & [H | [H | []]]); discriminate H.
Qed.

(** C5, amended.  Every operation starts with its banner on standard
    output.  A successful read and a successful write then write their
    one-line summary to standard output; a successful erase writes its
    summary of bytes erased and start address to the diagnostic stream, and
    not to standard output.  Errors go to the diagnostic stream: an
    operation that does not succeed leaves a message there, and standard
    output never holds anything but the banner and the summary. *)
Theorem summaries_and_errors os mtd_dev offset len file t :
  let banner name :=
    Print Stdout "%s %s %x %x\n"
          [AStr name; AStr mtd_dev; AInt offset; AInt len] in
  let copied_out :=
    Print Stdout "Copied %zu bytes from address 0x%.8llx in flash to %s\n"
          [AInt len; AInt offset; AStr file] in
  let copied_in :=
    Print Stdout "Copied %d bytes from %s to address 0x%.8llx in flash\n"
          [AInt len; AStr file; AInt offset] in
  let erased :=
    Print Stderr "Erased %d bytes from address 0x%.8x in flash\n"
          [AInt len; AInt offset] in
  (exists st new,
     mtd_debug_read os mtd_dev offset len file t = Ok st (new ++ t) /\
     (st = Returned 0 ->
      stdout_lines new = [banner "mtd_debug_read"; copied_out]) /\
     (st <> Returned 0 -> existsb writes_stderr new = true) /\
     (stdout_lines new = [banner "mtd_debug_read"] \/
      stdout_lines new = [banner "mtd_debug_read"; copied_out])) /\
  (exists st new,
     mtd_debug_write os mtd_dev offset len file t = Ok st (new ++ t) /\
     (st = Returned 0 ->
      stdout_lines new = [banner "mtd_debug_write"; copied_in]) /\
     (st <> Returned 0 -> existsb writes_stderr new = true) /\
     (stdout_lines new = [banner "mtd_debug_write"] \/
      stdout_lines new = [banner "mtd_debug_write"; copied_in])) /\
  (exists st new,
     mtd_debug_erase os mtd_dev offset len t = Ok st (new ++ t) /\
     (st = Returned 0 -> filter writes_stderr new = [erased]) /\
     (st <> Returned 0 -> existsb writes_stderr new = true) /\
     stdout_lines new = [banner "mtd_debug_erase"]).
Proof.
  intros banner copied_out copied_in erased. split; [| split].
  - destruct (mtd_debug_read_streams os mtd_dev offset len file t)
      as (st & new & Hrun & [(Hst & Hout & Herr) | (Hout & Hst)]);
      exists st, new; (split; [exact Hrun |]).
    + split; [intros H; contradiction |]. split; [auto | left; exact Hout].
    + split; [intros _; exact Hout |]. split; [| right; exact Hout].
      intros Hne. destruct Hst as [H | [_ H]]; [contradiction | exact H].
  - destruct (mtd_debug_write_streams os mtd_dev offset len file t)
      as (st & new & Hrun & [(Hst & Hout & Herr) | (Hout & Hst)]);
      exists st, new; (split; [exact Hrun |]).
    + split; [intros H; contradiction |]. split; [auto | left; exact Hout].
    + split; [intros _; exact Hout |]. split; [| right; exact Hout].
      intros Hne. destruct Hst as [H | [_ H]]; [contradiction | exact H].
  - destruct (mtd_debug_erase_streams os mtd_dev offset len t)
      as (st & new & Hrun & Hout & [(Hst & Herr) | (Hst & Herr)]);
      exists st, new; (split; [exact Hrun |]).
    + split; [intros H; contradiction |]. split; [auto | exact Hout].
    + split; [intros _; exact Herr |]. split; [| exact Hout].
      intros Hne. contradiction.
Qed.

(** The handle is closed after a failed operation, and the command reports
    the failure: read-out from a device that hands out half of the bytes. *)
Example close_after_failed_read :
  exists t3,
    flash_to_file os_short_device_read 3 0 4 "img"
      [Sys (Open 12288 (Z.lor O_SYNC O_RDONLY)) (answer 3);
       Sys (FindDevNode "mtd0") (answer 12288);
       Print Stdout "%s %s %x %x\n"
             [AStr "mtd_debug_read"; AStr "mtd0"; AInt 0; AInt 4]]
      = Ok 1 t3 /\
    mtd_debug_read os_short_device_read "mtd0" 0 4 "img" [] =
      Ok (Returned 1) (Sys (Close 3) (answer 0) :: t3).
Proof. eexists. split; vm_compute; reflexivity. Qed.

(** A failing close is fatal, even after a successful erase. *)
Example close_failure_is_fatal :
  exists t3,
    mtd_debug_erase os_bad_close "mtd0" 65536 65536 [] =
      Ok Died (Errmsg "close()" [] :: Sys (Close 3) (answer (-1)) :: t3).
Proof. eexists. vm_compute. reflexivity. Qed.

(** [mtd_debug_info] has one value to return. *)
Lemma mtd_debug_info_returns_0 os mtd_dev mtd region n t st t' :
  mtd_debug_info os mtd_dev mtd region n t = Ok st t' ->
  st = Died \/ st = Returned 0.
Proof.
  unfold mtd_debug_info. run. cbv zeta.
  destruct (ret (os t (FindDevNode mtd_dev)) =? 0);
    [intros H; injection H as <- _; left; reflexivity |].
  match goal with
  | |- context [ret ?o <? 0] => destruct (ret o <? 0)
  end; [intros H; injection H as <- _; left; reflexivity |].
  match goal with
  | |- context [showinfo os ?fd mtd region n ?t2] =>
    destruct (showinfo os fd mtd region n t2) as [r t3 | f]
  end; [| discriminate].
  match goal with
  | |- context [ret ?c <? 0] => destruct (ret c <? 0)
  end; intros H; injection H as <- _; auto.
Qed.

(** C4, at the failing inputs.  The device-info query fails, [showinfo]
    returns 1, and [mtd_debug_info], which does not look at what [showinfo]
    returns, reports success to its caller; the same when the query for a
    region fails. *)
Theorem mtd_debug_info_drops_failure :
  let opened :=
    [Sys (Open 12288 (Z.lor O_SYNC O_RDONLY)) (answer 3);
     Sys (FindDevNode "mtd0") (answer 12288)] in
  (exists t3,
     showinfo os_no_info 3 zero_mtd (repeat zero_region 1024) 0 opened =
       Ok 1 (Perror "MEMGETINFO" :: t3) /\
     mtd_debug_info os_no_info "mtd0" zero_mtd (repeat zero_region 1024) 0 [] =
       Ok (Returned 0)
          (Sys (Close 3) (answer 0) :: Perror "MEMGETINFO" :: t3)) /\
  (exists t3,
     showinfo os_bad_region 3 zero_mtd (repeat zero_region 1024) 0 opened =
       Ok 1 (Perror "MEMGETREGIONCOUNT" :: t3) /\
     mtd_debug_info os_bad_region "mtd0" zero_mtd (repeat zero_region 1024) 0 [] =
       Ok (Returned 0)
          (Sys (Close 3) (answer 0) :: Perror "MEMGETREGIONCOUNT" :: t3)).
Proof.
  intros opened. split; eexists; split; vm_compute; reflexivity.
Qed.


(** * Further properties *)

(** ** Reading a trace, continued *)

Lemma pick_app {A} (f : syscall -> reply -> option A) a b :
  pick f (a ++ b) = pick f b ++ pick f a.
Proof. unfold pick. rewrite flat_map_app, rev_app_distr. reflexivity. Qed.

Lemma pick_cons {A} (f : syscall -> reply -> option A) e t :
  pick f (e :: t) = pick f t ++ pick f [e].
Proof. apply (pick_app f [e] t). Qed.

Lemma pick_none {A} (f : syscall -> reply -> option A) (P : event -> bool) l :
  (forall c r, P (Sys c r) = true -> f c r = None) ->
  forallb P l = true -> pick f l = [].
Proof.
  intros HP. induction l as [| e l IH]; [reflexivity |].
  cbn [forallb]. intros H. apply andb_prop in H. destruct H as [He Hl].
  rewrite pick_cons, (IH Hl). destruct e as [c r | | |]; try reflexivity.
  unfold pick. cbn. rewrite (HP c r He). reflexivity.
Qed.

Lemma stdout_lines_app a b : stdout_lines (a ++ b) = stdout_lines b ++ stdout_lines a.
Proof. unfold stdout_lines. rewrite filter_app, rev_app_distr. reflexivity. Qed.

Lemma sum_app a b : sum (a ++ b) = sum a + sum b.
Proof.
  unfold sum. induction a as [| x a IH]; cbn [app fold_right]; [reflexivity |].
  rewrite IH. lia.
Qed.

(** ** The loops and the relations *)

Section MoreTransfers.

Variable os : OS.

Lemma flash_to_file_body_total fd outfd buf filename size n t :
  exists x nb,
    flash_to_file_body os fd outfd buf filename size n t = Ok x (nb ++ t) /\
    forallb io_event nb = true /\
    match x with
    | Some (sz', n') =>
      sz' = (if n <=? size then n else size) /\ n' = n - sz' /\ 0 <= sz'
    | None => True
    end.
Proof.
  rewrite flash_to_file_body_eq. cbv zeta.
  set (sz := if n <=? size then n else size).
  set (r := os t (Read fd buf (C.to_size_t sz))).
  destruct (ret r <? 0).
  { eexists None, [_; _; _]. repeat split; reflexivity. }
  set (t2 := if ret r <? sz then _ else _).
  assert (Ht2 : exists d, t2 = d ++ Sys (Read fd buf (C.to_size_t sz)) r :: t /\
                          forallb io_event d = true).
  { subst t2. destruct (ret r <? sz).
    - eexists [_]. split; reflexivity.
    - exists []. split; reflexivity. }
  destruct Ht2 as (d & Hd & Hdio).
  set (w := os t2 (Write outfd buf (C.to_size_t (ret r)))).
  assert (Hio : forall l, forallb io_event l = true ->
                forallb io_event (l ++ d ++ [Sys (Read fd buf (C.to_size_t sz)) r])
                = true).
  { intros l Hl. rewrite !forallb_app, Hl, Hdio. reflexivity. }
  destruct (ret w <? 0) eqn:E3.
  { eexists None, ([_; _; _] ++ d ++ [_]). rewrite Hd.
    split; [trace_eq |]. split; [apply Hio; reflexivity | exact I]. }
  apply Z.ltb_ge in E3.
  destruct (ret w =? sz) eqn:E4; cbn [negb].
  - apply Z.eqb_eq in E4.
    eexists (Some (sz, n - sz)), ([_] ++ d ++ [_]). rewrite Hd.
    split; [trace_eq |]. split; [apply Hio; reflexivity |].
    repeat split; lia.
  - eexists None, ([_; _] ++ d ++ [_]). rewrite Hd.
    split; [trace_eq |]. split; [apply Hio; reflexivity | exact I].
Qed.

(** The loop function runs as the relation describes. *)
Lemma flash_to_file_loop_passes fd outfd buf filename fuel :
  forall size n t,
    (n <= size \/ 0 < size) -> (Z.to_nat n < fuel)%nat ->
    exists ok new,
      flash_to_file_loop os fuel fd outfd buf filename size n t
        = Ok ok (new ++ t) /\
      flash_to_file_passes os fd outfd buf filename t size n ok new.
Proof.
  induction fuel as [| fuel IH]; intros size n t Hr Hf; [lia |].
  cbn [flash_to_file_loop]. unfold mbind at 1.
  destruct (flash_to_file_body_total fd outfd buf filename size n t)
    as (x & nb & Hb & _ & Hx).
  rewrite Hb. destruct x as [[sz n'] |].
  - destruct Hx as (Hsz & Hn' & Hpos).
    destruct (n' >? 0) eqn:E.
    + apply Z.gtb_lt in E.
      assert (Hsz' : sz = size /\ 0 < size).
      { subst sz n'. destruct (n <=? size) eqn:E6; [lia |].
        apply Z.leb_gt in E6. lia. }
      destruct (IH sz n' (nb ++ t)) as (ok & new & Hrun & Hp); [lia | lia |].
      exists ok, (new ++ nb). rewrite Hrun, app_assoc.
      split; [reflexivity |]. eapply ftf_next; eauto.
    + exists true, nb. split; [reflexivity |].
      eapply ftf_last; [exact Hb |]. rewrite Z.gtb_ltb in E.
      apply Z.ltb_ge in E. exact E.
  - exists false, nb. split; [reflexivity |]. apply ftf_fail. exact Hb.
Qed.

Lemma flash_to_file_outcome_run fd offset len filename t :
  exists r new,
    flash_to_file os fd offset len filename t = Ok r (new ++ t) /\
    flash_to_file_outcome os fd offset len filename t r new.
Proof.
  unfold flash_to_file. run. cbv zeta. rewrite Z.mul_1_r.
  set (l := os t (Lseek fd offset)).
  destruct (offset =? ret l) eqn:El; cbn [negb].
  2:{ apply Z.eqb_neq in El. exists 1; eexists [_; _]; cbn [app].
      split; [reflexivity |]. apply ftf_no_seek; [reflexivity | lia]. }
  apply Z.eqb_eq in El.
  set (c := os _ (Creat filename 438)).
  destruct (ret c <? 0) eqn:Ec.
  { apply Z.ltb_lt in Ec. exists 1; eexists [_; _; _]; cbn [app].
    split; [reflexivity |]. apply ftf_no_file; [lia | exact Ec]. }
  apply Z.ltb_ge in Ec.
  set (base := [Sys (Creat filename 438) c; Sys (Lseek fd offset) l]).
  change (Sys (Creat filename 438) c :: Sys (Lseek fd offset) l :: t)
    with (base ++ t).
  destruct (flash_to_file_alloc_run os (C.to_int len) (base ++ t))
    as (buf & size & anew & Ha & _ & Hsize & _).
  rewrite Ha.
  destruct (buf =? 0) eqn:Eb.
  { apply Z.eqb_eq in Eb. subst buf.
    exists 1. eexists ([_; _; _] ++ anew ++ base).
    split; [trace_eq |]. eapply ftf_no_memory; [lia | exact Ec | exact Ha]. }
  apply Z.eqb_neq in Eb.
  destruct (flash_to_file_loop_passes fd (ret c) buf filename
              (S (Z.to_nat (C.to_int len))) size (C.to_int len)
              (anew ++ base ++ t))
    as (ok & lnew & Hl & Hp);
    [destruct Hsize as [-> | ->]; [left; lia | right; reflexivity] | lia |].
  rewrite Hl. destruct ok; cbn [negb].
  - exists 0. eexists ([_; _; _] ++ lnew ++ anew ++ base).
    split; [trace_eq |].
    eapply ftf_copied; [lia | exact Ec | exact Eb | exact Ha | exact Hp].
  - exists 1. eexists ([_; _] ++ lnew ++ anew ++ base).
    split; [trace_eq |].
    eapply ftf_aborted; [lia | exact Ec | exact Eb | exact Ha | exact Hp].
Qed.

Lemma flash_to_file_outcome_of fd offset len filename t r new :
  flash_to_file os fd offset len filename t = Ok r (new ++ t) ->
  flash_to_file_outcome os fd offset len filename t r new.
Proof.
  intros H.
  destruct (flash_to_file_outcome_run fd offset len filename t)
    as (r0 & new0 & Hrun & Hout).
  rewrite Hrun in H. injection H as <- Ht.
  apply app_inv_tail in Ht. subst new0. exact Hout.
Qed.

(** *** The same for write-in *)

Lemma file_to_flash_body_total fd buf fp size n t :
  exists x nb,
    file_to_flash_body os fd buf fp size n t = Ok x (nb ++ t) /\
    match x with
    | Some (sz', n') =>
      sz' = (if n <=? size then n else size) /\ n' = n - sz'
    | None => True
    end.
Proof.
  rewrite file_to_flash_body_eq. cbv zeta.
  set (sz := if n <=? size then n else size).
  destruct (ret (os t (Fread buf (C.to_size_t sz) 1 fp)) =? 1); cbn [negb].
  2:{ eexists None, [_; _; _; _; _]. split; [reflexivity | exact I]. }
  match goal with
  | |- context [negb (ret ?e =? 0)] => destruct (ret e =? 0)
  end; cbn [negb].
  2:{ eexists None, [_; _; _; _; _; _]. split; [reflexivity | exact I]. }
  match goal with
  | |- context [ret ?w <? 0] => destruct (ret w <? 0)
  end.
  - eexists None, [_; _; _; _; _; _; _]. split; [reflexivity | exact I].
  - eexists (Some (sz, n - sz)), [_; _; _]. split; [reflexivity |].
    split; reflexivity.
Qed.

Lemma file_to_flash_loop_passes fd buf fp fuel :
  forall size n t,
    (n <= size \/ 0 < size) -> (Z.to_nat n < fuel)%nat ->
    exists ok new,
      file_to_flash_loop os fuel fd buf fp size n t = Ok ok (new ++ t) /\
      file_to_flash_passes os fd buf fp t size n ok new.
Proof.
  induction fuel as [| fuel IH]; intros size n t Hr Hf; [lia |].
  cbn [file_to_flash_loop]. unfold mbind at 1.
  destruct (file_to_flash_body_total fd buf fp size n t)
    as (x & nb & Hb & Hx).
  rewrite Hb. destruct x as [[sz n'] |].
  - destruct Hx as (Hsz & Hn').
    destruct (n' >? 0) eqn:E.
    + apply Z.gtb_lt in E.
      assert (Hsz' : sz = size /\ 0 < size).
      { subst sz n'. destruct (n <=? size) eqn:E6; [lia |].
        apply Z.leb_gt in E6. lia. }
      destruct (IH sz n' (nb ++ t)) as (ok & new & Hrun & Hp); [lia | lia |].
      exists ok, (new ++ nb). rewrite Hrun, app_assoc.
      split; [reflexivity |]. eapply ftd_next; eauto.
    + exists true, nb. split; [reflexivity |].
      eapply ftd_last; [exact Hb |]. rewrite Z.gtb_ltb in E.
      apply Z.ltb_ge in E. exact E.
  - exists false, nb. split; [reflexivity |]. apply ftd_fail. exact Hb.
Qed.

Lemma file_to_flash_outcome_run fd offset len filename t :
  exists r new,
    file_to_flash os fd offset len filename t = Ok r (new ++ t) /\
    file_to_flash_outcome os fd offset len filename t r new.
Proof.
  unfold file_to_flash. run. cbv zeta. rewrite Z.mul_1_r.
  set (l := os t (Lseek fd offset)).
  destruct (offset =? ret l) eqn:El; cbn [negb].
  2:{ apply Z.eqb_neq in El. exists 1; eexists [_; _]; cbn [app].
      split; [reflexivity |]. apply ftd_no_seek; [reflexivity | lia]. }
  apply Z.eqb_eq in El.
  set (c := os _ (Fopen filename "r")).
  destruct (ret c =? 0) eqn:Ec.
  { apply Z.eqb_eq in Ec. exists 1; eexists [_; _; _]; cbn [app].
    split; [reflexivity |]. apply ftd_no_file; [lia | exact Ec]. }
  apply Z.eqb_neq in Ec.
  set (base := [Sys (Fopen filename "r") c; Sys (Lseek fd offset) l]).
  change (Sys (Fopen filename "r") c :: Sys (Lseek fd offset) l :: t)
    with (base ++ t).
  destruct (file_to_flash_alloc_run os (C.to_int len) (base ++ t))
    as (buf & size & anew & Ha & _ & Hsize & _).
  rewrite Ha.
  destruct (buf =? 0) eqn:Eb.
  { apply Z.eqb_eq in Eb. subst buf.
    exists 1. eexists ([_; _] ++ anew ++ base).
    split; [trace_eq |]. eapply ftd_no_memory; [lia | exact Ec | exact Ha]. }
  apply Z.eqb_neq in Eb.
  destruct (file_to_flash_loop_passes fd buf (ret c)
              (S (Z.to_nat (C.to_int len))) size (C.to_int len)
              (anew ++ base ++ t))
    as (ok & lnew & Hl & Hp);
    [destruct Hsize as [-> | ->]; [left; lia | right; reflexivity] | lia |].
  rewrite Hl. destruct ok; cbn [negb].
  - exists 0. eexists ([_; _; _] ++ lnew ++ anew ++ base).
    split; [trace_eq |].
    eapply ftd_copied; [lia | exact Ec | exact Eb | exact Ha | exact Hp].
  - exists 1. exists (lnew ++ anew ++ base).
    split; [trace_eq |].
    eapply ftd_aborted; [lia | exact Ec | exact Eb | exact Ha | exact Hp].
Qed.

Lemma file_to_flash_outcome_of fd offset len filename t r new :
  file_to_flash os fd offset len filename t = Ok r (new ++ t) ->
  file_to_flash_outcome os fd offset len filename t r new.
Proof.
  intros H.
  destruct (file_to_flash_outcome_run fd offset len filename t)
    as (r0 & new0 & Hrun & Hout).
  rewrite Hrun in H. injection H as <- Ht.
  apply app_inv_tail in Ht. subst new0. exact Hout.
Qed.

End MoreTransfers.

(** ** What is allocated *)

(** From [H : Ok a (e1 :: ... :: t) = Ok b (new ++ t)], what [b] and [new]
    are. *)
Ltac prefix_of l t :=
  match l with
  | t => constr:(@nil event)
  | ?e :: ?l' => let p := prefix_of l' t in constr:(e :: p)
  end.

Ltac trace_inv H t :=
  injection H as H ?;
  repeat match goal with
         | E : ?l = ?new ++ t |- _ =>
           let p := prefix_of l t in
           change l with (p ++ t) in E; apply app_inv_tail in E
         end.

Ltac alloc_hand_over size t buf size' anew H E1 E2 E3 :=
  intros size t buf size' anew H;
  cbn [flash_to_file_alloc file_to_flash_alloc] in H;
  cbv [mbind mret call emit printf fprintf perror mfault] in H;
  cbn beta iota in H;
  match type of H with
  | context [ret ?r1 =? 0] => destruct (ret r1 =? 0) eqn:E1
  end;
  [ apply Z.eqb_eq in E1;
    destruct (C.to_size_t size =? BUF_SIZE) eqn:E2; cbn [negb] in H;
    [ apply Z.eqb_eq in E2; trace_inv H t; subst;
      split; [reflexivity |]; exists [];
      split; [cbn [mallocs app]; rewrite E1; reflexivity | left; auto]
    | apply Z.eqb_neq in E2;
      change (C.to_size_t BUF_SIZE =? BUF_SIZE) with true in H;
      cbn [negb] in H;
      match type of H with
      | context [ret ?r2 =? 0] => destruct (ret r2 =? 0) eqn:E3
      end;
      trace_inv H t; subst;
      (split; [reflexivity |]; exists [(C.to_size_t size, 0)];
       split; [cbn [mallocs app]; rewrite E1;
               change (C.to_size_t BUF_SIZE) with BUF_SIZE; reflexivity
              | right; auto]) ]
  | trace_inv H t; subst;
    split; [reflexivity |]; exists [];
    split; [reflexivity | left; auto] ].

Section Allocation.

Variable os : OS.

Lemma flash_to_file_alloc_hands_over : alloc_hands_over (flash_to_file_alloc os).
Proof. alloc_hand_over size t buf size' anew H E1 E2 E3. Qed.

Lemma file_to_flash_alloc_hands_over : alloc_hands_over (file_to_flash_alloc os).
Proof. alloc_hand_over size t buf size' anew H E1 E2 E3. Qed.

End Allocation.

(** ** Read-out: the schedule of a successful copy *)

Lemma to_int_small z : 0 <= z <= C.INT_MAX -> C.to_int z = z.
Proof.
  unfold C.to_int, C.INT_MAX. intros H.
  rewrite Z.mod_small by lia.
  destruct (z <? 2 ^ 31) eqn:E; [reflexivity | apply Z.ltb_ge in E; lia].
Qed.

Lemma io_event_loop_event e : io_event e = true -> loop_event e = true.
Proof.
  destruct e as [c r | s f a | |]; try (intros H; exact H).
  destruct c; intros H; try discriminate H; reflexivity.
Qed.

Lemma io_events_mallocs l : forallb io_event l = true -> mallocs l = [].
Proof.
  intros H. apply loop_event_mallocs. revert H.
  apply forallb_weaken. exact io_event_loop_event.
Qed.

Lemma alloc_events_transfers l :
  forallb alloc_event l = true -> transfers l = [].
Proof.
  apply pick_none. intros c r H. destruct c; try discriminate H; reflexivity.
Qed.

Lemma flash_to_file_passes_io os fd outfd buf filename t size n ok new :
  flash_to_file_passes os fd outfd buf filename t size n ok new ->
  forallb io_event new = true.
Proof.
  assert (Hbody : forall t size n x nb,
             flash_to_file_body os fd outfd buf filename size n t
               = Ok x (nb ++ t) ->
             forallb io_event nb = true).
  { intros t0 size0 n0 x nb H.
    destruct (flash_to_file_body_total os fd outfd buf filename size0 n0 t0)
      as (x0 & nb0 & H0 & Hio & _).
    rewrite H0 in H. injection H as _ H. apply app_inv_tail in H.
    subst nb0. exact Hio. }
  induction 1 as [t size n nb Hb | t size n sz n' nb Hb Hn'
                  | t size n sz n' nb ok new Hb Hn' Hp IH];
    try (eapply Hbody; exact Hb).
  rewrite forallb_app, IH, (Hbody _ _ _ _ _ Hb). reflexivity.
Qed.


Section ReadOut.

Variable os : OS.
Hypothesis Hposix : posix_io os.

(** A pass that reaches the loop test read the whole chunk and wrote it. *)
Lemma flash_to_file_body_pass fd outfd buf filename size n t sz' n' nb :
  size <= C.INT_MAX -> n <= C.INT_MAX ->
  flash_to_file_body os fd outfd buf filename size n t
    = Ok (Some (sz', n')) (nb ++ t) ->
  let sz := if n <=? size then n else size in
  sz' = sz /\ n' = n - sz /\ 0 <= sz /\
  exists r w,
    nb = [Sys (Write outfd buf sz) w; Sys (Read fd buf sz) r] /\
    ret r = sz /\ ret w = sz.
Proof.
  intros Hsize Hn H sz. rewrite flash_to_file_body_eq in H. cbv zeta in H.
  fold sz in H.
  assert (Hsz : sz <= C.INT_MAX) by (subst sz; destruct (n <=? size); lia).
  set (r := os t (Read fd buf (C.to_size_t sz))) in H.
  destruct (ret r <? 0) eqn:E1; [discriminate H |].
  apply Z.ltb_ge in E1.
  set (t2 := if ret r <? sz then _ else _) in H.
  set (w := os t2 (Write outfd buf (C.to_size_t (ret r)))) in H.
  destruct (ret w <? 0) eqn:E3; [discriminate H |].
  apply Z.ltb_ge in E3.
  destruct (ret w =? sz) eqn:E4; cbn [negb] in H; [| discriminate H].
  apply Z.eqb_eq in E4.
  pose proof (proj1 Hposix t fd buf (C.to_size_t sz)) as Hpr. fold r in Hpr.
  pose proof (proj2 Hposix t2 outfd buf (C.to_size_t (ret r))) as Hpw.
  fold w in Hpw.
  destruct (full_pass (ret r) (ret w) sz E1 E3 E4 Hsz Hpr Hpw)
    as (Hrs & Hss & Hrr).
  assert (Ht2 : t2 = Sys (Read fd buf (C.to_size_t sz)) r :: t).
  { subst t2. destruct (ret r <? sz) eqn:E; [apply Z.ltb_lt in E; lia |].
    reflexivity. }
  rewrite Ht2 in H. trace_inv H t. subst sz' n' nb.
  repeat split; try lia.
  exists r, w. rewrite Hrr. rewrite Hrs at 1. rewrite Hss. auto.
Qed.

(** The passes of a loop that ends at the loop test move the bytes left in
    chunks: each chunk is read in full and then written in full, every chunk
    but the last has the size of the buffer, and the last has what is left. *)
Lemma flash_to_file_passes_schedule fd outfd buf filename t size n ok new :
  flash_to_file_passes os fd outfd buf filename t size n ok new ->
  ok = true ->
  (n <= size \/ 0 < size) -> size <= C.INT_MAX -> 0 <= n <= C.INT_MAX ->
  exists cs,
    transfers new = flat_map (fun c => [(true, c, c); (false, c, c)]) cs /\
    sum cs = n /\ cs <> [] /\
    Forall (fun c => 0 <= c <= size) cs /\
    removelast cs = repeat size (List.length cs - 1).
Proof.
  induction 1 as [t size n nb Hb | t size n sz n' nb Hb Hn'
                  | t size n sz n' nb ok new Hb Hn' Hp IH];
    intros Hok Hr Hsize Hn; [discriminate Hok | |].
  - destruct (flash_to_file_body_pass _ _ _ _ _ _ _ _ _ _
                Hsize (proj2 Hn) Hb) as (Hsz & Hn2 & Hpos & r & w & -> & Hrr & Hrw).
    exists [sz]. unfold transfers, pick. cbn. rewrite Hrr, Hrw, <- Hsz.
    split; [reflexivity |].
    assert (Hsn : sz = n).
    { rewrite Hsz in *. destruct (n <=? size) eqn:E; [reflexivity |].
      apply Z.leb_gt in E. lia. }
    split; [lia |]. split; [discriminate |].
    split; [| reflexivity].
    constructor; [| constructor]. rewrite Hsz in *.
    destruct (n <=? size) eqn:E; [apply Z.leb_le in E |]; lia.
  - destruct (flash_to_file_body_pass _ _ _ _ _ _ _ _ _ _
                Hsize (proj2 Hn) Hb) as (Hsz & Hn2 & Hpos & r & w & -> & Hrr & Hrw).
    assert (Hss : (if n <=? size then n else size) = size /\ 0 < size).
    { rewrite Hsz in *. destruct (n <=? size) eqn:E; [lia |].
      apply Z.leb_gt in E. lia. }
    destruct Hss as [Hss Hs0]. rewrite Hss in *. subst sz.
    destruct (IH Hok ltac:(lia) ltac:(lia) ltac:(lia))
      as (cs & Htr & Hsum & Hne & Hall & Hrl).
    exists (size :: cs). unfold transfers in *. rewrite pick_app, Htr.
    unfold pick at 1. cbn [flat_map rev app]. rewrite Hrr, Hrw.
    split; [reflexivity |]. split; [cbn; unfold sum in Hsum; lia |].
    split; [discriminate |]. split; [constructor; [lia | exact Hall] |].
    destruct cs as [| c cs]; [contradiction |].
    cbn [removelast List.length repeat] in *. rewrite Hrl.
    destruct cs; cbn [List.length repeat Nat.sub]; reflexivity.
Qed.

End ReadOut.

(** X1.  A read-out that reports success, of [len] bytes with [len] in the
    range of [int] and with [read] and [write] keeping their contract, moved
    exactly [len] bytes: chunk after chunk was read in full and then written
    in full, every chunk but the last as large as the buffer that was
    granted ([len] bytes, or 64 KiB after the fallback), the last one what
    was left. *)
Theorem read_out_schedule os fd offset len filename t new :
  posix_io os -> 0 <= len <= C.INT_MAX ->
  flash_to_file os fd offset len filename t = Ok 0 (new ++ t) ->
  exists s buf refused cs,
    mallocs new = refused ++ [(s, buf)] /\ buf <> 0 /\
    (s = len \/ s = BUF_SIZE) /\
    transfers new = flat_map (fun c => [(true, c, c); (false, c, c)]) cs /\
    sum cs = len /\ cs <> [] /\
    Forall (fun c => 0 <= c <= s) cs /\
    removelast cs = repeat s (List.length cs - 1).
Proof.
  intros Hp Hlen H. apply flash_to_file_outcome_of in H.
  inversion H as [| | | l c buf size anew lnew fr cl Hl Hc Hbuf Ha Hpass |];
    subst; clear H.
  rewrite (to_int_small len Hlen) in *.
  destruct (flash_to_file_alloc_hands_over os _ _ _ _ _ Ha)
    as (Hae & refused & Hm & Hcase).
  assert (Hs : (size = len \/ size = BUF_SIZE) /\ C.to_size_t size = size).
  { unfold C.INT_MAX in Hlen.
    destruct Hcase as [[_ ->] | (_ & -> & _)].
    - split; [left; reflexivity | apply to_size_t_small; lia].
    - split; [right; reflexivity | reflexivity]. }
  destruct Hs as [Hs Hts]. rewrite Hts in Hm.
  destruct (flash_to_file_passes_schedule os Hp _ _ _ _ _ _ _ _ _ Hpass
              eq_refl)
    as (cs & Htr & Hsum & Hne & Hall & Hrl).
  { destruct Hs as [-> | ->]; [left; lia | right; reflexivity]. }
  { unfold C.INT_MAX in *. destruct Hs as [-> | ->]; [lia | cbv; discriminate]. }
  { exact Hlen. }
  pose proof (flash_to_file_passes_io _ _ _ _ _ _ _ _ _ _ Hpass) as Hio.
  exists size, buf, refused, cs.
  split.
  { rewrite !mallocs_app. cbn [mallocs app].
    rewrite (io_events_mallocs _ Hio), Hm. cbn [app].
    rewrite ?app_nil_r. reflexivity. }
  split; [exact Hbuf |]. split; [exact Hs |].
  split; [| auto].
  unfold transfers in *. rewrite !pick_app, Htr.
  fold transfers. rewrite (alloc_events_transfers _ Hae).
  change (transfers [Sys (Creat filename 438) c; Sys (Lseek fd (ret l)) l])
    with (@nil (bool * Z * Z)).
  match goal with
  | |- context [transfers [?a; ?b; ?c]] =>
    change (transfers [a; b; c]) with (@nil (bool * Z * Z))
  end.
  cbn [app]. rewrite ?app_nil_r. reflexivity.
Qed.

Lemma os_low_memory_posix_io : posix_io os_low_memory.
Proof. split; intros t fd buf count; cbn; lia. Qed.

Lemma read_out_schedule_witness :
  let new := trace_of (flash_to_file os_low_memory 3 0 200000 "img" []) in
  exists s buf refused cs,
    mallocs new = refused ++ [(s, buf)] /\ buf <> 0 /\
    (s = 200000 \/ s = BUF_SIZE) /\
    transfers new = flat_map (fun c => [(true, c, c); (false, c, c)]) cs /\
    sum cs = 200000 /\ cs <> [] /\
    Forall (fun c => 0 <= c <= s) cs /\
    removelast cs = repeat s (List.length cs - 1).
Proof.
  intros new.
  apply (read_out_schedule os_low_memory 3 0 200000 "img" [] new
           os_low_memory_posix_io).
  - unfold C.INT_MAX. lia.
  - vm_compute. reflexivity.
Defined.

(** ** Write-in: the schedule of a copy that reports success *)

Section WriteIn.

Variable os : OS.

(** What a pass of the write-in loop leaves behind: on the way to the loop
    test an item read, the error flag tested, a write; on the way out the
    buffer released and the file closed, once each. *)
Lemma file_to_flash_body_inv fd buf fp size n t x nb :
  file_to_flash_body os fd buf fp size n t = Ok x (nb ++ t) ->
  let sz := if n <=? size then n else size in
  forallb loop_event nb = true /\
  match x with
  | Some (sz', n') =>
    sz' = sz /\ n' = n - sz /\
    exists r e w,
      nb = [Sys (Write fd buf (C.to_size_t sz)) w; Sys (Ferror fp) e;
            Sys (Fread buf (C.to_size_t sz) 1 fp) r] /\
      r = os t (Fread buf (C.to_size_t sz) 1 fp) /\
      ret r = 1 /\ ret e = 0 /\ 0 <= ret w
  | None =>
    frees nb = [buf] /\ fcloses nb = [fp] /\
    freads nb = [C.to_size_t sz]
  end.
Proof.
  intros H sz. rewrite file_to_flash_body_eq in H. cbv zeta in H. fold sz in H.
  destruct (ret (os t (Fread buf (C.to_size_t sz) 1 fp)) =? 1) eqn:E1;
    cbn [negb] in H.
  2:{ trace_inv H t. subst. repeat split; reflexivity. }
  match type of H with
  | context [negb (ret ?e =? 0)] => destruct (ret e =? 0) eqn:E2
  end; cbn [negb] in H.
  2:{ trace_inv H t. subst. repeat split; reflexivity. }
  match type of H with
  | context [ret ?w <? 0] => destruct (ret w <? 0) eqn:E3
  end.
  - trace_inv H t. subst. repeat split; reflexivity.
  - trace_inv H t. subst. split; [reflexivity |].
    split; [reflexivity |]. split; [reflexivity |].
    eexists _, _, _. split; [reflexivity |]. split; [reflexivity |].
    apply Z.eqb_eq in E1, E2. apply Z.ltb_ge in E3. auto.
Qed.

Lemma file_to_flash_passes_schedule fd buf fp t size n ok new :
  file_to_flash_passes os fd buf fp t size n ok new ->
  ok = true ->
  (n <= size \/ 0 < size) -> size <= C.INT_MAX -> 0 <= n <= C.INT_MAX ->
  exists cs,
    freads new = cs /\ map fst (writes new) = cs /\
    Forall (fun w => 0 <= snd w) (writes new) /\
    forallb loop_event new = true /\
    frees new = [] /\ fcloses new = [] /\
    sum cs = n /\ cs <> [] /\
    Forall (fun c => 0 <= c <= size) cs /\
    removelast cs = repeat size (List.length cs - 1).
Proof.
  induction 1 as [t size n nb Hb | t size n sz n' nb Hb Hn'
                  | t size n sz n' nb ok new Hb Hn' Hp IH];
    intros Hok Hr Hsize Hn; [discriminate Hok | |].
  - destruct (file_to_flash_body_inv _ _ _ _ _ _ _ _ Hb)
      as (Hev & Hsz & Hn2 & r & e & w & -> & _ & Hrr & He & Hw).
    assert (Hsn : (if n <=? size then n else size) = n).
    { rewrite Hsz in *. destruct (n <=? size) eqn:E; [reflexivity |].
      apply Z.leb_gt in E. lia. }
    rewrite Hsn in *.
    assert (Hts : C.to_size_t n = n)
      by (apply to_size_t_small; unfold C.INT_MAX in *; lia).
    exists [n]. unfold freads, writes, frees, fcloses, pick. cbn.
    rewrite Hts.
    repeat split; try reflexivity; try lia; try discriminate.
    + constructor; [exact Hw | constructor].
    + constructor; [| constructor].
      destruct (n <=? size) eqn:E; [apply Z.leb_le in E |]; lia.
  - destruct (file_to_flash_body_inv _ _ _ _ _ _ _ _ Hb)
      as (Hev & Hsz & Hn2 & r & e & w & -> & _ & Hrr & He & Hw).
    assert (Hss : (if n <=? size then n else size) = size /\ 0 < size).
    { rewrite Hsz in *. destruct (n <=? size) eqn:E; [lia |].
      apply Z.leb_gt in E. lia. }
    destruct Hss as [Hss Hs0]. rewrite Hss in *. subst sz.
    assert (Hts : C.to_size_t size = size)
      by (apply to_size_t_small; unfold C.INT_MAX in *; lia).
    destruct (IH Hok ltac:(lia) ltac:(lia) ltac:(lia))
      as (cs & Hfr & Hwr & Hwpos & Hle & Hfree & Hfcl & Hsum & Hne & Hall & Hrl).
    exists (size :: cs). unfold freads, writes, frees, fcloses in *.
    rewrite !pick_app, Hfr, Hfree, Hfcl, map_app, Hwr. rewrite forallb_app, Hle.
    unfold pick at 1 2 3 4 5. cbn [flat_map rev app map fst]. rewrite Hts.
    split; [reflexivity |]. split; [reflexivity |].
    split; [constructor; [exact Hw | exact Hwpos] |].
    split; [reflexivity |]. split; [reflexivity |]. split; [reflexivity |].
    split; [cbn; unfold sum in Hsum; lia |].
    split; [discriminate |]. split; [constructor; [lia | exact Hall] |].
    destruct cs as [| c cs]; [contradiction |].
    cbn [removelast List.length repeat] in *. rewrite Hrl.
    destruct cs; cbn [List.length repeat Nat.sub]; reflexivity.
Qed.

Lemma file_to_flash_passes_releases fd buf fp t size n ok new :
  file_to_flash_passes os fd buf fp t size n ok new ->
  forallb loop_event new = true /\
  frees new = (if ok then [] else [buf]) /\
  fcloses new = (if ok then [] else [fp]).
Proof.
  induction 1 as [t size n nb Hb | t size n sz n' nb Hb Hn'
                  | t size n sz n' nb ok new Hb Hn' Hp IH].
  - destruct (file_to_flash_body_inv _ _ _ _ _ _ _ _ Hb) as (Hev & Hf & Hc & _).
    auto.
  - destruct (file_to_flash_body_inv _ _ _ _ _ _ _ _ Hb)
      as (Hev & _ & _ & r & e & w & -> & _).
    repeat split; reflexivity.
  - destruct (file_to_flash_body_inv _ _ _ _ _ _ _ _ Hb)
      as (Hev & _ & _ & r & e & w & -> & _).
    destruct IH as (Hle & Hfree & Hfcl).
    unfold frees, fcloses in *. rewrite !pick_app, Hfree, Hfcl.
    rewrite forallb_app, Hle. repeat split; reflexivity.
Qed.

End WriteIn.

Lemma alloc_events_pick {A} (f : syscall -> reply -> option A) l :
  (forall size r, f (Malloc size) r = None) ->
  forallb alloc_event l = true -> pick f l = [].
Proof.
  intros Hf. apply pick_none. intros c r H.
  destruct c; try discriminate H. apply Hf.
Qed.

Lemma loop_events_pick {A} (f : syscall -> reply -> option A) l :
  (forall c r, loop_event (Sys c r) = true -> f c r = None) ->
  forallb loop_event l = true -> pick f l = [].
Proof. apply pick_none. Qed.

(** X2.  A write-in that reports success, of [len] bytes with [len] in the
    range of [int], asked the file for exactly [len] bytes and handed exactly
    [len] bytes to [write], chunk by chunk: every chunk but the last as large
    as the buffer that was granted, the last one what was left.  Of the
    counts that [write] returned it is only known that none was negative. *)
Theorem write_in_schedule os fd offset len filename t new :
  0 <= len <= C.INT_MAX ->
  file_to_flash os fd offset len filename t = Ok 0 (new ++ t) ->
  exists s buf refused cs,
    mallocs new = refused ++ [(s, buf)] /\ buf <> 0 /\
    (s = len \/ s = BUF_SIZE) /\
    freads new = cs /\ map fst (writes new) = cs /\
    Forall (fun w => 0 <= snd w) (writes new) /\
    sum cs = len /\ cs <> [] /\
    Forall (fun c => 0 <= c <= s) cs /\
    removelast cs = repeat s (List.length cs - 1).
Proof.
  intros Hlen H. apply file_to_flash_outcome_of in H.
  inversion H as [| | | l c buf size anew lnew fr cl Hl Hc Hbuf Ha Hpass |];
    subst; clear H.
  rewrite (to_int_small len Hlen) in *.
  destruct (file_to_flash_alloc_hands_over os _ _ _ _ _ Ha)
    as (Hae & refused & Hm & Hcase).
  assert (Hs : (size = len \/ size = BUF_SIZE) /\ C.to_size_t size = size).
  { unfold C.INT_MAX in Hlen.
    destruct Hcase as [[_ ->] | (_ & -> & _)].
    - split; [left; reflexivity | apply to_size_t_small; lia].
    - split; [right; reflexivity | reflexivity]. }
  destruct Hs as [Hs Hts]. rewrite Hts in Hm.
  destruct (file_to_flash_passes_schedule os _ _ _ _ _ _ _ _ Hpass eq_refl)
    as (cs & Hfr & Hwr & Hwpos & Hle & _ & _ & Hsum & Hne & Hall & Hrl).
  { destruct Hs as [-> | ->]; [left; lia | right; reflexivity]. }
  { unfold C.INT_MAX in *. destruct Hs as [-> | ->]; [lia | cbv; discriminate]. }
  { exact Hlen. }
  exists size, buf, refused, cs.
  split.
  { rewrite !mallocs_app. cbn [mallocs app].
    rewrite (loop_event_mallocs _ Hle), Hm. cbn [app].
    rewrite ?app_nil_r. reflexivity. }
  split; [exact Hbuf |]. split; [exact Hs |].
  unfold freads, writes in *. rewrite !pick_app, Hfr.
  rewrite !(alloc_events_pick _ anew) by (auto; reflexivity).
  unfold pick at 1 2 4 5. cbn [flat_map rev app].
  rewrite ?app_nil_r. auto 10.
Qed.

Lemma write_in_schedule_witness :
  let new := trace_of (file_to_flash os_low_memory 3 0 200000 "img" []) in
  exists s buf refused cs,
    mallocs new = refused ++ [(s, buf)] /\ buf <> 0 /\
    (s = 200000 \/ s = BUF_SIZE) /\
    freads new = cs /\ map fst (writes new) = cs /\
    Forall (fun w => 0 <= snd w) (writes new) /\
    sum cs = 200000 /\ cs <> [] /\
    Forall (fun c => 0 <= c <= s) cs /\
    removelast cs = repeat s (List.length cs - 1).
Proof.
  intros new.
  apply (write_in_schedule os_low_memory 3 0 200000 "img" [] new).
  - unfold C.INT_MAX. lia.
  - vm_compute. reflexivity.
Defined.

(** ** Lengths at the edges of [int] *)

Lemma to_int_big z : C.INT_MAX < z < 2 ^ 32 -> C.to_int z = z - 2 ^ 32.
Proof.
  unfold C.to_int, C.INT_MAX. intros H.
  rewrite Z.mod_small by lia.
  destruct (z <? 2 ^ 31) eqn:E; [apply Z.ltb_lt in E; lia | reflexivity].
Qed.

Lemma to_size_t_wrapped z : 2 ^ 31 <= z < 2 ^ 32 -> C.to_size_t (z - 2 ^ 32) = z.
Proof.
  intros H. unfold C.to_size_t.
  replace (z - 2 ^ 32) with (z + (-1) * 2 ^ 32) by lia.
  rewrite Z.mod_add by lia. apply Z.mod_small. lia.
Qed.

(** No pass of the read-out loop reaches the loop test with a negative
    count of bytes left. *)
Lemma flash_to_file_body_negative os fd outfd buf filename t size n sz n' nb :
  flash_to_file_body os fd outfd buf filename size n t
    = Ok (Some (sz, n')) (nb ++ t) ->
  n < 0 -> False.
Proof.
  intros H Hn.
  destruct (flash_to_file_body_total os fd outfd buf filename size n t)
    as (x0 & nb0 & H0 & _ & Hx).
  rewrite H0 in H. injection H as -> _. destruct Hx as (Hsz & _ & Hpos).
  destruct (n <=? size) eqn:E; [| apply Z.leb_gt in E]; lia.
Qed.

Lemma flash_to_file_passes_negative os fd outfd buf filename t size n new :
  flash_to_file_passes os fd outfd buf filename t size n true new ->
  n < 0 -> False.
Proof.
  intros Hp Hn.
  inversion Hp; subst; eapply flash_to_file_body_negative; eassumption.
Qed.

(** A request that is granted ends the [retry:] block at once. *)
Lemma flash_to_file_alloc_granted os size t :
  let m := Malloc (C.to_size_t size) in
  ret (os t m) <> 0 ->
  flash_to_file_alloc os 2 size t = Ok (ret (os t m), size) ([Sys m (os t m)] ++ t).
Proof.
  intros m H. cbn [flash_to_file_alloc]. run. fold m.
  rewrite (proj2 (Z.eqb_neq _ _) H). reflexivity.
Qed.

(** Each pass of the read-out loop makes one read, of the chunk, and this is
    what came back. *)
Lemma flash_to_file_body_read os fd outfd buf filename size n t x nb :
  flash_to_file_body os fd outfd buf filename size n t = Ok x (nb ++ t) ->
  let count := C.to_size_t (if n <=? size then n else size) in
  reads nb = [(count, ret (os t (Read fd buf count)))].
Proof.
  intros H. rewrite flash_to_file_body_eq in H. cbv zeta in *.
  set (sz := if n <=? size then n else size) in *.
  set (r := os t (Read fd buf (C.to_size_t sz))) in *.
  destruct (ret r <? 0); [trace_inv H t; subst; reflexivity |].
  destruct (ret r <? sz);
    repeat match type of H with
           | context [if ?b then _ else _] => destruct b
           end; trace_inv H t; subst; reflexivity.
Qed.

(** X3.  A read-out of 2 GiB or more never reports success, even when the
    whole length is granted as the buffer and [read] delivers no more than
    it is asked for: the length does not fit [int], the count of bytes left
    starts out negative, and no pass can reach the loop test.  The buffer in
    use holds the whole length, and every read asks for the whole length and
    gets no more.  (What is asked of the 64 KiB buffer, when the whole
    length is refused, is the matter of the next theorem.) *)
Theorem read_out_of_2GiB_fails os fd offset len filename t :
  2 ^ 31 <= len < 2 ^ 32 ->
  (forall t', ret (os t' (Malloc len)) <> 0) ->
  (forall t' buf, ret (os t' (Read fd buf len)) <= len) ->
  exists new,
    flash_to_file os fd offset len filename t = Ok 1 (new ++ t) /\
    (mallocs new = [] \/ exists p, p <> 0 /\ mallocs new = [(len, p)]) /\
    Forall (fun rd => fst rd = len /\ snd rd <= len) (reads new).
Proof.
  intros Hlen Hgrant Hread.
  assert (Hn : C.to_int len = len - 2 ^ 32)
    by (apply to_int_big; unfold C.INT_MAX; lia).
  assert (Hback : C.to_size_t (len - 2 ^ 32) = len)
    by (apply to_size_t_wrapped; exact Hlen).
  assert (Halloc : forall t0,
             flash_to_file_alloc os 2 (C.to_int len) t0 =
             Ok (ret (os t0 (Malloc len)), len - 2 ^ 32)
                ([Sys (Malloc len) (os t0 (Malloc len))] ++ t0)).
  { intros t0.
    pose proof (flash_to_file_alloc_granted os (len - 2 ^ 32) t0) as H.
    cbv zeta in H. rewrite Hback in H. rewrite Hn. apply H. apply Hgrant. }
  destruct (flash_to_file_outcome_run os fd offset len filename t)
    as (r & new & Hrun & Hout).
  exists new.
  inversion Hout as [l Hl Hne | l c Hl Hc
                     | l c size anew fr cl Hl Hc Ha
                     | l c buf size anew lnew fr cl Hl Hc Hbuf Ha Hpass
                     | l c buf size anew lnew fr cl Hl Hc Hbuf Ha Hpass];
    subst.
  - split; [exact Hrun |]. split; [left; reflexivity | constructor].
  - split; [exact Hrun |]. split; [left; reflexivity | constructor].
  - exfalso. rewrite Halloc in Ha. injection Ha as Ha _ _.
    apply (Hgrant _ Ha).
  - exfalso. apply (flash_to_file_passes_negative _ _ _ _ _ _ _ _ _ Hpass).
    lia.
  - split; [exact Hrun |].
    rewrite Halloc in Ha. injection Ha as Hb Hs Ha.
    apply (app_inv_tail _ [_] anew) in Ha. subst anew size buf.
    pose proof (flash_to_file_passes_io _ _ _ _ _ _ _ _ _ _ Hpass) as Hio.
    split.
    + right. eexists. split; [exact Hbuf |].
      rewrite !mallocs_app. cbn [mallocs app].
      rewrite (io_events_mallocs _ Hio). reflexivity.
    + rewrite Hn in Hpass.
      inversion Hpass as [t0 s0 n0 nb Hbody | |
                          t0 s0 n0 sz n' nb ok0 new0 Hbody Hn' Hp]; subst.
      * apply flash_to_file_body_read in Hbody. cbv zeta in Hbody.
        rewrite Z.leb_refl, Hback in Hbody.
        unfold reads in *. rewrite !pick_app, Hbody.
        unfold pick. cbn. constructor; [| constructor].
        split; [reflexivity | apply Hread].
      * exfalso. eapply flash_to_file_body_negative; [exact Hbody | lia].
Qed.

Lemma read_out_of_2GiB_fails_witness :
  exists new,
    flash_to_file os_short_device_read 3 0 2147483648 "img" []
      = Ok 1 (new ++ []) /\
    (mallocs new = [] \/ exists p, p <> 0 /\ mallocs new = [(2147483648, p)]) /\
    Forall (fun rd => fst rd = 2147483648 /\ snd rd <= 2147483648) (reads new).
Proof.
  apply (read_out_of_2GiB_fails os_short_device_read 3 0 2147483648 "img" []).
  - lia.
  - intros t'. cbn. discriminate.
  - intros t' buf. vm_compute. discriminate.
Defined.

(** Each pass of the read-out loop makes one read, of the chunk. *)
Lemma flash_to_file_body_reads os fd outfd buf filename size n t x nb :
  flash_to_file_body os fd outfd buf filename size n t = Ok x (nb ++ t) ->
  exists rr,
    reads nb = [(C.to_size_t (if n <=? size then n else size), rr)].
Proof.
  intros H. rewrite flash_to_file_body_eq in H. cbv zeta in H.
  set (sz := if n <=? size then n else size) in *.
  set (r := os t (Read fd buf (C.to_size_t sz))) in H.
  exists (ret r).
  destruct (ret r <? 0); [trace_inv H t; subst; reflexivity |].
  destruct (ret r <? sz);
    repeat match type of H with
           | context [if ?b then _ else _] => destruct b
           end; trace_inv H t; subst; reflexivity.
Qed.

(** X4.  With a length of 2 GiB or more, once the buffer is the 64 KiB one
    of the fallback, both directions ask for the whole length in a single
    call on that buffer: the chunk is cut to the bytes left, and the count
    of bytes left, negative as an [int], is the whole length again as a
    [size_t]. *)
Theorem whole_length_asked_of_fallback_buffer os fd offset len filename t :
  2 ^ 31 <= len < 2 ^ 32 ->
  (forall r new buf,
     flash_to_file os fd offset len filename t = Ok r (new ++ t) ->
     mallocs new = [(len, 0); (BUF_SIZE, buf)] -> buf <> 0 ->
     exists rr, reads new = [(len, rr)]) /\
  (forall r new buf,
     file_to_flash os fd offset len filename t = Ok r (new ++ t) ->
     mallocs new = [(len, 0); (BUF_SIZE, buf)] -> buf <> 0 ->
     freads new = [len]).
Proof.
  intros Hlen.
  assert (Hn : C.to_int len = len - 2 ^ 32)
    by (apply to_int_big; unfold C.INT_MAX; lia).
  assert (Hnn : len - 2 ^ 32 < 0) by lia.
  assert (Hsz : (if len - 2 ^ 32 <=? BUF_SIZE then len - 2 ^ 32 else BUF_SIZE)
                = len - 2 ^ 32).
  { destruct (len - 2 ^ 32 <=? BUF_SIZE) eqn:E; [reflexivity |].
    apply Z.leb_gt in E. unfold BUF_SIZE in E. lia. }
  split; intros r new buf H Hm Hbuf.
  - apply flash_to_file_outcome_of in H.
    inversion H as [l Hl Hne | l c Hl Hc
                    | l c size anew fr cl Hl Hc Ha
                    | l c buf' size anew lnew fr cl Hl Hc Hbuf' Ha Hpass
                    | l c buf' size anew lnew fr cl Hl Hc Hbuf' Ha Hpass];
      subst; clear H; try discriminate Hm.
    + exfalso.
      destruct (flash_to_file_alloc_hands_over os _ _ _ _ _ Ha)
        as (Hae & refused & Hm' & _).
      rewrite !mallocs_app in Hm. cbn [mallocs app] in Hm. rewrite Hm' in Hm.
      destruct refused as [| m1 [| m2 refused]]; cbn [app] in Hm;
        [discriminate Hm | | destruct refused; discriminate Hm].
      injection Hm as _ Hm. congruence.
    + exfalso. apply (flash_to_file_passes_negative _ _ _ _ _ _ _ _ _ Hpass).
      lia.
    + destruct (flash_to_file_alloc_hands_over os _ _ _ _ _ Ha)
        as (Hae & refused & Hm' & Hcase).
      pose proof (flash_to_file_passes_io _ _ _ _ _ _ _ _ _ _ Hpass) as Hio.
      rewrite !mallocs_app in Hm. cbn [mallocs app] in Hm.
      rewrite (io_events_mallocs _ Hio), Hm' in Hm. cbn [app] in Hm.
      rewrite app_nil_r in Hm.
      assert (Hsize : size = BUF_SIZE).
      { destruct Hcase as [[-> _] | (_ & Hs & _)]; [discriminate Hm | exact Hs]. }
      subst size. rewrite Hn in Hpass.
      assert (Hone : exists rr, reads lnew = [(len, rr)]).
      { inversion Hpass as [t0 s0 n0 nb Hb | | t0 s0 n0 sz n' nb ok0 new0 Hb Hn' Hp];
          subst.
        - destruct (flash_to_file_body_reads _ _ _ _ _ _ _ _ _ _ Hb) as [rr Hr].
          exists rr. rewrite Hr, Hsz, to_size_t_wrapped by exact Hlen.
          reflexivity.
        - exfalso. eapply flash_to_file_body_negative; [exact Hb | lia]. }
      destruct Hone as [rr Hr]. exists rr.
      unfold reads in *. rewrite !pick_app, Hr.
      rewrite (alloc_events_pick _ anew) by (auto; reflexivity).
      reflexivity.
  - assert (Hone : forall fd buf fp t ok lnew,
               file_to_flash_passes os fd buf fp t BUF_SIZE (len - 2 ^ 32)
                 ok lnew ->
               freads lnew = [len]).
    { intros fd0 buf0 fp0 t0 ok lnew Hp.
      inversion Hp as [t1 s1 n1 nb Hb | t1 s1 n1 sz n' nb Hb Hn'
                       | t1 s1 n1 sz n' nb ok1 new1 Hb Hn' Hp1]; subst.
      - destruct (file_to_flash_body_inv _ _ _ _ _ _ _ _ _ Hb)
          as (_ & _ & _ & Hf).
        rewrite Hf, Hsz, to_size_t_wrapped by exact Hlen. reflexivity.
      - destruct (file_to_flash_body_inv _ _ _ _ _ _ _ _ _ Hb)
          as (_ & _ & _ & r0 & e0 & w0 & -> & _).
        rewrite Hsz, to_size_t_wrapped by exact Hlen. reflexivity.
      - exfalso.
        destruct (file_to_flash_body_inv _ _ _ _ _ _ _ _ _ Hb)
          as (_ & _ & Hn2 & _).
        rewrite Hsz in Hn2. lia. }
    apply file_to_flash_outcome_of in H.
    inversion H as [l Hl Hne | l c Hl Hc
                    | l c size anew cl Hl Hc Ha
                    | l c buf' size anew lnew fr cl Hl Hc Hbuf' Ha Hpass
                    | l c buf' size anew lnew Hl Hc Hbuf' Ha Hpass];
      subst; clear H; try discriminate Hm.
    + exfalso.
      destruct (file_to_flash_alloc_hands_over os _ _ _ _ _ Ha)
        as (Hae & refused & Hm' & _).
      rewrite !mallocs_app in Hm. cbn [mallocs app] in Hm. rewrite Hm' in Hm.
      destruct refused as [| m1 [| m2 refused]]; cbn [app] in Hm;
        [discriminate Hm | | destruct refused; discriminate Hm].
      injection Hm as _ Hm. congruence.
    + destruct (file_to_flash_alloc_hands_over os _ _ _ _ _ Ha)
        as (Hae & refused & Hm' & Hcase).
      destruct (file_to_flash_passes_releases _ _ _ _ _ _ _ _ _ Hpass)
        as (Hle & _).
      rewrite !mallocs_app in Hm. cbn [mallocs app] in Hm.
      rewrite (loop_event_mallocs _ Hle), Hm' in Hm. cbn [app] in Hm.
      rewrite app_nil_r in Hm.
      assert (Hsize : size = BUF_SIZE).
      { destruct Hcase as [[-> _] | (_ & Hs & _)]; [discriminate Hm | exact Hs]. }
      subst size. rewrite Hn in Hpass.
      unfold freads. rewrite !pick_app. fold freads.
      rewrite (Hone _ _ _ _ _ _ Hpass).
      unfold freads. rewrite (alloc_events_pick _ anew) by (auto; reflexivity).
      reflexivity.
    + destruct (file_to_flash_alloc_hands_over os _ _ _ _ _ Ha)
        as (Hae & refused & Hm' & Hcase).
      destruct (file_to_flash_passes_releases _ _ _ _ _ _ _ _ _ Hpass)
        as (Hle & _).
      rewrite !mallocs_app in Hm. cbn [mallocs app] in Hm.
      rewrite (loop_event_mallocs _ Hle), Hm' in Hm. cbn [app] in Hm.
      assert (Hsize : size = BUF_SIZE).
      { destruct Hcase as [[-> _] | (_ & Hs & _)]; [discriminate Hm | exact Hs]. }
      subst size. rewrite Hn in Hpass.
      unfold freads. rewrite !pick_app. fold freads.
      rewrite (Hone _ _ _ _ _ _ Hpass).
      unfold freads. rewrite (alloc_events_pick _ anew) by (auto; reflexivity).
      reflexivity.
Qed.

Lemma whole_length_asked_of_fallback_buffer_witness :
  (exists rr,
     reads (trace_of (flash_to_file os_low_memory 3 0 2147483648 "img" []))
     = [(2147483648, rr)]) /\
  freads (trace_of (file_to_flash os_low_memory 3 0 2147483648 "img" []))
  = [2147483648].
Proof.
  destruct (whole_length_asked_of_fallback_buffer os_low_memory 3 0
              2147483648 "img" [] ltac:(lia)) as [Hr Hw].
  split.
  - apply (Hr 1 _ 8192); [vm_compute; reflexivity | reflexivity |].
    discriminate.
  - apply (Hw 0 _ 8192); [vm_compute; reflexivity | reflexivity |].
    discriminate.
Defined.

(** X5.  A write-in of zero bytes never reports success and never writes:
    the one item asked of the file has size 0, for which [fread] returns 0
    and not 1.  (A read-out of zero bytes has no such obstacle.) *)
Theorem write_in_of_nothing_fails os fd offset filename t :
  (forall t' buf nmemb fp, ret (os t' (Fread buf 0 nmemb fp)) = 0) ->
  exists new,
    file_to_flash os fd offset 0 filename t = Ok 1 (new ++ t) /\
    writes new = [].
Proof.
  intros Hfread.
  assert (Hpass : forall fd buf fp t size ok lnew,
             0 <= size ->
             file_to_flash_passes os fd buf fp t size 0 ok lnew ->
             ok = false /\ writes lnew = []).
  { intros fd0 buf0 fp0 t0 size ok lnew Hsize Hp.
    assert (Hb0 : exists nb,
               file_to_flash_body os fd0 buf0 fp0 size 0 t0 = Ok None (nb ++ t0) /\
               writes nb = []).
    { rewrite file_to_flash_body_eq. cbv zeta.
      replace (if 0 <=? size then 0 else size) with 0
        by (destruct (0 <=? size) eqn:E; [reflexivity | apply Z.leb_gt in E; lia]).
      change (C.to_size_t 0) with 0. rewrite Hfread. cbn [Z.eqb negb].
      eexists [_; _; _; _; _]. split; reflexivity. }
    destruct Hb0 as (nb0 & Hb0 & Hw0).
    inversion Hp as [t1 s1 n1 nb Hb | t1 s1 n1 sz n' nb Hb Hn'
                     | t1 s1 n1 sz n' nb ok1 new1 Hb Hn' Hp1]; subst;
      rewrite Hb0 in Hb; try discriminate Hb.
    injection Hb as Hb. apply app_inv_tail in Hb. subst nb0. auto. }
  destruct (file_to_flash_outcome_run os fd offset 0 filename t)
    as (r & new & Hrun & Hout).
  exists new.
  inversion Hout as [l Hl Hne | l c Hl Hc
                     | l c size anew cl Hl Hc Ha
                     | l c buf size anew lnew fr cl Hl Hc Hbuf Ha Hp
                     | l c buf size anew lnew Hl Hc Hbuf Ha Hp];
    subst; try (split; [exact Hrun | reflexivity]).
  - split; [exact Hrun |].
    destruct (file_to_flash_alloc_hands_over os _ _ _ _ _ Ha) as (Hae & _).
    unfold writes. rewrite !pick_app.
    rewrite (alloc_events_pick _ anew) by (auto; reflexivity). reflexivity.
  - exfalso.
    destruct (file_to_flash_alloc_hands_over os _ _ _ _ _ Ha)
      as (_ & refused & _ & Hcase).
    destruct (Hpass _ _ _ _ size _ _ ltac:(destruct Hcase as [[_ ->] | (_ & -> & _)]; cbv; discriminate) Hp)
      as [Hok _].
    discriminate Hok.
  - split; [exact Hrun |].
    destruct (file_to_flash_alloc_hands_over os _ _ _ _ _ Ha)
      as (Hae & refused & _ & Hcase).
    destruct (Hpass _ _ _ _ size _ _ ltac:(destruct Hcase as [[_ ->] | (_ & -> & _)]; cbv; discriminate) Hp)
      as [_ Hw].
    unfold writes in *. rewrite !pick_app, Hw.
    rewrite (alloc_events_pick _ anew) by (auto; reflexivity). reflexivity.
Qed.

Lemma write_in_of_nothing_fails_witness :
  exists new,
    file_to_flash os_short_file 3 0 0 "img" [] = Ok 1 (new ++ []) /\
    writes new = [].
Proof.
  apply (write_in_of_nothing_fails os_short_file 3 0 "img" []).
  intros t' buf nmemb fp. reflexivity.
Defined.

(** ** What is obtained is released *)

Lemma io_events_pick {A} (f : syscall -> reply -> option A) l :
  (forall fd buf n r, f (Read fd buf n) r = None) ->
  (forall fd buf n r, f (Write fd buf n) r = None) ->
  forallb io_event l = true -> pick f l = [].
Proof.
  intros Hr Hw. apply pick_none. intros c r H.
  destruct c; try discriminate H; auto.
Qed.

(** X6.  In every read-out of a length in the range of [int], with [read]
    and [write] keeping their contract, the file that [creat] opened is
    closed exactly once, and nothing else is closed; there is one call of
    [free], with the pointer that the last [malloc] returned (NULL when that
    was refused), every earlier [malloc] having returned NULL; and a
    read-out that stops before allocating neither allocates nor frees. *)
Theorem read_out_releases os fd offset len filename t :
  posix_io os -> 0 <= len <= C.INT_MAX ->
  exists r new,
    flash_to_file os fd offset len filename t = Ok r (new ++ t) /\
    closes new = filter (fun fd => 0 <=? fd) (creats new) /\
    (List.length (creats new) <= 1)%nat /\
    ((mallocs new = [] /\ frees new = []) \/
     exists refused s p,
       mallocs new = refused ++ [(s, p)] /\
       Forall (fun m => snd m = 0) refused /\
       frees new = [p]).
Proof.
  intros _ _.
  destruct (flash_to_file_outcome_run os fd offset len filename t)
    as (r & new & Hrun & Hout).
  exists r, new. split; [exact Hrun |].
  assert (Hrefused : forall size buf size' anew t0,
             flash_to_file_alloc os 2 size t0 = Ok (buf, size') (anew ++ t0) ->
             forallb alloc_event anew = true /\
             exists refused s,
               mallocs anew = refused ++ [(s, buf)] /\
               Forall (fun m => snd m = 0) refused).
  { intros size buf size' anew t0 Ha.
    destruct (flash_to_file_alloc_hands_over os _ _ _ _ _ Ha)
      as (Hae & refused & Hm & Hcase).
    split; [exact Hae |]. exists refused, (C.to_size_t size').
    split; [exact Hm |].
    destruct Hcase as [[-> _] | (-> & _)]; repeat constructor. }
  inversion Hout as [l Hl Hne | l c Hl Hc
                     | l c size anew fr cl Hl Hc Ha
                     | l c buf size anew lnew fr cl Hl Hc Hbuf Ha Hp
                     | l c buf size anew lnew fr cl Hl Hc Hbuf Ha Hp];
    subst; clear Hout.
  - unfold closes, creats, frees, pick. cbn. split; [reflexivity | split; [cbn; lia | left; split; reflexivity]].
  - unfold closes, creats, frees, pick. cbn.
    rewrite (proj2 (Z.leb_gt _ _) Hc). split; [reflexivity | split; [cbn; lia | left; split; reflexivity]].
  - destruct (Hrefused _ _ _ _ _ Ha) as (Hae & refused & s & Hm & Hall).
    unfold closes, creats, frees. rewrite !pick_app, !mallocs_app.
    rewrite !(alloc_events_pick _ anew) by (auto; reflexivity).
    rewrite Hm. unfold pick. cbn. rewrite (proj2 (Z.leb_le _ _) Hc).
    split; [reflexivity |]. split; [lia |]. right.
    exists refused, s, 0. rewrite ?app_nil_r. auto.
  - destruct (Hrefused _ _ _ _ _ Ha) as (Hae & refused & s & Hm & Hall).
    pose proof (flash_to_file_passes_io _ _ _ _ _ _ _ _ _ _ Hp) as Hio.
    unfold closes, creats, frees. rewrite !pick_app, !mallocs_app.
    rewrite !(alloc_events_pick _ anew) by (auto; reflexivity).
    rewrite !(io_events_pick _ lnew) by (auto; reflexivity).
    rewrite (io_events_mallocs _ Hio), Hm.
    unfold pick. cbn. rewrite (proj2 (Z.leb_le _ _) Hc).
    split; [reflexivity |]. split; [lia |]. right.
    exists refused, s, buf. rewrite ?app_nil_r. auto.
  - destruct (Hrefused _ _ _ _ _ Ha) as (Hae & refused & s & Hm & Hall).
    pose proof (flash_to_file_passes_io _ _ _ _ _ _ _ _ _ _ Hp) as Hio.
    unfold closes, creats, frees. rewrite !pick_app, !mallocs_app.
    rewrite !(alloc_events_pick _ anew) by (auto; reflexivity).
    rewrite !(io_events_pick _ lnew) by (auto; reflexivity).
    rewrite (io_events_mallocs _ Hio), Hm.
    unfold pick. cbn. rewrite (proj2 (Z.leb_le _ _) Hc).
    split; [reflexivity |]. split; [lia |]. right.
    exists refused, s, buf. rewrite ?app_nil_r. auto.
Qed.

Lemma read_out_releases_witness :
  exists r new,
    flash_to_file os_low_memory 3 0 200000 "img" [] = Ok r (new ++ []) /\
    closes new = filter (fun fd => 0 <=? fd) (creats new) /\
    (List.length (creats new) <= 1)%nat /\
    ((mallocs new = [] /\ frees new = []) \/
     exists refused s p,
       mallocs new = refused ++ [(s, p)] /\
       Forall (fun m => snd m = 0) refused /\
       frees new = [p]).
Proof.
  apply (read_out_releases os_low_memory 3 0 200000 "img" []
           os_low_memory_posix_io).
  unfold C.INT_MAX. lia.
Defined.

(** X7.  In every write-in of a length in the range of [int], the file that
    [fopen] opened is closed exactly once, and nothing else is closed; the
    buffer that [malloc] granted is freed exactly once, nothing is freed
    when every request was refused, and every request before the last was
    refused. *)
Theorem write_in_releases os fd offset len filename t :
  0 <= len <= C.INT_MAX ->
  exists r new,
    file_to_flash os fd offset len filename t = Ok r (new ++ t) /\
    fcloses new = filter (fun fp => negb (fp =? 0)) (fopens new) /\
    (List.length (fopens new) <= 1)%nat /\
    ((mallocs new = [] /\ frees new = []) \/
     exists refused s p,
       mallocs new = refused ++ [(s, p)] /\
       Forall (fun m => snd m = 0) refused /\
       frees new = (if p =? 0 then [] else [p])).
Proof.
  intros _.
  destruct (file_to_flash_outcome_run os fd offset len filename t)
    as (r & new & Hrun & Hout).
  exists r, new. split; [exact Hrun |].
  assert (Hrefused : forall size buf size' anew t0,
             file_to_flash_alloc os 2 size t0 = Ok (buf, size') (anew ++ t0) ->
             forallb alloc_event anew = true /\
             exists refused s,
               mallocs anew = refused ++ [(s, buf)] /\
               Forall (fun m => snd m = 0) refused).
  { intros size buf size' anew t0 Ha.
    destruct (file_to_flash_alloc_hands_over os _ _ _ _ _ Ha)
      as (Hae & refused & Hm & Hcase).
    split; [exact Hae |]. exists refused, (C.to_size_t size').
    split; [exact Hm |].
    destruct Hcase as [[-> _] | (-> & _)]; repeat constructor. }
  assert (Hloop : forall (f : syscall -> reply -> option Z) l,
             (forall c r, loop_event (Sys c r) = true -> f c r = None) ->
             forallb loop_event l = true -> pick f l = [])
    by (intros f l; apply pick_none).
  inversion Hout as [l Hl Hne | l c Hl Hc
                     | l c size anew cl Hl Hc Ha
                     | l c buf size anew lnew fr cl Hl Hc Hbuf Ha Hp
                     | l c buf size anew lnew Hl Hc Hbuf Ha Hp];
    subst; clear Hout.
  - unfold fcloses, fopens, frees, pick. cbn. split; [reflexivity | split; [cbn; lia | left; split; reflexivity]].
  - unfold fcloses, fopens, frees, pick. cbn.
    rewrite Hc. cbn. split; [reflexivity | split; [cbn; lia | left; split; reflexivity]].
  - destruct (Hrefused _ _ _ _ _ Ha) as (Hae & refused & s & Hm & Hall).
    unfold fcloses, fopens, frees. rewrite !pick_app, !mallocs_app.
    rewrite !(alloc_events_pick _ anew) by (auto; reflexivity).
    rewrite Hm. unfold pick. cbn.
    rewrite (proj2 (Z.eqb_neq _ _) Hc). cbn.
    split; [reflexivity |]. split; [lia |]. right.
    exists refused, s, 0. rewrite ?app_nil_r. auto.
  - destruct (Hrefused _ _ _ _ _ Ha) as (Hae & refused & s & Hm & Hall).
    destruct (file_to_flash_passes_releases _ _ _ _ _ _ _ _ _ Hp)
      as (Hle & Hfree & Hfcl).
    unfold fcloses, fopens, frees in *. rewrite !pick_app, !mallocs_app.
    rewrite Hfree, Hfcl.
    rewrite !(alloc_events_pick _ anew) by (auto; reflexivity).
    rewrite (Hloop _ lnew) by (auto; intros [] ? ?; try discriminate; reflexivity).
    rewrite (loop_event_mallocs _ Hle), Hm.
    unfold pick. cbn. rewrite (proj2 (Z.eqb_neq _ _) Hc). cbn.
    split; [reflexivity |]. split; [lia |]. right.
    exists refused, s, buf. rewrite ?app_nil_r.
    rewrite (proj2 (Z.eqb_neq _ _) Hbuf). auto.
  - destruct (Hrefused _ _ _ _ _ Ha) as (Hae & refused & s & Hm & Hall).
    destruct (file_to_flash_passes_releases _ _ _ _ _ _ _ _ _ Hp)
      as (Hle & Hfree & Hfcl).
    unfold fcloses, fopens, frees in *. rewrite !pick_app, !mallocs_app.
    rewrite Hfree, Hfcl.
    rewrite !(alloc_events_pick _ anew) by (auto; reflexivity).
    rewrite (Hloop _ lnew) by (auto; intros [] ? ?; try discriminate; reflexivity).
    rewrite (loop_event_mallocs _ Hle), Hm.
    unfold pick. cbn. rewrite (proj2 (Z.eqb_neq _ _) Hc). cbn.
    split; [reflexivity |]. split; [lia |]. right.
    exists refused, s, buf. rewrite ?app_nil_r.
    rewrite (proj2 (Z.eqb_neq _ _) Hbuf). auto.
Qed.

Lemma write_in_releases_witness :
  exists r new,
    file_to_flash os_low_memory 3 0 200000 "img" [] = Ok r (new ++ []) /\
    fcloses new = filter (fun fp => negb (fp =? 0)) (fopens new) /\
    (List.length (fopens new) <= 1)%nat /\
    ((mallocs new = [] /\ frees new = []) \/
     exists refused s p,
       mallocs new = refused ++ [(s, p)] /\
       Forall (fun m => snd m = 0) refused /\
       frees new = (if p =? 0 then [] else [p])).
Proof.
  apply (write_in_releases os_low_memory 3 0 200000 "img" []).
  unfold C.INT_MAX. lia.
Defined.

(** ** The report *)

Lemma flag_lines_false names :
  flag_lines false names = map (fun m => Print Stdout " | %s" [AStr m]) names.
Proof. destruct names; reflexivity. Qed.

(** X8.  [showflags] prints the names of exactly those entries of the table
    whose bit is set in the flags, in the order of the table, each with its
    own [printf], and [" | "] before every name but the first of the line. *)
Theorem showflags_lists_set_bits tbl :
  forall f first t,
  exists new,
    showflags tbl f first t = Ok tt (new ++ t) /\
    rev new = flag_lines first (set_names tbl f).
Proof.
  induction tbl as [| [name value] tbl IH]; intros f first t.
  - exists []. split; reflexivity.
  - cbn [showflags]. unfold set_names. cbn [filter snd].
    destruct (negb (Z.land f value =? 0)).
    + destruct (IH f false (Print Stdout (if first then "%s" else " | %s")
                                  [AStr name] :: t)) as (new & Hrun & Hrev).
      exists (new ++ [Print Stdout (if first then "%s" else " | %s")
                            [AStr name]]).
      split.
      * destruct first; run; (etransitivity; [exact Hrun | trace_eq]).
      * rewrite rev_app_distr, Hrev, flag_lines_false. reflexivity.
    + apply IH.
Qed.

(** X9.  For a 32-bit value [printsize] prints the value and then, from
    1024 on, the value divided by 2^10 with K below 2^20, by 2^20 with M
    below 2^30, by 2^30 with G from there on; the scaled value lies between
    1 and 1023.  T is never printed. *)
Theorem printsize_suffix_ranges x t :
  0 <= x < 2 ^ 32 ->
  let scaled y c := Print Stdout "(%u%c)" [AInt y; AChr c] in
  printsize x t =
    Ok tt ((if x <? 2 ^ 10 then []
            else if x <? 2 ^ 20 then [scaled (x / 2 ^ 10) "K"%char]
            else if x <? 2 ^ 30 then [scaled (x / 2 ^ 20) "M"%char]
            else [scaled (x / 2 ^ 30) "G"%char])
           ++ Print Stdout "%u " [AInt x] :: t) /\
  (2 ^ 10 <= x ->
   1 <= (if x <? 2 ^ 20 then x / 2 ^ 10
         else if x <? 2 ^ 30 then x / 2 ^ 20 else x / 2 ^ 30) < 1024).
Proof.
  intros Hx scaled.
  assert (H10 : x / 1024 = x / 2 ^ 10) by reflexivity.
  assert (H20 : x / 1024 / 1024 = x / 2 ^ 20)
    by (rewrite Z.div_div by lia; reflexivity).
  assert (H30 : x / 1024 / 1024 / 1024 = x / 2 ^ 30)
    by (rewrite !Z.div_div by lia; reflexivity).
  assert (B10 : 2 ^ 10 <= x -> 1 <= x / 2 ^ 10)
    by (intros; apply Z.div_le_lower_bound; lia).
  assert (B20 : 2 ^ 20 <= x -> 1 <= x / 2 ^ 20)
    by (intros; apply Z.div_le_lower_bound; lia).
  assert (B30 : 2 ^ 30 <= x -> 1 <= x / 2 ^ 30)
    by (intros; apply Z.div_le_lower_bound; lia).
  assert (U10 : x < 2 ^ 20 -> x / 2 ^ 10 < 1024)
    by (intros; apply Z.div_lt_upper_bound; lia).
  assert (U20 : x < 2 ^ 30 -> x / 2 ^ 20 < 1024)
    by (intros; apply Z.div_lt_upper_bound; lia).
  assert (U30 : x / 2 ^ 30 < 4)
    by (apply Z.div_lt_upper_bound; lia).
  assert (L20 : 2 ^ 20 <= x -> 1024 <= x / 2 ^ 10)
    by (intros; apply Z.div_le_lower_bound; lia).
  assert (L30 : 2 ^ 30 <= x -> 1024 <= x / 2 ^ 20)
    by (intros; apply Z.div_le_lower_bound; lia).
  split.
  - unfold printsize. run.
    change flags with ["K"; "M"; "G"; "T"]%char.
    cbn [printsize_loop].
    destruct (x <? 2 ^ 10) eqn:E1.
    { apply Z.ltb_lt in E1.
      rewrite (proj2 (Z.leb_gt 1024 x)) by lia. reflexivity. }
    apply Z.ltb_ge in E1. rewrite (proj2 (Z.leb_le 1024 x)) by lia.
    destruct (x <? 2 ^ 20) eqn:E2.
    { apply Z.ltb_lt in E2.
      rewrite (proj2 (Z.leb_gt 1024 (x / 1024))) by (rewrite H10; auto).
      reflexivity. }
    apply Z.ltb_ge in E2.
    rewrite (proj2 (Z.leb_le 1024 (x / 1024))) by (rewrite H10; auto).
    destruct (x <? 2 ^ 30) eqn:E3.
    { apply Z.ltb_lt in E3.
      rewrite (proj2 (Z.leb_gt 1024 (x / 1024 / 1024)))
        by (rewrite H20; auto).
      rewrite H20. reflexivity. }
    apply Z.ltb_ge in E3.
    rewrite (proj2 (Z.leb_le 1024 (x / 1024 / 1024))) by (rewrite H20; auto).
    rewrite (proj2 (Z.leb_gt 1024 (x / 1024 / 1024 / 1024)))
      by (rewrite H30; lia).
    rewrite H30. reflexivity.
  - intros H.
    destruct (x <? 2 ^ 20) eqn:E2;
      [apply Z.ltb_lt in E2; split; auto |].
    apply Z.ltb_ge in E2.
    destruct (x <? 2 ^ 30) eqn:E3;
      [apply Z.ltb_lt in E3; split; auto |].
    apply Z.ltb_ge in E3. split; [auto | lia].
Qed.

Lemma printsize_suffix_ranges_witness :
  printsize 16777216 [] =
    Ok tt [Print Stdout "(%u%c)" [AInt 16; AChr "M"];
           Print Stdout "%u " [AInt 16777216]] /\
  (2 ^ 10 <= 16777216 -> 1 <= 16 < 1024).
Proof.
  apply (printsize_suffix_ranges 16777216 []). lia.
Defined.

(** ** The region table *)

Lemma region_replies_cons e t :
  region_replies (e :: t) = region_replies t ++ region_replies [e].
Proof. apply (pick_app _ [e] t). Qed.

(** The loop over the regions stores in entry [j] what the driver answered
    to the query for [j], and leaves the entries it did not query alone. *)
Lemma getregions_loop_stores os fd k :
  forall i regions t,
    0 <= i -> i + Z.of_nat k <= Z.of_nat (List.length regions) ->
    exists err regions' new,
      getregions_loop os fd k i regions t = Ok (err, regions') (new ++ t) /\
      (List.length (region_replies new) <= k)%nat /\
      forall j, 0 <= j ->
        nth (Z.to_nat j) regions' zero_region =
        if (i <=? j) && (j <? i + Z.of_nat (List.length (region_replies new)))
        then fill_region
               (set_regionindex j (nth (Z.to_nat j) regions zero_region))
               (nth (Z.to_nat (j - i)) (region_replies new) DNone)
        else nth (Z.to_nat j) regions zero_region.
Proof.
  induction k as [| k IH]; intros i regions t Hi Hk.
  - exists 0, regions, []. split; [reflexivity |]. split; [cbn; lia |].
    intros j Hj. cbn [region_replies pick flat_map rev List.length].
    replace (j <? i + Z.of_nat 0) with (j <? i) by (f_equal; lia).
    destruct (i <=? j) eqn:E1, (j <? i) eqn:E2; try reflexivity.
    apply Z.leb_le in E1. apply Z.ltb_lt in E2. lia.
  - cbn [getregions_loop].
    destruct (nth_error regions (Z.to_nat i)) as [ri |] eqn:En.
    2:{ apply nth_error_None in En. lia. }
    assert (Hlt : (Z.to_nat i < List.length regions)%nat)
      by (apply nth_error_Some; rewrite En; discriminate).
    assert (Hri : nth (Z.to_nat i) regions zero_region = ri)
      by (apply nth_error_nth; exact En).
    run. cbv zeta.
    set (q := Ioctl fd MEMGETREGIONINFO (DRegion (set_regionindex i ri))).
    set (r := os t q).
    set (regions1 := list_set (Z.to_nat i)
                       (fill_region (set_regionindex i ri) (out r)) regions).
    assert (Hl1 : List.length regions1 = List.length regions)
      by apply list_set_length.
    assert (Hone : region_replies [Sys q r] = [out r]) by reflexivity.
    assert (Hsame : nth (Z.to_nat i) regions1 zero_region
                    = fill_region (set_regionindex i ri) (out r))
      by (apply list_set_nth_same; exact Hlt).
    assert (Hother : forall j, 0 <= j -> j <> i ->
                     nth (Z.to_nat j) regions1 zero_region
                     = nth (Z.to_nat j) regions zero_region)
      by (intros j Hj Hne; apply list_set_nth_other; lia).
    destruct (ret r =? 0) eqn:E; cbn [negb].
    + destruct (IH (i + 1) regions1 (Sys q r :: t))
        as (err & regions' & new & Hrun & Hq & Hst);
        [lia | rewrite Hl1; lia |].
      exists err, regions', (new ++ [Sys q r]).
      split; [etransitivity; [exact Hrun | trace_eq] |].
      unfold region_replies in *. rewrite pick_app. fold region_replies in *.
      rewrite Hone, length_app. cbn [List.length app].
      split; [lia |].
      intros j Hj. rewrite (Hst j Hj).
      destruct (Z.eq_dec j i) as [-> | Hne].
      * rewrite (proj2 (Z.leb_gt (i + 1) i)) by lia. cbn [andb].
        rewrite Z.leb_refl, (proj2 (Z.ltb_lt i _)) by lia. cbn [andb].
        rewrite Z.sub_diag. cbn [Z.to_nat nth]. rewrite Hsame, Hri.
        reflexivity.
      * rewrite (Hother j Hj Hne).
        destruct (i + 1 <=? j) eqn:E1.
        -- apply Z.leb_le in E1.
           rewrite (proj2 (Z.leb_le i j)) by lia. cbn [andb].
           replace (j <? i + Z.of_nat (1 + List.length (region_replies new)))
             with (j <? i + 1 + Z.of_nat (List.length (region_replies new)))
             by (f_equal; lia).
           destruct (j <? _); [| reflexivity].
           replace (Z.to_nat (j - i)) with (S (Z.to_nat (j - (i + 1)))) by lia.
           reflexivity.
        -- apply Z.leb_gt in E1. cbn [andb].
           rewrite (proj2 (Z.leb_gt i j)) by lia. reflexivity.
    + exists (ret r), regions1, [Sys q r]. unfold mret.
      split; [reflexivity |]. rewrite Hone. cbn [List.length].
      split; [lia |].
      intros j Hj. destruct (Z.eq_dec j i) as [-> | Hne].
      * rewrite Z.leb_refl, (proj2 (Z.ltb_lt i _)) by lia. cbn [andb].
        rewrite Z.sub_diag. cbn [Z.to_nat nth]. rewrite Hsame, Hri.
        reflexivity.
      * rewrite (Hother j Hj Hne).
        destruct (i <=? j) eqn:E1; [| reflexivity].
        apply Z.leb_le in E1.
        rewrite (proj2 (Z.ltb_ge j _)) by lia. reflexivity.
Qed.

(** X10.  When the count query succeeds with a count that the table can
    hold, [getregions] leaves in entry [j] of the table what the driver
    answered to the query for region [j] (its offset, erase size and number
    of blocks, with [regionindex] set to [j]), for every query it made, and
    leaves all other entries as they were. *)
Theorem getregions_stores_answers os fd regions n t :
  let count := Ioctl fd MEMGETREGIONCOUNT (DInt n) in
  let c := os t count in
  let N := match out c with DInt k => k | _ => n end in
  ret c = 0 -> N <= Z.of_nat (List.length regions) ->
  exists err regions' new,
    getregions os fd regions n t
      = Ok (err, regions', N) (new ++ Sys count c :: t) /\
    Z.of_nat (List.length (region_replies new)) <= Z.max N 0 /\
    forall j, 0 <= j ->
      nth (Z.to_nat j) regions' zero_region =
      if j <? Z.of_nat (List.length (region_replies new))
      then fill_region
             (set_regionindex j (nth (Z.to_nat j) regions zero_region))
             (nth (Z.to_nat j) (region_replies new) DNone)
      else nth (Z.to_nat j) regions zero_region.
Proof.
  intros count c N Hc HN. unfold getregions. run. cbv zeta.
  fold count. fold c. fold N. rewrite Hc. cbn [Z.eqb negb].
  destruct (getregions_loop_stores os fd (Z.to_nat N) 0 regions
              (Sys count c :: t))
    as (err & regions' & new & Hrun & Hq & Hst); [lia | lia |].
  rewrite Hrun. cbn [fst snd].
  exists err, regions', new. split; [reflexivity |]. split; [lia |].
  intros j Hj. rewrite (Hst j Hj).
  rewrite (proj2 (Z.leb_le 0 j) Hj). cbn [andb].
  rewrite Z.add_0_l, Z.sub_0_r. reflexivity.
Qed.

Lemma getregions_stores_answers_witness :
  exists err regions' new,
    getregions os_ok 3 (repeat zero_region 4) 7 []
      = Ok (err, regions', 2)
           (new ++ [Sys (Ioctl 3 MEMGETREGIONCOUNT (DInt 7))
                        {| ret := 0; out := DInt 2 |}]) /\
    Z.of_nat (List.length (region_replies new)) <= Z.max 2 0 /\
    forall j, 0 <= j ->
      nth (Z.to_nat j) regions' zero_region =
      if j <? Z.of_nat (List.length (region_replies new))
      then fill_region
             (set_regionindex j
                (nth (Z.to_nat j) (repeat zero_region 4) zero_region))
             (nth (Z.to_nat j) (region_replies new) DNone)
      else nth (Z.to_nat j) (repeat zero_region 4) zero_region.
Proof.
  apply (getregions_stores_answers os_ok 3 (repeat zero_region 4) 7 []).
  - reflexivity.
  - cbn. lia.
Defined.

(** Past the end of the table. *)
Lemma getregions_loop_overruns os fd k :
  (forall t r, ret (os t (Ioctl fd MEMGETREGIONINFO (DRegion r))) = 0) ->
  forall i regions t,
    0 <= i <= Z.of_nat (List.length regions) ->
    Z.of_nat (List.length regions) < i + Z.of_nat k ->
    getregions_loop os fd k i regions t = Fault Undefined.
Proof.
  intros Hok. induction k as [| k IH]; intros i regions t Hi Hk; [lia |].
  cbn [getregions_loop].
  destruct (nth_error regions (Z.to_nat i)) as [ri |] eqn:En; [| reflexivity].
  assert (Hlt : (Z.to_nat i < List.length regions)%nat)
    by (apply nth_error_Some; rewrite En; discriminate).
  run. cbv zeta. rewrite Hok. cbn [Z.eqb negb].
  apply IH; rewrite list_set_length; lia.
Qed.

(** X11.  When the driver reports more regions than the table has entries
    and answers every per-region query, [getregions] stores past the end of
    the table: the run has no defined behaviour. *)
Theorem getregions_overruns_table os fd regions n t :
  let c := os t (Ioctl fd MEMGETREGIONCOUNT (DInt n)) in
  let N := match out c with DInt k => k | _ => n end in
  ret c = 0 -> Z.of_nat (List.length regions) < N ->
  (forall t' r, ret (os t' (Ioctl fd MEMGETREGIONINFO (DRegion r))) = 0) ->
  getregions os fd regions n t = Fault Undefined.
Proof.
  intros c N Hc HN Hok. unfold getregions. run. cbv zeta.
  fold c. fold N. rewrite Hc. cbn [Z.eqb negb].
  rewrite (getregions_loop_overruns os fd (Z.to_nat N) Hok); [reflexivity | |];
    lia.
Qed.

Lemma getregions_overruns_table_witness :
  getregions os_ok 3 [zero_region] 0 [] = Fault Undefined.
Proof.
  apply (getregions_overruns_table os_ok 3 [zero_region] 0 []).
  - reflexivity.
  - cbn. lia.
  - intros t' r. reflexivity.
Defined.

(** ** showinfo: all of the report or none of it *)

Lemma emits_ret {A} P (Q : A -> Prop) (a : A) : Q a -> emits P Q (mret a).
Proof. intros H t. exists a, []. repeat split; auto. Qed.

Lemma emits_bind {A B} P (Q : A -> Prop) (R : B -> Prop)
    (m : M A) (k : A -> M B) :
  emits P Q m -> (forall a, Q a -> emits P R (k a)) -> emits P R (mbind m k).
Proof.
  intros Hm Hk t. destruct (Hm t) as (a & new & Hrun & Hp & Ha).
  destruct (Hk a Ha (new ++ t)) as (b & new' & Hrun' & Hp' & Hb).
  exists b, (new' ++ new). unfold mbind. rewrite Hrun, Hrun', app_assoc.
  rewrite forallb_app, Hp, Hp'. auto.
Qed.

Lemma emits_seq {A B} P (R : B -> Prop) (m : M A) (k : M B) :
  emits P (fun _ => True) m -> emits P R k ->
  emits P R (mbind m (fun _ => k)).
Proof. intros Hm Hk. eapply emits_bind; [exact Hm | auto]. Qed.

Lemma emits_printf fmt args :
  emits writes_stdout (fun _ => True) (printf fmt args).
Proof. intros t. exists tt, [Print Stdout fmt args]. repeat split. Qed.

Lemma emits_call os c : emits is_sys (fun r => exists t, r = os t c) (call os c).
Proof.
  intros t. exists (os t c), [Sys c (os t c)].
  repeat split. exists t. reflexivity.
Qed.

Lemma emits_printsize x : emits writes_stdout (fun _ => True) (printsize x).
Proof.
  unfold printsize. apply emits_seq; [apply emits_printf |].
  destruct (printsize_loop flags x 0) as [y i].
  destruct (0 <=? i - 1); [apply emits_printf | apply emits_ret; exact I].
Qed.

Lemma emits_showflags tbl :
  forall f first, emits writes_stdout (fun _ => True) (showflags tbl f first).
Proof.
  induction tbl as [| [name value] tbl IH]; intros f first;
    cbn [showflags]; [apply emits_ret; exact I |].
  destruct (negb (Z.land f value =? 0)); [| apply IH].
  apply emits_seq; [| apply IH].
  destruct first; apply emits_printf.
Qed.

Lemma emits_showregions k :
  forall i region,
    0 <= i -> i + Z.of_nat k <= Z.of_nat (List.length region) ->
    emits writes_stdout (fun _ => True) (showregions k i region).
Proof.
  induction k as [| k IH]; intros i region Hi Hk; cbn [showregions];
    [apply emits_ret; exact I |].
  destruct (nth_error region (Z.to_nat i)) as [ri |] eqn:En.
  2:{ apply nth_error_None in En. lia. }
  apply emits_seq; [apply emits_printf |].
  apply emits_seq; [apply emits_printsize |].
  apply emits_seq; [apply emits_printf |].
  apply IH; lia.
Qed.

Lemma emits_getregions_loop os fd k :
  forall i regions,
    0 <= i -> i + Z.of_nat k <= Z.of_nat (List.length regions) ->
    emits is_sys (fun p => List.length (snd p) = List.length regions)
          (getregions_loop os fd k i regions).
Proof.
  induction k as [| k IH]; intros i regions Hi Hk; cbn [getregions_loop];
    [apply emits_ret; reflexivity |].
  destruct (nth_error regions (Z.to_nat i)) as [ri |] eqn:En.
  2:{ apply nth_error_None in En. lia. }
  eapply emits_bind; [apply emits_call |]. intros r _. cbv zeta.
  destruct (negb (ret r =? 0)).
  - apply emits_ret. apply list_set_length.
  - intros t.
    destruct (IH (i + 1) (list_set (Z.to_nat i)
                            (fill_region (set_regionindex i ri) (out r))
                            regions)
                ltac:(lia) ltac:(rewrite list_set_length; lia) t)
      as (a & new & Hrun & Hp & Ha).
    exists a, new. rewrite list_set_length in Ha. auto.
Qed.

Lemma emits_getregions os fd regions n :
  region_count_bounded os (Z.of_nat (List.length regions)) n ->
  emits is_sys (fun '(_, regions', n') =>
                  n' <= Z.of_nat (List.length regions'))
        (getregions os fd regions n).
Proof.
  intros Hb. unfold getregions.
  eapply emits_bind; [apply emits_call |]. intros r [t0 Hr]. cbv zeta.
  assert (HN : match out r with DInt k => k | _ => n end
               <= Z.of_nat (List.length regions))
    by (rewrite Hr; apply Hb).
  destruct (negb (ret r =? 0)); [apply emits_ret; exact HN |].
  eapply emits_bind; [apply emits_getregions_loop; lia |].
  intros [err regions'] Hlen. cbn [fst snd] in *.
  apply emits_ret. rewrite Hlen. exact HN.
Qed.

Lemma sys_events_silent l :
  forallb is_sys l = true ->
  filter writes_stdout l = [] /\ filter writes_stderr l = [].
Proof.
  intros H. split; apply filter_nothing; revert H; apply forallb_weaken;
    intros [c r | | |] Hx; try discriminate Hx; reflexivity.
Qed.

Lemma stdout_events_only l :
  forallb writes_stdout l = true ->
  filter writes_stdout l = l /\ filter writes_stderr l = [].
Proof.
  induction l as [| e l IH]; [split; reflexivity |].
  cbn [forallb filter]. intros H. apply andb_prop in H. destruct H as [He Hl].
  destruct (IH Hl) as [H1 H2]. rewrite He, H1.
  split; [reflexivity |].
  unfold writes_stdout, writes_stderr in *.
  destruct (stream_of e) as [[|] |]; try discriminate He. exact H2.
Qed.

Lemma prints_seq {A B} l1 l2 (a : A) (b : B) (m : M A) (k : M B) :
  prints l1 a m -> prints l2 b k -> prints (l1 ++ l2) b (mbind m (fun _ => k)).
Proof.
  intros H1 H2 t. unfold mbind. rewrite H1, H2, rev_app_distr, app_assoc.
  reflexivity.
Qed.

Lemma prints_then {A B} l (a : A) (b : B) (m : M A) :
  prints l a m -> prints l b (mbind m (fun _ => mret b)).
Proof. intros H t. unfold mbind. rewrite H. reflexivity. Qed.

Lemma prints_printf fmt args :
  prints [Print Stdout fmt args] tt (printf fmt args).
Proof. intros t. reflexivity. Qed.

Lemma prints_printsize x : prints (size_lines x) tt (printsize x).
Proof.
  intros t. unfold printsize, size_lines. run.
  destruct (printsize_loop flags x 0) as [y i]. cbv zeta.
  destruct (0 <=? i - 1); reflexivity.
Qed.

Lemma prints_showflags tbl :
  forall f first,
    prints (flag_lines first (set_names tbl f)) tt (showflags tbl f first).
Proof.
  induction tbl as [| [name value] tbl IH]; intros f first.
  - intros t. reflexivity.
  - cbn [showflags]. unfold set_names. cbn [filter snd].
    destruct (negb (Z.land f value =? 0)); [| apply IH].
    cbn [map fst flag_lines]. rewrite <- flag_lines_false.
    eapply (prints_seq [_]); [| apply IH].
    destruct first; apply prints_printf.
Qed.

Lemma prints_capabilities f :
  prints (capability_lines f) tt
    (if f =? MTD_CAP_ROM then printf "MTD_CAP_ROM" []
     else if f =? MTD_CAP_RAM then printf "MTD_CAP_RAM" []
     else if f =? MTD_CAP_NORFLASH then printf "MTD_CAP_NORFLASH" []
     else if f =? MTD_CAP_NANDFLASH then printf "MTD_CAP_NANDFLASH" []
     else showflags flag_table f true).
Proof.
  unfold capability_lines.
  destruct (f =? MTD_CAP_ROM); [apply prints_printf |].
  destruct (f =? MTD_CAP_RAM); [apply prints_printf |].
  destruct (f =? MTD_CAP_NORFLASH); [apply prints_printf |].
  destruct (f =? MTD_CAP_NANDFLASH); [apply prints_printf |].
  apply prints_showflags.
Qed.

Lemma prints_showregions k :
  forall i region,
    0 <= i -> i + Z.of_nat k <= Z.of_nat (List.length region) ->
    prints (flat_map (region_lines region) (Zseq i k)) tt
           (showregions k i region).
Proof.
  induction k as [| k IH]; intros i region Hi Hk;
    cbn [showregions Zseq flat_map]; [intros t; reflexivity |].
  destruct (nth_error region (Z.to_nat i)) as [ri |] eqn:En.
  2:{ apply nth_error_None in En. lia. }
  unfold region_lines at 1. cbv zeta.
  rewrite (nth_error_nth _ _ zero_region En), <- !app_assoc.
  eapply prints_seq; [apply prints_printf |].
  eapply prints_seq; [apply prints_printsize |].
  eapply prints_seq; [apply prints_printf |].
  apply IH; lia.
Qed.

(** X12.  Within the capacity of the region table, [showinfo] writes all of
    the report or none of it.  When it returns 1, nothing has been written
    to standard output and one [perror] line to the diagnostic stream.  When
    it returns 0, the diagnostic stream is untouched and standard output
    holds the whole report, made of what the driver answered: the type, the
    capabilities and the four sizes of the device information, the number of
    regions, and the entries of the region table that [getregions] filled
    in. *)
Theorem showinfo_report_or_nothing os fd mtd region n t :
  region_count_bounded os (Z.of_nat (List.length region)) n ->
  let query := Ioctl fd MEMGETINFO (DMtd mtd) in
  let info := os t query in
  exists r new,
    showinfo os fd mtd region n t = Ok r (new ++ t) /\
    ((r = 1 /\ stdout_lines new = [] /\
      exists tag, filter writes_stderr new = [Perror tag]) \/
     (r = 0 /\ filter writes_stderr new = [] /\
      exists err region' n' t',
        getregions os fd region n (Sys query info :: t)
          = Ok (err, region', n') t' /\
        stdout_lines new =
          report (match out info with DMtd m => m | _ => mtd end)
                 region' n')).
Proof.
  intros Hb query info. unfold showinfo.
  match goal with
  | |- context [mbind (getmeminfo os fd mtd) ?k] => set (K := k)
  end.
  unfold mbind at 1. unfold getmeminfo. run.
  fold query. fold info.
  set (e1 := Sys query info).
  subst K. cbn beta iota.
  destruct (ret info <? 0).
  { run. exists 1; eexists [_; e1]. split; [reflexivity |]. left.
    split; [reflexivity |]. split; [reflexivity |]. eexists. reflexivity. }
  match goal with
  | |- context [mbind (getregions os fd region n) ?k] => set (K := k)
  end.
  unfold mbind at 1.
  destruct (emits_getregions os fd region n Hb (e1 :: t))
    as ([[err region'] n'] & new2 & Hrun2 & Hsys2 & Hn').
  rewrite Hrun2. subst K. cbn beta iota.
  destruct (sys_events_silent _ Hsys2) as [Hso2 Hse2].
  destruct (err <? 0).
  { run. exists 1; eexists ([_] ++ new2 ++ [e1]). split; [trace_eq |]. left.
    unfold stdout_lines. cbn [app filter writes_stdout writes_stderr stream_of].
    rewrite !filter_app, Hso2, Hse2.
    split; [reflexivity |]. split; [reflexivity |]. eexists. reflexivity. }
  set (mtd' := match out info with DMtd m => m | _ => mtd end).
  match goal with
  | |- context [mbind (printf "mtd.type = " []) ?k] =>
    set (chain := mbind (printf "mtd.type = " []) k)
  end.
  assert (Hout : emits writes_stdout (fun r => r = 0) chain).
  { subst chain.
    repeat first
      [ apply emits_ret; reflexivity
      | apply emits_seq;
        [first [apply emits_printf | apply emits_printsize
               | apply emits_showregions; lia
               | repeat match goal with
                        | |- emits _ _ (if ?b then _ else _) => destruct b
                        end;
                 first [apply emits_printf | apply emits_showflags]] |] ]. }
  assert (Hrep : prints (report mtd' region' n') 0 chain).
  { subst chain. unfold report.
    do 3 (eapply prints_seq; [apply prints_printf |]).
    eapply prints_seq; [apply prints_capabilities |].
    do 4 (eapply prints_seq; [apply prints_printf |];
          eapply prints_seq; [apply prints_printsize |]).
    eapply prints_seq; [apply prints_printf |].
    eapply prints_then. apply prints_showregions; lia. }
  destruct (Hout (new2 ++ e1 :: t)) as (r & new3 & Hrun3 & Hout3 & ->).
  assert (Hnew3 : new3 = rev (report mtd' region' n')).
  { pose proof (Hrep (new2 ++ e1 :: t)) as Hrun4.
    rewrite Hrun3 in Hrun4. apply (f_equal trace_of) in Hrun4.
    cbn [trace_of] in Hrun4. apply app_inv_tail in Hrun4. exact Hrun4. }
  rewrite Hrun3.
  destruct (stdout_events_only _ Hout3) as [Hso3 Hse3].
  exists 0. exists (new3 ++ new2 ++ [e1]).
  split; [trace_eq |]. right. split; [reflexivity |].
  unfold stdout_lines. rewrite !filter_app, Hso2, Hse2, Hso3, Hse3.
  cbn [app filter writes_stdout writes_stderr stream_of e1].
  split; [reflexivity |].
  exists err, region', n', (new2 ++ e1 :: t).
  split; [reflexivity |].
  rewrite app_nil_r, Hnew3. apply rev_involutive.
Qed.

Lemma showinfo_report_or_nothing_witness :
  exists r new,
    showinfo os_ok 3 zero_mtd (repeat zero_region 4) 0 []
      = Ok r (new ++ []) /\
    ((r = 1 /\ stdout_lines new = [] /\
      exists tag, filter writes_stderr new = [Perror tag]) \/
     (r = 0 /\ filter writes_stderr new = [] /\
      exists err region' n' t',
        getregions os_ok 3 (repeat zero_region 4) 0
          [Sys (Ioctl 3 MEMGETINFO (DMtd zero_mtd))
               {| ret := 0; out := DMtd sample_mtd |}]
          = Ok (err, region', n') t' /\
        stdout_lines new = report sample_mtd region' n')).
Proof.
  apply (showinfo_report_or_nothing os_ok 3 zero_mtd
           (repeat zero_region 4) 0 []).
  apply os_ok_region_count_bounded. cbn. lia.
Defined.
